(** * Scene lifecycle and transition manager

    A shallow embedding of [src/scene/sceneManager.js] and of the two scene
    units it manages (classes [Scene1] and [Scene2]), followed by the
    properties of the scene lifecycle.

    Modelling conventions.
    - JavaScript numbers are IEEE-754 binary64 values: Rocq's primitive
      [float].
    - Three.js objects ([Object3D]: scenes, meshes, groups, lights) live in a
      store keyed by object identity ([ObjId], the [id] Three.js gives every
      object from a global counter).  [this.objects] and the children of a
      scene graph hold identities, so both see one and the same object.
    - Scene units are objects too: they live in a store keyed by unit
      identity, and the registry, like every caller that created a unit,
      holds identities.  A unit registered under two names is one unit.
    - The registry [this.scenes] is a plain JavaScript object used as a map
      from scene name to unit: its own properties in the order of their
      creation, and a prototype.  A read [this.scenes[name]] goes through
      the prototype chain, so it finds the properties of [Object.prototype]
      as well; an assignment to [__proto__] sets the prototype.
    - A [Float32Array] holds numbers rounded to single precision.
    - A method is a function from the receiver and the world to a
      completion (normal or thrown), the receiver and the world afterwards.
      What a method changed before it throws stays changed, as in
      JavaScript.
    - The camera, lighting and model-loader services and the console are
      collaborators outside the scene subsystem: calls made to them are
      recorded, in order, in the world's [trace].
    - [Math.sin], [Math.cos], [Math.random], the remainder operator on
      numbers, Three.js' [lookAt] and the availability of a 2D canvas are
      supplied by the [Runtime]; the value of [Date.now()] is an argument
      of [update]. *)

From Stdlib Require Import PrimFloat FloatOps SpecFloat Uint63 ZArith String.
From stdpp Require Import gmap strings list fin_maps sorting.

Set Warnings "-inexact-float".
Set Default Proof Using "Type".

Local Open Scope string_scope.
Local Open Scope list_scope.

(** ** Numbers, vectors, colours *)

Definition number_of_nat (n : nat) : float :=
  PrimFloat.of_uint63 (Uint63.of_Z (Z.of_nat n)).

Definition Math_PI : float := 3.141592653589793%float.

(** [Math.fround]: the nearest single-precision number (ties to even),
    which is what a store into a [Float32Array] keeps. *)
Definition Math_fround (a : float) : float :=
  match Prim2SF a with
  | S754_finite s m e => SF2Prim (binary_round 24 128 s m e)
  | _ => a
  end.

Record Vector3 := mkVector3 { vx : float; vy : float; vz : float }.

Definition set_x (a : float) (v : Vector3) := mkVector3 a (vy v) (vz v).
Definition set_y (a : float) (v : Vector3) := mkVector3 (vx v) a (vz v).
Definition set_z (a : float) (v : Vector3) := mkVector3 (vx v) (vy v) a.

Definition origin : Vector3 := mkVector3 0 0 0.

Inductive Color :=
| Hex (rgb : Z)
| HSL (h s l : float).

(** ** The JavaScript runtime the scenes run on *)

Class Runtime := {
  Math_sin : float -> float;
  Math_cos : float -> float;
  (** the value of the n-th call to [Math.random()] *)
  Math_random : nat -> float;
  (** [a % b] on numbers *)
  number_rem : float -> float -> float;
  (** the rotation [Object3D.lookAt] gives an object at a position *)
  lookAt_rotation : Vector3 -> Vector3 -> Vector3;
  (** whether [canvas.getContext('2d')] yields a context *)
  canvas2d : bool
}.

(** ** Three.js objects *)

Definition ObjId := nat.

Inductive Shape :=
| PlaneGeometry (width height : float)
| BoxGeometry (width height depth : float)
| SphereGeometry (radius : float) (widthSegments heightSegments : nat)
| CylinderGeometry (radiusTop radiusBottom height : float) (radialSegments : nat)
| TorusGeometry (radius tube : float) (radialSegments tubularSegments : nat)
| ConeGeometry (radius height : float) (radialSegments : nat)
| BufferGeometry
| AxesGeometry (size : float)
| GridGeometry (size : float) (divisions : nat).

Record Geometry := mkGeometry {
  shape : Shape;
  (** [attributes.position.array], for a [BufferGeometry]: the entries of a
      [Float32Array] *)
  positionArray : list float;
  needsUpdate : bool;
  geometryDisposed : bool
}.

Record Material := mkMaterial {
  color : Color;
  opacity : float;
  emissive : Color;
  materialDisposed : bool
}.

Record Light := mkLight { lightColor : Color; intensity : float }.

Record UserData := mkUserData {
  isLoadedModel : bool;
  modelType : option string
}.

Record Object3D := mkObject3D {
  name : string;
  position : Vector3;
  rotation : Vector3;
  userData : UserData;
  children : list ObjId;
  geometry : option Geometry;
  material : option Material;
  light : option Light
}.

Definition with_position (f : Vector3 -> Vector3) (o : Object3D) : Object3D :=
  mkObject3D (name o) (f (position o)) (rotation o) (userData o) (children o)
             (geometry o) (material o) (light o).
Definition with_rotation (f : Vector3 -> Vector3) (o : Object3D) : Object3D :=
  mkObject3D (name o) (position o) (f (rotation o)) (userData o) (children o)
             (geometry o) (material o) (light o).
Definition with_userData (d : UserData) (o : Object3D) : Object3D :=
  mkObject3D (name o) (position o) (rotation o) d (children o)
             (geometry o) (material o) (light o).
Definition with_children (f : list ObjId -> list ObjId) (o : Object3D) : Object3D :=
  mkObject3D (name o) (position o) (rotation o) (userData o) (f (children o))
             (geometry o) (material o) (light o).
Definition with_geometry (f : Geometry -> Geometry) (o : Object3D) : Object3D :=
  mkObject3D (name o) (position o) (rotation o) (userData o) (children o)
             (f <$> geometry o) (material o) (light o).
Definition with_material (f : Material -> Material) (o : Object3D) : Object3D :=
  mkObject3D (name o) (position o) (rotation o) (userData o) (children o)
             (geometry o) (f <$> material o) (light o).
Definition with_light (f : Light -> Light) (o : Object3D) : Object3D :=
  mkObject3D (name o) (position o) (rotation o) (userData o) (children o)
             (geometry o) (material o) (f <$> light o).

(** [geometry.dispose()] and [material.dispose()] *)
Definition dispose_geometry (g : Geometry) : Geometry :=
  mkGeometry (shape g) (positionArray g) (needsUpdate g) true.
Definition dispose_material (m : Material) : Material :=
  mkMaterial (color m) (opacity m) (emissive m) true.

(** [if (obj.geometry) obj.geometry.dispose();
    if (obj.material) obj.material.dispose();] *)
Definition dispose_resources (o : Object3D) : Object3D :=
  with_material dispose_material (with_geometry dispose_geometry o).

(** ** Errors, the console and the services *)

Inductive JsError :=
| Error (message : string)
| TypeError (message : string).

(** Handles of the services handed to [init]. *)
Definition CameraManager := nat.
Definition LightsManager := nat.
Definition ModelLoader := nat.

Inductive Event :=
| console_log (message : string)
| console_warn (message : string)
| console_error (message : string) (error : JsError)
| Camera_setPosition (camera : CameraManager) (x y z : float)
| Camera_setTarget (camera : CameraManager) (x y z : float)
| Lights_addToScene (lights : LightsManager) (scene : ObjId)
| Lights_applyPreset (lights : LightsManager) (preset : string).

(** ** The world: object store, identity counter, random draws, trace *)

Record World := mkWorld {
  heap : gmap ObjId Object3D;
  nextId : nat;
  randomCalls : nat;
  trace : list Event
}.

Definition emptyWorld : World := mkWorld ∅ 0 0 [].

Definition emit (e : Event) (w : World) : World :=
  mkWorld (heap w) (nextId w) (randomCalls w) (trace w ++ [e]).

Definition set_heap (f : gmap ObjId Object3D -> gmap ObjId Object3D) (w : World) : World :=
  mkWorld (f (heap w)) (nextId w) (randomCalls w) (trace w).

(** ** Methods *)

Inductive Completion (A : Type) :=
| Return (a : A)
| Throw (e : JsError).
Arguments Return {A} a.
Arguments Throw {A} e.

Definition Method (T A : Type) : Type := T -> World -> Completion A * T * World.

Definition ret {T A} (a : A) : Method T A := fun this w => (Return a, this, w).

Definition throw {T A} (e : JsError) : Method T A := fun this w => (Throw e, this, w).

Definition bind {T A B} (m : Method T A) (k : A -> Method T B) : Method T B :=
  fun this w =>
    match m this w with
    | (Return a, this', w') => k a this' w'
    | (Throw e, this', w') => (Throw e, this', w')
    end.

Declare Scope method_scope.
Delimit Scope method_scope with method.
Notation "x <- m ;; k" := (bind m (fun x => k))
  (at level 100, m at next level, right associativity) : method_scope.
Notation "m ;; k" := (bind m (fun _ => k))
  (at level 100, right associativity) : method_scope.
Local Open Scope method_scope.

(** [try { body } catch (error) { handler(error) }] *)
Definition try_catch {T A} (body : Method T A) (handler : JsError -> Method T A)
  : Method T A :=
  fun this w =>
    match body this w with
    | (Return a, this', w') => (Return a, this', w')
    | (Throw e, this', w') => handler e this' w'
    end.

Definition get_this {T} : Method T T := fun this w => (Return this, this, w).
Definition set_this {T} (f : T -> T) : Method T unit := fun this w => (Return tt, f this, w).
Definition get_world {T} : Method T World := fun this w => (Return w, this, w).
Definition set_world {T} (f : World -> World) : Method T unit :=
  fun this w => (Return tt, this, f w).

Definition log {T} (message : string) : Method T unit := set_world (emit (console_log message)).
Definition warn {T} (message : string) : Method T unit := set_world (emit (console_warn message)).

(** [catch (error) { console.error(message, error); throw error; }] *)
Definition log_and_rethrow {T A} (message : string) (e : JsError) : Method T A :=
  set_world (emit (console_error message e)) ;; throw e.

(** [new THREE.Mesh(...)] and the like: the object gets the next identity. *)
Definition new_Object3D {T} (o : Object3D) : Method T ObjId :=
  fun this w =>
    (Return (nextId w), this,
     mkWorld (<[nextId w := o]> (heap w)) (S (nextId w)) (randomCalls w) (trace w)).

(** [Math.random()] *)
Definition random `{Runtime} {T} : Method T float :=
  fun this w =>
    (Return (Math_random (randomCalls w)), this,
     mkWorld (heap w) (nextId w) (S (randomCalls w)) (trace w)).

(** A property write on an object of the store. *)
Definition update_object {T} (id : ObjId) (f : Object3D -> Object3D) : Method T unit :=
  set_world (set_heap (alter f id)).

(** [parent.add(child)]: the child is appended to the parent's children. *)
Definition Object3D_add {T} (parent child : ObjId) : Method T unit :=
  update_object parent (with_children (fun cs => cs ++ [child])).

(** [parent.remove(child)]: the child leaves the parent's children. *)
Definition remove_child (child : ObjId) (cs : list ObjId) : list ObjId :=
  match list_find (fun c => c = child) cs with
  | Some (i, _) => delete i cs
  | None => cs
  end.

Definition Object3D_remove {T} (parent child : ObjId) : Method T unit :=
  update_object parent (with_children (remove_child child)).

(** [forEach] over an array, with the index; a throw ends the loop. *)
Fixpoint forEach_from {T A} (i : nat) (f : A -> nat -> Method T unit) (l : list A)
  : Method T unit :=
  match l with
  | [] => ret tt
  | a :: l' => f a i ;; forEach_from (S i) f l'
  end.

Definition forEach {T A} (l : list A) (f : A -> nat -> Method T unit) : Method T unit :=
  forEach_from 0 f l.

(** [root.getObjectByName(name)]: the receiver if it has the name, else the
    first hit among its children, searched depth first.  The search goes as
    deep as the store has objects. *)
Fixpoint getObjectByName_at (depth : nat) (h : gmap ObjId Object3D) (nm : string)
  (id : ObjId) : option ObjId :=
  match depth with
  | O => None
  | S d =>
      match h !! id with
      | None => None
      | Some o =>
          if bool_decide (name o = nm) then Some id
          else
            (fix first (cs : list ObjId) : option ObjId :=
               match cs with
               | [] => None
               | c :: cs' =>
                   match getObjectByName_at d h nm c with
                   | Some r => Some r
                   | None => first cs'
                   end
               end) (children o)
      end
  end.

Definition getObjectByName (h : gmap ObjId Object3D) (root : ObjId) (nm : string)
  : option ObjId :=
  getObjectByName_at (S (size h)) h nm root.

(** ** Scene units *)

Inductive SceneClass := Scene1Class | Scene2Class.

Record SceneUnit := mkSceneUnit {
  unitClass : SceneClass;
  scene : option ObjId;
  objects : list ObjId;
  isInitialized : bool;
  animationMixers : list nat
}.

Definition set_scene (s : option ObjId) (u : SceneUnit) : SceneUnit :=
  mkSceneUnit (unitClass u) s (objects u) (isInitialized u) (animationMixers u).
Definition set_objects (l : list ObjId) (u : SceneUnit) : SceneUnit :=
  mkSceneUnit (unitClass u) (scene u) l (isInitialized u) (animationMixers u).
Definition set_isInitialized (b : bool) (u : SceneUnit) : SceneUnit :=
  mkSceneUnit (unitClass u) (scene u) (objects u) b (animationMixers u).
Definition set_animationMixers (l : list nat) (u : SceneUnit) : SceneUnit :=
  mkSceneUnit (unitClass u) (scene u) (objects u) (isInitialized u) l.

Definition set_scene_field (s : option ObjId) : Method SceneUnit unit :=
  set_this (set_scene s).

(** [array.findIndex(p)]; [None] stands for -1. *)
Fixpoint findIndex {A} (p : A -> bool) (l : list A) : option nat :=
  match l with
  | [] => None
  | a :: l' => if p a then Some 0 else S <$> findIndex p l'
  end.

(** [obj.userData.isLoadedModel], read through the store. *)
Definition is_loaded_model (h : gmap ObjId Object3D) (id : ObjId) : bool :=
  match h !! id with
  | Some o => isLoadedModel (userData o)
  | None => false
  end.

(** [obj.userData.isLoadedModel && obj.userData.modelType === modelType] *)
Definition is_loaded_model_of_type (h : gmap ObjId Object3D) (ty : string) (id : ObjId)
  : bool :=
  match h !! id with
  | Some o => isLoadedModel (userData o) && bool_decide (modelType (userData o) = Some ty)
  | None => false
  end.

(** [getModelCount()], the same in both classes:
    [this.objects.filter(obj => obj.userData.isLoadedModel).length] *)
Definition getModelCount (u : SceneUnit) (w : World) : nat :=
  length (List.filter (is_loaded_model (heap w)) (objects u)).

(** [obj.children], read through the store. *)
Definition children_of (h : gmap ObjId Object3D) (id : ObjId) : list ObjId :=
  match h !! id with
  | Some o => children o
  | None => []
  end.

(** [getScene()] *)
Definition getScene (u : SceneUnit) : option ObjId := scene u.

(** [this.scene.add(obj)]; a [TypeError] when [this.scene] is null. *)
Definition scene_add (id : ObjId) : Method SceneUnit unit :=
  this <- get_this ;;
  match scene this with
  | Some s => Object3D_add s id
  | None => throw (TypeError "Cannot read properties of null (reading 'add')")
  end.

(** [this.scene.remove(obj)] *)
Definition scene_remove (id : ObjId) : Method SceneUnit unit :=
  this <- get_this ;;
  match scene this with
  | Some s => Object3D_remove s id
  | None => throw (TypeError "Cannot read properties of null (reading 'remove')")
  end.

(** [this.objects.push(obj)] *)
Definition objects_push (id : ObjId) : Method SceneUnit unit :=
  set_this (fun u => set_objects (objects u ++ [id]) u).

(** [this.scene.getObjectByName(name)] *)
Definition scene_getObjectByName (nm : string) : Method SceneUnit (option ObjId) :=
  this <- get_this ;;
  w <- get_world ;;
  match scene this with
  | Some s => ret (getObjectByName (heap w) s nm)
  | None => throw (TypeError "Cannot read properties of null (reading 'getObjectByName')")
  end.

(** [if (model.geometry) model.geometry.dispose();
    if (model.material) model.material.dispose();] on a stored object *)
Definition dispose_object {T} (id : ObjId) : Method T unit :=
  update_object id dispose_resources.

Definition noUserData : UserData := mkUserData false None.

Definition new_Mesh {T} (nm : string) (g : Shape) (m : Material) (pos rot : Vector3)
  : Method T ObjId :=
  new_Object3D (mkObject3D nm pos rot noUserData []
                  (Some (mkGeometry g [] false false)) (Some m) None).

Definition new_Group {T} (nm : string) : Method T ObjId :=
  new_Object3D (mkObject3D nm origin origin noUserData [] None None None).

(** A material of colour [c], fully opaque, not emissive. *)
Definition plain_material (c : Z) : Material := mkMaterial (Hex c) 1 (Hex 0) false.

Module Scene1.

(** [constructor()] *)
Definition new : SceneUnit := mkSceneUnit Scene1Class None [] false [].

Definition setupBackground `{Runtime} : Method SceneUnit unit :=
  if canvas2d then log "Scene 1 background setup complete"
  else throw (TypeError "Cannot read properties of null (reading 'createLinearGradient')").

Definition createGround : Method SceneUnit unit :=
  ground <- new_Mesh "Ground" (PlaneGeometry 50 50) (plain_material 0x90EE90)
              origin (mkVector3 (- Math_PI / 2) 0 0) ;;
  scene_add ground ;;
  objects_push ground ;;
  log "Ground plane created".

Definition createSampleGeometry : Method SceneUnit unit :=
  cube <- new_Mesh "Cube" (BoxGeometry 2 2 2) (plain_material 0xff6b6b)
            (mkVector3 (-3) 1 0) origin ;;
  scene_add cube ;;
  objects_push cube ;;
  sphere <- new_Mesh "Sphere" (SphereGeometry 1.2 32 32) (plain_material 0x4ecdc4)
              (mkVector3 0 1.2 0) origin ;;
  scene_add sphere ;;
  objects_push sphere ;;
  cylinder <- new_Mesh "Cylinder" (CylinderGeometry 0.8 0.8 3 32)
                (plain_material 0xffe66d) (mkVector3 3 1.5 0) origin ;;
  scene_add cylinder ;;
  objects_push cylinder ;;
  torus <- new_Mesh "Torus" (TorusGeometry 1 0.4 16 100) (plain_material 0xf06292)
             (mkVector3 0 2 (-3)) origin ;;
  scene_add torus ;;
  objects_push torus ;;
  cone <- new_Mesh "Cone" (ConeGeometry 1 2.5 32) (plain_material 0x9c88ff)
            (mkVector3 (-3) 1.25 (-3)) origin ;;
  scene_add cone ;;
  objects_push cone ;;
  log "Sample geometry created".

Definition addAxesHelper : Method SceneUnit unit :=
  axesHelper <- new_Mesh "AxesHelper" (AxesGeometry 5) (plain_material 0xffffff)
                  origin origin ;;
  scene_add axesHelper ;;
  log "Axes helper added".

Definition addGridHelper : Method SceneUnit unit :=
  gridHelper <- new_Mesh "GridHelper" (GridGeometry 50 50) (plain_material 0x888888)
                  origin origin ;;
  scene_add gridHelper ;;
  log "Grid helper added".

Definition init `{Runtime} (cameraManager : option CameraManager)
  (lightsManager : option LightsManager) (modelLoader : option ModelLoader)
  : Method SceneUnit unit :=
  try_catch
    (log "Initializing Scene 1..." ;;
     s <- new_Object3D (mkObject3D "Scene1" origin origin noUserData [] None None None) ;;
     set_scene_field (Some s) ;;
     setupBackground ;;
     match lightsManager with
     | Some lights => set_world (emit (Lights_addToScene lights s))
     | None => ret tt
     end ;;
     createGround ;;
     createSampleGeometry ;;
     addAxesHelper ;;
     addGridHelper ;;
     log "Scene 1 initialized successfully" ;;
     set_this (set_isInitialized true))
    (log_and_rethrow "Failed to initialize Scene 1:").

Definition createStyledCube : Method SceneUnit ObjId :=
  new_Mesh "LoadedCube" (BoxGeometry 1.5 1.5 1.5)
    (mkMaterial (Hex 0xff4757) 0.9 (Hex 0) false) origin origin.

Definition createStyledSphere : Method SceneUnit ObjId :=
  new_Mesh "LoadedSphere" (SphereGeometry 1 32 32) (plain_material 0x5352ed)
    origin origin.

(** The body of [if (model) { ... }] in [loadModel]. *)
Definition placeModel (model : ObjId) (ty : string) : Method SceneUnit unit :=
  this <- get_this ;;
  w <- get_world ;;
  let existingObjects := List.filter (is_loaded_model (heap w)) (objects this) in
  let xOffset := (number_of_nat (length existingObjects) * 3)%float in
  update_object model (with_position (fun _ => mkVector3 xOffset 0 3)) ;;
  update_object model (with_userData (mkUserData true (Some ty))) ;;
  scene_add model ;;
  objects_push model ;;
  log ("Model '" +:+ ty +:+ "' loaded successfully").

Definition loadModel (modelLoader : option ModelLoader) (ty : string)
  : Method SceneUnit unit :=
  try_catch
    (log ("Loading model '" +:+ ty +:+ "' into Scene 1...") ;;
     if bool_decide (ty = "cube") then
       model <- createStyledCube ;; placeModel model ty
     else if bool_decide (ty = "sphere") then
       model <- createStyledSphere ;; placeModel model ty
     else warn ("Unknown model type: " +:+ ty))
    (log_and_rethrow ("Failed to load model '" +:+ ty +:+ "':")).

(** [Date.now()] is [now]. *)
Definition animateObjects `{Runtime} (deltaTime now : float) : Method SceneUnit unit :=
  let time := (now * 0.001)%float in
  cube <- scene_getObjectByName "Cube" ;;
  match cube with
  | Some cube =>
      update_object cube (with_rotation (fun r => set_x (vx r + 0.01)%float r)) ;;
      update_object cube (with_rotation (fun r => set_y (vy r + 0.01)%float r))
  | None => ret tt
  end ;;
  sphere <- scene_getObjectByName "Sphere" ;;
  match sphere with
  | Some sphere =>
      update_object sphere
        (with_position (set_y (1.2 + Math_sin (time * 2) * 0.3)%float))
  | None => ret tt
  end ;;
  torus <- scene_getObjectByName "Torus" ;;
  match torus with
  | Some torus =>
      update_object torus (with_rotation (fun r => set_x (vx r + 0.02)%float r)) ;;
      update_object torus (with_rotation (fun r => set_y (vy r + 0.01)%float r))
  | None => ret tt
  end ;;
  cylinder <- scene_getObjectByName "Cylinder" ;;
  match cylinder with
  | Some cylinder =>
      update_object cylinder (with_rotation (fun r => set_y (vy r + 0.015)%float r))
  | None => ret tt
  end ;;
  cone <- scene_getObjectByName "Cone" ;;
  match cone with
  | Some cone =>
      update_object cone (with_rotation (set_z (Math_sin time * 0.1)%float))
  | None => ret tt
  end.

Definition update `{Runtime} (deltaTime now : float) : Method SceneUnit unit :=
  this <- get_this ;;
  if negb (isInitialized this) then ret tt
  else animateObjects deltaTime now.

Definition removeModel (ty : string) : Method SceneUnit unit :=
  this <- get_this ;;
  w <- get_world ;;
  match findIndex (is_loaded_model_of_type (heap w) ty) (objects this) with
  | Some modelIndex =>
      match objects this !! modelIndex with
      | Some model =>
          scene_remove model ;;
          set_this (fun u => set_objects (delete modelIndex (objects u)) u) ;;
          dispose_object model ;;
          log ("Model '" +:+ ty +:+ "' removed from Scene 1")
      | None => ret tt
      end
  | None => ret tt
  end.

Definition clearModels : Method SceneUnit unit :=
  this <- get_this ;;
  w <- get_world ;;
  let loadedModels := List.filter (is_loaded_model (heap w)) (objects this) in
  forEach loadedModels (fun model _ => scene_remove model ;; dispose_object model) ;;
  this <- get_this ;;
  w <- get_world ;;
  set_this (set_objects
              (List.filter (fun id => negb (is_loaded_model (heap w) id)) (objects this))) ;;
  log "All loaded models cleared from Scene 1".

Definition dispose : Method SceneUnit unit :=
  this <- get_this ;;
  match scene this with
  | Some _ =>
      forEach (objects this) (fun obj _ => dispose_object obj) ;;
      set_this (set_objects []) ;;
      log "Scene 1 disposed" ;;
      set_scene_field None ;;
      set_this (set_isInitialized false)
  | None => ret tt
  end.

End Scene1.

(** [for (let i = 0; i < n; i++) body(i)] *)
Definition for_range {T} (n : nat) (body : nat -> Method T unit) : Method T unit :=
  forEach (seq 0 n) (fun i _ => body i).

(** [array.map((value, index) => f(value, index))] *)
Fixpoint mapi_from {A B} (i : nat) (f : A -> nat -> B) (l : list A) : list B :=
  match l with
  | [] => []
  | a :: l' => f a i :: mapi_from (S i) f l'
  end.

Module Scene2.

(** [constructor()] *)
Definition new : SceneUnit := mkSceneUnit Scene2Class None [] false [].

Definition setupBackground : Method SceneUnit unit :=
  log "Scene 2 background setup complete".

(** The second wall of a pair is a [clone()] of the first, moved and
    renamed; each wall carries its own record of the geometry and material. *)
Definition createWalls : Method SceneUnit unit :=
  let wallHeight := 8%float in
  let wallThickness := 0.5%float in
  let roomSize := 30%float in
  let wallMaterial := plain_material 0x444444 in
  frontWall <- new_Mesh "FrontWall" (BoxGeometry roomSize wallHeight wallThickness)
                 wallMaterial (mkVector3 0 (wallHeight / 2) (- roomSize / 2)) origin ;;
  scene_add frontWall ;;
  objects_push frontWall ;;
  backWall <- new_Mesh "BackWall" (BoxGeometry roomSize wallHeight wallThickness)
                wallMaterial (mkVector3 0 (wallHeight / 2) (roomSize / 2)) origin ;;
  scene_add backWall ;;
  objects_push backWall ;;
  leftWall <- new_Mesh "LeftWall" (BoxGeometry wallThickness wallHeight roomSize)
                wallMaterial (mkVector3 (- roomSize / 2) (wallHeight / 2) 0) origin ;;
  scene_add leftWall ;;
  objects_push leftWall ;;
  rightWall <- new_Mesh "RightWall" (BoxGeometry wallThickness wallHeight roomSize)
                 wallMaterial (mkVector3 (roomSize / 2) (wallHeight / 2) 0) origin ;;
  scene_add rightWall ;;
  objects_push rightWall.

Definition createEnvironment : Method SceneUnit unit :=
  floor <- new_Mesh "Floor" (PlaneGeometry 60 60) (plain_material 0x333333)
             origin (mkVector3 (- Math_PI / 2) 0 0) ;;
  scene_add floor ;;
  objects_push floor ;;
  createWalls ;;
  log "Environment created".

Definition createCrystalFormation `{Runtime} : Method SceneUnit unit :=
  crystalGroup <- new_Group "CrystalFormation" ;;
  for_range 5 (fun i =>
    r1 <- random ;;
    let height := (2 + r1 * 3)%float in
    r2 <- random ;;
    let crystalMaterial :=
      mkMaterial (HSL (0.6 + r2 * 0.2) 0.8 0.6) 0.8 (Hex 0) false in
    r3 <- random ;;
    r4 <- random ;;
    r5 <- random ;;
    crystal <- new_Mesh "" (ConeGeometry 0.5 height 6) crystalMaterial
                 (mkVector3 ((r3 - 0.5) * 4) (height / 2) (-8 + (r4 - 0.5) * 4))
                 (mkVector3 0 (r5 * Math_PI * 2) 0) ;;
    Object3D_add crystalGroup crystal) ;;
  scene_add crystalGroup ;;
  objects_push crystalGroup.

Definition createFloatingPlatforms : Method SceneUnit unit :=
  platformGroup <- new_Group "FloatingPlatforms" ;;
  for_range 3 (fun i =>
    platform <- new_Mesh "" (CylinderGeometry 2 2 0.3 8) (plain_material 0x666666)
                  (mkVector3 (8 + number_of_nat i * 3) (2 + number_of_nat i * 1.5) 0)
                  origin ;;
    Object3D_add platformGroup platform) ;;
  scene_add platformGroup ;;
  objects_push platformGroup.

Definition createSpiralStructure `{Runtime} : Method SceneUnit unit :=
  spiralGroup <- new_Group "SpiralStructure" ;;
  let segmentCount := 20 in
  let radius := 3%float in
  let height := 8%float in
  for_range segmentCount (fun i =>
    let angle := (number_of_nat i / number_of_nat segmentCount * Math_PI * 4)%float in
    let y := (number_of_nat i / number_of_nat segmentCount * height)%float in
    let hue := (number_of_nat i / number_of_nat segmentCount)%float in
    let segmentMaterial := mkMaterial (HSL hue 1 0.5) 1 (HSL hue 1 0.1) false in
    let pos := mkVector3 (Math_cos angle * radius) y (Math_sin angle * radius + 8) in
    segment <- new_Mesh "" (BoxGeometry 0.3 0.3 1) segmentMaterial pos
                 (lookAt_rotation pos (mkVector3 0 y 8)) ;;
    Object3D_add spiralGroup segment) ;;
  scene_add spiralGroup ;;
  objects_push spiralGroup.

Definition createGlowingOrbs `{Runtime} : Method SceneUnit unit :=
  orbGroup <- new_Group "GlowingOrbs" ;;
  for_range 6 (fun i =>
    r1 <- random ;;
    let orbMaterial := mkMaterial (Hex 0xffffff) 0.9 (HSL r1 1 0.3) false in
    r2 <- random ;;
    r3 <- random ;;
    r4 <- random ;;
    orb <- new_Mesh "" (SphereGeometry 0.3 16 16) orbMaterial
             (mkVector3 ((r2 - 0.5) * 20) (1 + r3 * 4) ((r4 - 0.5) * 20)) origin ;;
    pointLight <- new_Object3D (mkObject3D "" origin origin noUserData [] None None
                                  (Some (mkLight (emissive orbMaterial) 0.5))) ;;
    Object3D_add orb pointLight ;;
    Object3D_add orbGroup orb) ;;
  scene_add orbGroup ;;
  objects_push orbGroup.

Definition createAdvancedGeometry `{Runtime} : Method SceneUnit unit :=
  createCrystalFormation ;;
  createFloatingPlatforms ;;
  createSpiralStructure ;;
  createGlowingOrbs ;;
  log "Advanced geometry created".

(** The entries of [positions = new Float32Array(particleCount * 3)] once
    the loop has stored three draws per particle. *)
Fixpoint particlePositions `{Runtime} (particleCount : nat) (draw : nat) : list float :=
  match particleCount with
  | O => []
  | S n =>
      Math_fround ((Math_random draw - 0.5) * 50)
        :: Math_fround (Math_random (S draw) * 20)
        :: Math_fround ((Math_random (S (S draw)) - 0.5) * 50)
        :: particlePositions n (S (S (S draw)))
  end.

Definition createParticleSystem `{Runtime} : Method SceneUnit unit :=
  let particleCount := 100 in
  w <- get_world ;;
  let positions := particlePositions particleCount (randomCalls w) in
  set_world (fun w => mkWorld (heap w) (nextId w)
                        (randomCalls w + particleCount * 3) (trace w)) ;;
  particles <- new_Object3D
                 (mkObject3D "Particles" origin origin noUserData []
                    (Some (mkGeometry BufferGeometry positions false false))
                    (Some (mkMaterial (Hex 0xffffff) 0.6 (Hex 0) false)) None) ;;
  scene_add particles ;;
  objects_push particles ;;
  log "Particle system created".

Definition addAxesHelper : Method SceneUnit unit :=
  axesHelper <- new_Mesh "AxesHelper" (AxesGeometry 3) (plain_material 0xffffff)
                  origin origin ;;
  scene_add axesHelper ;;
  log "Axes helper added".

Definition init `{Runtime} (cameraManager : option CameraManager)
  (lightsManager : option LightsManager) (modelLoader : option ModelLoader)
  : Method SceneUnit unit :=
  try_catch
    (log "Initializing Scene 2..." ;;
     s <- new_Object3D (mkObject3D "Scene2" origin origin noUserData [] None None None) ;;
     set_scene_field (Some s) ;;
     setupBackground ;;
     match lightsManager with
     | Some lights =>
         set_world (emit (Lights_addToScene lights s)) ;;
         set_world (emit (Lights_applyPreset lights "night"))
     | None => ret tt
     end ;;
     createEnvironment ;;
     createAdvancedGeometry ;;
     createParticleSystem ;;
     addAxesHelper ;;
     log "Scene 2 initialized successfully" ;;
     set_this (set_isInitialized true))
    (log_and_rethrow "Failed to initialize Scene 2:").

Definition createAdvancedCube : Method SceneUnit ObjId :=
  new_Mesh "LoadedAdvancedCube" (BoxGeometry 2 2 2)
    (mkMaterial (Hex 0xff3838) 0.9 (Hex 0x330000) false) origin origin.

Definition createAdvancedSphere : Method SceneUnit ObjId :=
  new_Mesh "LoadedAdvancedSphere" (SphereGeometry 1.2 32 32)
    (mkMaterial (Hex 0x3838ff) 0.8 (Hex 0x000033) false) origin origin.

(** The body of [if (model) { ... }] in [loadModel]. *)
Definition placeModel (model : ObjId) (ty : string) : Method SceneUnit unit :=
  this <- get_this ;;
  w <- get_world ;;
  let existingObjects := List.filter (is_loaded_model (heap w)) (objects this) in
  let xOffset := (number_of_nat (length existingObjects) * 4)%float in
  update_object model (with_position (fun _ => mkVector3 (xOffset - 10) 2 (-5))) ;;
  update_object model (with_userData (mkUserData true (Some ty))) ;;
  scene_add model ;;
  objects_push model ;;
  log ("Model '" +:+ ty +:+ "' loaded successfully").

Definition loadModel (modelLoader : option ModelLoader) (ty : string)
  : Method SceneUnit unit :=
  try_catch
    (log ("Loading model '" +:+ ty +:+ "' into Scene 2...") ;;
     if bool_decide (ty = "cube") then
       model <- createAdvancedCube ;; placeModel model ty
     else if bool_decide (ty = "sphere") then
       model <- createAdvancedSphere ;; placeModel model ty
     else warn ("Unknown model type: " +:+ ty))
    (log_and_rethrow ("Failed to load model '" +:+ ty +:+ "':")).

Definition animatePlatform `{Runtime} (time : float) (platform : ObjId) (index : nat)
  : Method SceneUnit unit :=
  update_object platform
    (with_position
       (set_y (2 + number_of_nat index * 1.5 + Math_sin (time + number_of_nat index) * 0.5)%float)) ;;
  update_object platform (with_rotation (fun r => set_y (vy r + 0.01)%float r)).

Definition animateOrb `{Runtime} (time : float) (orb : ObjId) (index : nat)
  : Method SceneUnit unit :=
  update_object orb
    (with_position
       (fun p => set_y (vy p + Math_sin (time * 2 + number_of_nat index) * 0.01)%float p)) ;;
  update_object orb (with_rotation (fun r => set_y (vy r + 0.02)%float r)) ;;
  let intensity := (0.3 + Math_sin (time * 3 + number_of_nat index) * 0.2)%float in
  let hsl := HSL (number_rem (time * 0.1 + number_of_nat index * 0.1) 1) 1 intensity in
  w <- get_world ;;
  match heap w !! orb ≫= material with
  | None => throw (TypeError "Cannot read properties of undefined (reading 'emissive')")
  | Some _ =>
      update_object orb
        (with_material (fun m => mkMaterial (color m) (opacity m) hsl (materialDisposed m))) ;;
      match children_of (heap w) orb with
      | [] => ret tt
      | pointLight :: _ =>
          match heap w !! pointLight ≫= light with
          | None => throw (TypeError "Cannot read properties of undefined (reading 'copy')")
          | Some _ => update_object pointLight (with_light (fun _ => mkLight hsl intensity))
          end
      end
  end.

Definition animateCrystal `{Runtime} (time : float) (crystal : ObjId) (index : nat)
  : Method SceneUnit unit :=
  update_object crystal (with_rotation (fun r => set_y (vy r + 0.01)%float r)) ;;
  w <- get_world ;;
  match heap w !! crystal ≫= material with
  | None => throw (TypeError "Cannot set properties of undefined (setting 'opacity')")
  | Some _ =>
      update_object crystal
        (with_material
           (fun m => mkMaterial (color m)
                       (0.8 + Math_sin (time * 2 + number_of_nat index) * 0.2)%float
                       (emissive m) (materialDisposed m)))
  end.

(** [Date.now()] is [now]. *)
Definition animateObjects `{Runtime} (deltaTime now : float) : Method SceneUnit unit :=
  let time := (now * 0.001)%float in
  spiral <- scene_getObjectByName "SpiralStructure" ;;
  match spiral with
  | Some spiral =>
      update_object spiral (with_rotation (fun r => set_y (vy r + 0.005)%float r))
  | None => ret tt
  end ;;
  platforms <- scene_getObjectByName "FloatingPlatforms" ;;
  match platforms with
  | Some platforms =>
      w <- get_world ;; forEach (children_of (heap w) platforms) (animatePlatform time)
  | None => ret tt
  end ;;
  orbs <- scene_getObjectByName "GlowingOrbs" ;;
  match orbs with
  | Some orbs => w <- get_world ;; forEach (children_of (heap w) orbs) (animateOrb time)
  | None => ret tt
  end ;;
  crystals <- scene_getObjectByName "CrystalFormation" ;;
  match crystals with
  | Some crystals =>
      w <- get_world ;; forEach (children_of (heap w) crystals) (animateCrystal time)
  | None => ret tt
  end.

(** One pass of the loop [for (let i = 1; i < positions.length; i += 3)]
    over the [Float32Array]: [positions[i] += 0.01] stores the rounded sum,
    which [positions[i] > 20] then reads. *)
Definition liftParticles (positions : list float) : list float :=
  mapi_from 0
    (fun p i =>
       if Nat.eqb (i mod 3) 1 then
         let p' := Math_fround (p + 0.01) in
         if PrimFloat.ltb 20 p' then 0%float else p'
       else p)
    positions.

Definition updateParticles (deltaTime : float) : Method SceneUnit unit :=
  particles <- scene_getObjectByName "Particles" ;;
  match particles with
  | Some particles =>
      update_object particles (with_rotation (fun r => set_y (vy r + 0.001)%float r)) ;;
      w <- get_world ;;
      match heap w !! particles ≫= geometry with
      | None => throw (TypeError "Cannot read properties of undefined (reading 'attributes')")
      | Some _ =>
          update_object particles
            (with_geometry
               (fun g => mkGeometry (shape g) (liftParticles (positionArray g)) true
                           (geometryDisposed g)))
      end
  | None => ret tt
  end.

Definition update `{Runtime} (deltaTime now : float) : Method SceneUnit unit :=
  this <- get_this ;;
  if negb (isInitialized this) then ret tt
  else (animateObjects deltaTime now ;; updateParticles deltaTime).

Definition removeModel (ty : string) : Method SceneUnit unit :=
  this <- get_this ;;
  w <- get_world ;;
  match findIndex (is_loaded_model_of_type (heap w) ty) (objects this) with
  | Some modelIndex =>
      match objects this !! modelIndex with
      | Some model =>
          scene_remove model ;;
          set_this (fun u => set_objects (delete modelIndex (objects u)) u) ;;
          dispose_object model ;;
          log ("Model '" +:+ ty +:+ "' removed from Scene 2")
      | None => ret tt
      end
  | None => ret tt
  end.

Definition clearModels : Method SceneUnit unit :=
  this <- get_this ;;
  w <- get_world ;;
  let loadedModels := List.filter (is_loaded_model (heap w)) (objects this) in
  forEach loadedModels (fun model _ => scene_remove model ;; dispose_object model) ;;
  this <- get_this ;;
  w <- get_world ;;
  set_this (set_objects
              (List.filter (fun id => negb (is_loaded_model (heap w) id)) (objects this))) ;;
  log "All loaded models cleared from Scene 2".

Definition dispose : Method SceneUnit unit :=
  this <- get_this ;;
  match scene this with
  | Some _ =>
      forEach (objects this) (fun obj _ => dispose_object obj) ;;
      set_this (set_objects []) ;;
      set_this (set_animationMixers []) ;;
      log "Scene 2 disposed" ;;
      set_scene_field None ;;
      set_this (set_isInitialized false)
  | None => ret tt
  end.

End Scene2.

(** ** Calls on a unit, dispatched on its class *)

Definition dispatch {A} (m1 m2 : Method SceneUnit A) : Method SceneUnit A :=
  fun this w =>
    match unitClass this with
    | Scene1Class => m1 this w
    | Scene2Class => m2 this w
    end.

Definition unit_init `{Runtime} (cameraManager : option CameraManager)
  (lightsManager : option LightsManager) (modelLoader : option ModelLoader)
  : Method SceneUnit unit :=
  dispatch (Scene1.init cameraManager lightsManager modelLoader)
           (Scene2.init cameraManager lightsManager modelLoader).
Definition unit_loadModel (modelLoader : option ModelLoader) (ty : string)
  : Method SceneUnit unit :=
  dispatch (Scene1.loadModel modelLoader ty) (Scene2.loadModel modelLoader ty).
Definition unit_removeModel (ty : string) : Method SceneUnit unit :=
  dispatch (Scene1.removeModel ty) (Scene2.removeModel ty).
Definition unit_clearModels : Method SceneUnit unit :=
  dispatch Scene1.clearModels Scene2.clearModels.
Definition unit_update `{Runtime} (deltaTime now : float) : Method SceneUnit unit :=
  dispatch (Scene1.update deltaTime now) (Scene2.update deltaTime now).
Definition unit_dispose : Method SceneUnit unit :=
  dispatch Scene1.dispose Scene2.dispose.


(** ** A plain object used as a map from names to units *)

(** Scene units are objects: the manager, and whoever created a unit, hold
    them by identity. *)
Definition UnitId := nat.

(** What a property read yields, as far as the manager tells values
    apart. *)
Inductive Value :=
| VUnit (unit : UnitId)
| VObject
| VTrue
| VFalse
| VNull
| VUndefined.

#[global] Instance Value_eq_dec : EqDecision Value.
Proof. solve_decision. Defined.

(** [!value] is false *)
Definition truthy (v : Value) : bool :=
  match v with
  | VUnit _ | VObject | VTrue => true
  | VFalse | VNull | VUndefined => false
  end.

(** The object [{}] and what became of it: its own properties, in the order
    of their creation, and its prototype, which is [Object.prototype] unless
    a unit was assigned to [__proto__]. *)
Record PlainObject := mkPlainObject {
  own : list (string * UnitId);
  proto : option UnitId
}.

Definition emptyObject : PlainObject := mkPlainObject [] None.

Fixpoint own_get (name : string) (props : list (string * UnitId)) : option UnitId :=
  match props with
  | [] => None
  | (k, v) :: props' => if bool_decide (k = name) then Some v else own_get name props'
  end.

Fixpoint own_put (name : string) (v : UnitId) (props : list (string * UnitId))
  : list (string * UnitId) :=
  match props with
  | [] => [(name, v)]
  | (k, v') :: props' =>
      if bool_decide (k = name) then (k, v) :: props' else (k, v') :: own_put name v props'
  end.

Definition own_remove (name : string) (props : list (string * UnitId))
  : list (string * UnitId) :=
  List.filter (fun kv => negb (bool_decide (kv.1 = name))) props.

(** The properties of [Object.prototype]. *)
Definition Object_prototype_names : list string :=
  ["constructor"; "__defineGetter__"; "__defineSetter__"; "hasOwnProperty";
   "__lookupGetter__"; "__lookupSetter__"; "isPrototypeOf"; "propertyIsEnumerable";
   "toString"; "valueOf"; "__proto__"; "toLocaleString"].

(** The methods of the two scene classes. *)
Definition class_methods (c : SceneClass) : list string :=
  match c with
  | Scene1Class =>
      ["constructor"; "init"; "setupBackground"; "createGround"; "createSampleGeometry";
       "addAxesHelper"; "addGridHelper"; "loadModel"; "createStyledCube";
       "createStyledSphere"; "update"; "animateObjects"; "getScene"; "getModelCount";
       "removeModel"; "clearModels"; "dispose"]
  | Scene2Class =>
      ["constructor"; "init"; "setupBackground"; "createEnvironment"; "createWalls";
       "createAdvancedGeometry"; "createCrystalFormation"; "createFloatingPlatforms";
       "createSpiralStructure"; "createGlowingOrbs"; "createParticleSystem";
       "addAxesHelper"; "loadModel"; "createAdvancedCube"; "createAdvancedSphere";
       "update"; "animateObjects"; "updateParticles"; "getScene"; "getModelCount";
       "removeModel"; "clearModels"; "dispose"]
  end.

(** [unit[name]] for a property of the unit itself or of its class; [None]
    when the unit and its class have no such property. *)
Definition unit_property (u : SceneUnit) (name : string) : option Value :=
  if bool_decide (name = "scene") then
    Some (match scene u with Some _ => VObject | None => VNull end)
  else if bool_decide (name = "objects") then Some VObject
  else if bool_decide (name = "isInitialized") then
    Some (if isInitialized u then VTrue else VFalse)
  else if bool_decide (name = "animationMixers") then
    match unitClass u with
    | Scene2Class => Some VObject
    | Scene1Class => None
    end
  else if bool_decide (name ∈ class_methods (unitClass u)) then Some VObject
  else None.

(** The unit that is the prototype of the object, if one is. *)
Definition prototype_unit (units : gmap UnitId SceneUnit) (o : PlainObject)
  : option (UnitId * SceneUnit) :=
  match proto o with
  | Some r => (fun u => (r, u)) <$> units !! r
  | None => None
  end.

(** [object[name]]: an own property, else what the prototype chain has
    under the name.  An identity that names no unit stands for
    [undefined]. *)
Definition get_property (units : gmap UnitId SceneUnit) (o : PlainObject) (name : string)
  : Value :=
  match own_get name (own o) with
  | Some r => match units !! r with Some _ => VUnit r | None => VUndefined end
  | None =>
      if bool_decide (name = "__proto__") then
        match prototype_unit units o with
        | Some (r, _) => VUnit r
        | None => VObject
        end
      else
        match prototype_unit units o ≫= fun ru => unit_property ru.2 name with
        | Some v => v
        | None => if bool_decide (name ∈ Object_prototype_names) then VObject else VUndefined
        end
  end.

(** [object[name] = unit]: the own property is created (last) or
    overwritten (in place); the name [__proto__], unless it is an own
    property, goes to the setter of [Object.prototype], which makes the unit
    the prototype and ignores [undefined]. *)
Definition put_property (units : gmap UnitId SceneUnit) (name : string) (r : UnitId)
  (o : PlainObject) : PlainObject :=
  match own_get name (own o) with
  | None =>
      if bool_decide (name = "__proto__") then
        match units !! r with
        | Some _ => mkPlainObject (own o) (Some r)
        | None => o
        end
      else mkPlainObject (own_put name r (own o)) (proto o)
  | Some _ => mkPlainObject (own_put name r (own o)) (proto o)
  end.

(** [delete object[name]]: an own property goes, nothing else does. *)
Definition delete_property (name : string) (o : PlainObject) : PlainObject :=
  mkPlainObject (own_remove name (own o)) (proto o).

(** [object.hasOwnProperty(name)], once [hasOwnProperty] is resolved. *)
Definition hasOwnProperty (o : PlainObject) (name : string) : bool :=
  bool_decide (is_Some (own_get name (own o))).

(** A canonical array index: [0], or digits without a leading zero, below
    [2^32 - 1]. *)
Definition digit (a : Ascii.ascii) : option N :=
  let n := Ascii.N_of_ascii a in
  if bool_decide (48 <= n <= 57)%N then Some (n - 48)%N else None.

Fixpoint digits (s : string) (acc : N) : option N :=
  match s with
  | EmptyString => Some acc
  | String a s' =>
      match digit a with
      | Some d => digits s' (acc * 10 + d)%N
      | None => None
      end
  end.

Definition array_index (s : string) : option N :=
  match s with
  | EmptyString => None
  | String a s' =>
      if bool_decide (digit a = Some 0%N) then
        match s' with EmptyString => Some 0%N | _ => None end
      else
        match digits s 0 with
        | Some n => if bool_decide (n < 4294967295)%N then Some n else None
        | None => None
        end
  end.

Definition index_le (a b : N * string) : Prop := (a.1 <= b.1)%N.

#[global] Instance index_le_dec : RelDecision index_le :=
  fun a b => decide (a.1 <= b.1)%N.

(** [Object.keys(object)]: the own names that are array indices, in
    ascending order, then the other own names in the order of their
    creation. *)
Definition Object_keys (o : PlainObject) : list string :=
  let names := (own o).*1 in
  let indexed := omap (fun k => (fun i => (i, k)) <$> array_index k) names in
  (merge_sort index_le indexed).*2 ++
  List.filter (fun k => match array_index k with Some _ => false | None => true end) names.

(** ** The scene manager *)

Module SceneManager.

(** The manager and the scene units of the program.  [this.scenes] maps
    names to unit identities; [units] has the state of every unit created so
    far, whether or not the registry still names it, and [nextUnit] is the
    identity of the next one. *)
Record t := mk {
  scenes : PlainObject;
  currentSceneName : option string;
  isInitialized : bool;
  cameraManager : option CameraManager;
  lightsManager : option LightsManager;
  modelLoader : option ModelLoader;
  units : gmap UnitId SceneUnit;
  nextUnit : nat
}.

(** [constructor()], in a program without units. *)
Definition new : t := mk emptyObject None false None None None ∅ 0.

Definition set_scenes (f : PlainObject -> PlainObject) (m : t) : t :=
  mk (f (scenes m)) (currentSceneName m) (isInitialized m)
     (cameraManager m) (lightsManager m) (modelLoader m) (units m) (nextUnit m).
Definition set_currentSceneName (n : option string) (m : t) : t :=
  mk (scenes m) n (isInitialized m) (cameraManager m) (lightsManager m) (modelLoader m)
     (units m) (nextUnit m).
Definition set_isInitialized (b : bool) (m : t) : t :=
  mk (scenes m) (currentSceneName m) b (cameraManager m) (lightsManager m) (modelLoader m)
     (units m) (nextUnit m).
Definition set_managers (c : option CameraManager) (l : option LightsManager)
  (ml : option ModelLoader) (m : t) : t :=
  mk (scenes m) (currentSceneName m) (isInitialized m) c l ml (units m) (nextUnit m).
Definition set_units (f : gmap UnitId SceneUnit -> gmap UnitId SceneUnit) (m : t) : t :=
  mk (scenes m) (currentSceneName m) (isInitialized m)
     (cameraManager m) (lightsManager m) (modelLoader m) (f (units m)) (nextUnit m).

(** [new Scene1()], [new Scene2()]: the unit gets the next identity. *)
Definition new_unit (u : SceneUnit) : Method t UnitId :=
  fun this w =>
    (Return (nextUnit this),
     mk (scenes this) (currentSceneName this) (isInitialized this)
        (cameraManager this) (lightsManager this) (modelLoader this)
        (<[nextUnit this := u]> (units this)) (S (nextUnit this)),
     w).

(** [unit.method(...)]: the unit object is the receiver; what the method
    does to it is seen under every name that holds the unit. *)
Definition call {A} (method : string) (r : UnitId) (m : Method SceneUnit A) : Method t A :=
  fun this w =>
    match units this !! r with
    | Some u =>
        let '(c, u', w') := m u w in
        (c, set_units (insert r u') this, w')
    | None =>
        (Throw (TypeError ("Cannot read properties of undefined (reading '"
                           +:+ method +:+ "')")), this, w)
    end.

(** [this.scenes[name]] *)
Definition scene_named (this : t) (name : string) : Value :=
  get_property (units this) (scenes this) name.

(** [this.scenes[name].method(...)], where [callee] is the text of the
    callee expression. *)
Definition invoke {A} (name callee method : string) (m : Method SceneUnit A)
  : Method t A :=
  this <- get_this ;;
  match scene_named this name with
  | VUnit r => call method r m
  | VObject | VTrue | VFalse => throw (TypeError (callee +:+ " is not a function"))
  | VNull =>
      throw (TypeError ("Cannot read properties of null (reading '" +:+ method +:+ "')"))
  | VUndefined =>
      throw (TypeError ("Cannot read properties of undefined (reading '"
                        +:+ method +:+ "')"))
  end.

(** What [!this.currentSceneName || !this.scenes[this.currentSceneName]]
    lets through: the current name and what the registry has under it.
    [null] and the empty string are both falsy. *)
Definition activeScene (this : t) : option (string * Value) :=
  match currentSceneName this with
  | Some n =>
      if bool_decide (n = "") then None
      else if truthy (scene_named this n) then Some (n, scene_named this n)
      else None
  | None => None
  end.

Definition getCurrentScene : Method t (option ObjId) :=
  this <- get_this ;;
  match activeScene this with
  | None => ret None
  | Some (current, _) =>
      invoke current "this.scenes[this.currentSceneName].getScene" "getScene"
        (fun u w => (Return (getScene u), u, w))
  end.

Definition getCurrentSceneName (this : t) : option string := currentSceneName this.

Definition getCurrentSceneModelCount : Method t nat :=
  this <- get_this ;;
  match activeScene this with
  | None => ret 0
  | Some (current, _) =>
      invoke current "this.scenes[this.currentSceneName].getModelCount" "getModelCount"
        (fun u w => (Return (getModelCount u w), u, w))
  end.

Definition applyCameraSettings (sceneName : string) : Method t unit :=
  this <- get_this ;;
  match cameraManager this with
  | None => ret tt
  | Some camera =>
      if bool_decide (sceneName = "scene1") then
        set_world (emit (Camera_setPosition camera 0 5 10)) ;;
        set_world (emit (Camera_setTarget camera 0 0 0))
      else if bool_decide (sceneName = "scene2") then
        set_world (emit (Camera_setPosition camera 5 8 15)) ;;
        set_world (emit (Camera_setTarget camera 0 2 0))
      else log ("No specific camera settings for scene '" +:+ sceneName +:+ "'")
  end.

Definition applyLightingSettings (sceneName : string) : Method t unit :=
  this <- get_this ;;
  match lightsManager this with
  | None => ret tt
  | Some lights =>
      if bool_decide (sceneName = "scene1") then
        set_world (emit (Lights_applyPreset lights "daylight"))
      else if bool_decide (sceneName = "scene2") then
        set_world (emit (Lights_applyPreset lights "night"))
      else log ("No specific lighting settings for scene '" +:+ sceneName +:+ "'")
  end.

Definition performSceneTransition (newSceneName : string) : Method t unit :=
  currentScene <- getCurrentScene ;;
  newScene <- invoke newSceneName "this.scenes[newSceneName].getScene" "getScene"
                (fun u w => (Return (getScene u), u, w)) ;;
  match newScene with
  | None => throw (Error ("Scene '" +:+ newSceneName +:+ "' not properly initialized"))
  | Some _ =>
      applyCameraSettings newSceneName ;;
      applyLightingSettings newSceneName ;;
      log ("Scene transition to '" +:+ newSceneName +:+ "' completed")
  end.

Definition switchScene (sceneName : string) : Method t unit :=
  try_catch
    (this <- get_this ;;
     if negb (truthy (scene_named this sceneName)) then
       throw (Error ("Scene '" +:+ sceneName +:+ "' not found"))
     else if bool_decide (currentSceneName this = Some sceneName) then
       log ("Already in scene '" +:+ sceneName +:+ "'")
     else
       log ("Switching to scene '" +:+ sceneName +:+ "'...") ;;
       performSceneTransition sceneName ;;
       set_this (set_currentSceneName (Some sceneName)) ;;
       log ("Successfully switched to scene '" +:+ sceneName +:+ "'"))
    (log_and_rethrow ("Failed to switch to scene '" +:+ sceneName +:+ "':")).

(** [this.scenes[name] = unit] *)
Definition register (name : string) (r : UnitId) : Method t unit :=
  set_this (fun this => set_scenes (put_property (units this) name r) this).

Definition initializeScenes `{Runtime} : Method t unit :=
  try_catch
    (log "Initializing Scene 1..." ;;
     scene1 <- new_unit Scene1.new ;;
     register "scene1" scene1 ;;
     this <- get_this ;;
     invoke "scene1" "this.scenes.scene1.init" "init"
       (unit_init (cameraManager this) (lightsManager this) (modelLoader this)) ;;
     log "Initializing Scene 2..." ;;
     scene2 <- new_unit Scene2.new ;;
     register "scene2" scene2 ;;
     this <- get_this ;;
     invoke "scene2" "this.scenes.scene2.init" "init"
       (unit_init (cameraManager this) (lightsManager this) (modelLoader this)) ;;
     log "All scenes initialized")
    (log_and_rethrow "Failed to initialize scenes:").

Definition init `{Runtime} (camera : option CameraManager)
  (lights : option LightsManager) (loader : option ModelLoader) : Method t unit :=
  try_catch
    (log "Initializing Scene Manager..." ;;
     set_this (set_managers camera lights loader) ;;
     initializeScenes ;;
     switchScene "scene1" ;;
     log "Scene Manager initialized successfully" ;;
     set_this (set_isInitialized true))
    (log_and_rethrow "Failed to initialize Scene Manager:").

Definition loadModelIntoCurrentScene (ty : string) : Method t unit :=
  try_catch
    (this <- get_this ;;
     match activeScene this with
     | None => throw (Error "No active scene to load model into")
     | Some (current, _) =>
         log ("Loading model '" +:+ ty +:+ "' into current scene '" +:+ current +:+ "'...") ;;
         invoke current "this.scenes[this.currentSceneName].loadModel" "loadModel"
           (unit_loadModel (modelLoader this) ty) ;;
         log ("Model '" +:+ ty +:+ "' loaded successfully into '" +:+ current +:+ "'")
     end)
    (log_and_rethrow ("Failed to load model '" +:+ ty +:+ "' into current scene:")).

Definition removeModelFromCurrentScene (ty : string) : Method t unit :=
  this <- get_this ;;
  match activeScene this with
  | None => warn "No active scene to remove model from"
  | Some (current, _) =>
      invoke current "this.scenes[this.currentSceneName].removeModel" "removeModel"
        (unit_removeModel ty)
  end.

Definition clearCurrentSceneModels : Method t unit :=
  this <- get_this ;;
  match activeScene this with
  | None => warn "No active scene to clear models from"
  | Some (current, _) =>
      invoke current "this.scenes[this.currentSceneName].clearModels" "clearModels"
        unit_clearModels
  end.

(** [if (scene && typeof scene.method === 'function') scene.method(...)]:
    the units have the methods [update] and [dispose]; what else the
    registry can yield has no [update], and no [dispose] that would touch a
    unit or a stored object. *)
Definition call_if_unit (method : string) (v : Value) (m : Method SceneUnit unit)
  : Method t unit :=
  match v with
  | VUnit r => call method r m
  | _ => ret tt
  end.

Definition update `{Runtime} (deltaTime now : float) : Method t unit :=
  this <- get_this ;;
  if negb (isInitialized this) then ret tt
  else
    match currentSceneName this with
    | None => ret tt
    | Some current =>
        if bool_decide (current = "") then ret tt
        else call_if_unit "update" (scene_named this current) (unit_update deltaTime now)
    end.

Definition getAvailableScenes (this : t) : list string := Object_keys (scenes this).

(** [this.scenes.hasOwnProperty(sceneName)]: a unit registered under the
    name [hasOwnProperty] hides the method, and a unit is not a function. *)
Definition hasScene (this : t) (sceneName : string) : Completion bool :=
  match own_get "hasOwnProperty" (own (scenes this)) with
  | Some _ => Throw (TypeError "this.scenes.hasOwnProperty is not a function")
  | None => Return (hasOwnProperty (scenes this) sceneName)
  end.

Definition removeScene (sceneName : string) : Method t unit :=
  this <- get_this ;;
  if negb (truthy (scene_named this sceneName)) then
    warn ("Scene '" +:+ sceneName +:+ "' not found")
  else if bool_decide (currentSceneName this = Some sceneName) then
    throw (Error ("Cannot remove active scene '" +:+ sceneName +:+ "'"))
  else
    log ("Removing scene '" +:+ sceneName +:+ "'...") ;;
    call_if_unit "dispose" (scene_named this sceneName) unit_dispose ;;
    set_this (set_scenes (delete_property sceneName)) ;;
    log ("Scene '" +:+ sceneName +:+ "' removed successfully").

Definition addScene `{Runtime} (sceneName : string) (sceneClass : UnitId)
  : Method t unit :=
  try_catch
    (this <- get_this ;;
     (if truthy (scene_named this sceneName) then
        warn ("Scene '" +:+ sceneName +:+ "' already exists, replacing...") ;;
        removeScene sceneName
      else ret tt) ;;
     log ("Adding scene '" +:+ sceneName +:+ "'...") ;;
     register sceneName sceneClass ;;
     this <- get_this ;;
     match cameraManager this, lightsManager this, modelLoader this with
     | Some _, Some _, Some _ =>
         call "init" sceneClass
           (unit_init (cameraManager this) (lightsManager this) (modelLoader this))
     | _, _, _ => ret tt
     end ;;
     log ("Scene '" +:+ sceneName +:+ "' added successfully"))
    (log_and_rethrow ("Failed to add scene '" +:+ sceneName +:+ "':")).

(** [Object.keys(this.scenes).forEach(...)], then the fields are reset; the
    units themselves stay with whoever else holds them. *)
Definition dispose : Method t unit :=
  log "Disposing Scene Manager..." ;;
  this <- get_this ;;
  forEach (Object_keys (scenes this))
    (fun sceneName _ =>
       this <- get_this ;;
       call_if_unit "dispose" (scene_named this sceneName) unit_dispose) ;;
  set_this (fun this => mk emptyObject None false None None None (units this) (nextUnit this)) ;;
  log "Scene Manager disposed".

End SceneManager.

(** ** Vocabulary of the properties *)

(** A runtime on which the model can be run: sine and cosine by their
    Taylor polynomials, every random draw 0.5, the remainder by one
    subtraction, no rotation from [lookAt], a working 2D canvas.  It serves
    to evaluate concrete scenarios; the theorems hold for every runtime. *)
Definition evalRuntime : Runtime := {|
  Math_sin := fun a => (a - a * a * a / 6 + a * a * a * a * a / 120)%float;
  Math_cos := fun a => (1 - a * a / 2 + a * a * a * a / 24)%float;
  Math_random := fun _ => 0.5%float;
  number_rem := fun a b => if PrimFloat.ltb a b then a else (a - b)%float;
  lookAt_rotation := fun _ _ => origin;
  canvas2d := true
|}.

(** The unit handed to [addScene]: a new instance of a class, or a unit
    that exists already. *)
Inductive UnitArgument :=
| NewUnit (cls : SceneClass)
| Existing (unit : UnitId).

(** [new Scene1()], [new Scene2()] *)
Definition new_of (cls : SceneClass) : SceneUnit :=
  match cls with
  | Scene1Class => Scene1.new
  | Scene2Class => Scene2.new
  end.

(** The operations of the manager. *)
Inductive Operation :=
| OpInit (camera : option CameraManager) (lights : option LightsManager)
    (loader : option ModelLoader)
| OpSwitchScene (sceneName : string)
| OpAddScene (sceneName : string) (sceneClass : UnitArgument)
| OpRemoveScene (sceneName : string)
| OpLoadModel (ty : string)
| OpRemoveModel (ty : string)
| OpClearModels
| OpUpdate (deltaTime now : float)
| OpDispose.

Definition perform `{Runtime} (op : Operation) : Method SceneManager.t unit :=
  match op with
  | OpInit camera lights loader => SceneManager.init camera lights loader
  | OpSwitchScene n => SceneManager.switchScene n
  | OpAddScene n (NewUnit cls) =>
      unit <- SceneManager.new_unit (new_of cls) ;; SceneManager.addScene n unit
  | OpAddScene n (Existing unit) => SceneManager.addScene n unit
  | OpRemoveScene n => SceneManager.removeScene n
  | OpLoadModel ty => SceneManager.loadModelIntoCurrentScene ty
  | OpRemoveModel ty => SceneManager.removeModelFromCurrentScene ty
  | OpClearModels => SceneManager.clearCurrentSceneModels
  | OpUpdate deltaTime now => SceneManager.update deltaTime now
  | OpDispose => SceneManager.dispose
  end.

(** The manager and the world after a call, whether it returned or threw
    (the caller catches and carries on). *)
Definition after {T A} (r : Completion A * T * World) : T * World := (r.1.2, r.2).

(** The states a sequence of operations goes through, one per operation. *)
Fixpoint states_after `{Runtime} (ops : list Operation) (s : SceneManager.t * World)
  : list (SceneManager.t * World) :=
  match ops with
  | [] => []
  | op :: ops' =>
      let s' := after (perform op s.1 s.2) in
      s' :: states_after ops' s'
  end.

(** The unit registered under a name: the one that the registry has as
    its own property of that name. *)
Definition registered (m : SceneManager.t) (n : string) : option SceneUnit :=
  own_get n (own (SceneManager.scenes m)) ≫= fun r => SceneManager.units m !! r.

(** The active name, if set, is a key of the registry. *)
Definition active_registered (m : SceneManager.t) : Prop :=
  forall n, SceneManager.currentSceneName m = Some n -> is_Some (registered m n).

(** The active name, if set, is a name under which the registry yields a
    unit. *)
Definition active_is_unit (m : SceneManager.t) : Prop :=
  forall n, SceneManager.currentSceneName m = Some n ->
            exists r, SceneManager.scene_named m n = VUnit r.

(** A unit is initialized when its flag is set and it has its scene graph. *)
Definition initialized (u : SceneUnit) : Prop :=
  isInitialized u = true /\ is_Some (scene u).

(** The children of the unit's scene graph. *)
Definition scene_children (u : SceneUnit) (w : World) : list ObjId :=
  match scene u with
  | Some s => children_of (heap w) s
  | None => []
  end.

(** The static decor of a unit: its objects not flagged as loaded models. *)
Definition staticDecor (u : SceneUnit) (w : World) : list ObjId :=
  List.filter (fun id => negb (is_loaded_model (heap w) id)) (objects u).

(** Every object of the unit got its identity from the counter. *)
Definition objects_allocated (u : SceneUnit) (w : World) : Prop :=
  Forall (fun id => id < nextId w) (objects u).

(** The resources of a stored object have been released. *)
Definition resources_disposed (w : World) (id : ObjId) : Prop :=
  exists o, heap w !! id = Some o /\
            (forall g, geometry o = Some g -> geometryDisposed g = true) /\
            (forall m, material o = Some m -> materialDisposed m = true).

(** What one sees of an object: where it is, how it is turned, its
    material and, for a light, its colour and intensity. *)
Definition visual (o : Object3D) : Vector3 * Vector3 * option Material * option Light :=
  (position o, rotation o, material o, light o).

Definition visualState (w : World) : gmap ObjId (Vector3 * Vector3 * option Material * option Light) :=
  visual <$> heap w.

(** Hoare triples for methods: from a state in [P], a normal completion
    ends in [Q] and a thrown one in [E]. *)
Definition triple {T A} (P : T -> World -> Prop) (m : Method T A)
  (Q : A -> T -> World -> Prop) (E : JsError -> T -> World -> Prop) : Prop :=
  forall this w, P this w ->
    match m this w with
    | (Return a, this', w') => Q a this' w'
    | (Throw e, this', w') => E e this' w'
    end.

(** The store after [objects.forEach(obj => dispose resources of obj)]. *)
Definition dispose_all (l : list ObjId) (h : gmap ObjId Object3D) : gmap ObjId Object3D :=
  foldl (fun h id => alter dispose_resources id h) h l.

(** The error a completion has thrown, or [otherwise] when it is normal. *)
Definition thrown {A} (c : Completion A) (otherwise : JsError) : JsError :=
  match c with
  | Throw e => e
  | Return _ => otherwise
  end.

(** Two worlds with the same objects: same store, same counters. *)
Definition same_store (w w' : World) : Prop :=
  heap w' = heap w /\ nextId w' = nextId w /\ randomCalls w' = randomCalls w.

(** The manager and the world once [init] has run on a fresh manager, with
    the three services present. *)
Definition started : SceneManager.t * World :=
  after (@SceneManager.init evalRuntime (Some 1) (Some 2) (Some 3)
           SceneManager.new emptyWorld).

(** The holder of the unit registered under [n] calls its [dispose()]. *)
Definition disposeRegistered (n : string) (s : SceneManager.t * World)
  : SceneManager.t * World :=
  match own_get n (own (SceneManager.scenes s.1)) with
  | Some r => after (SceneManager.call "dispose" r unit_dispose s.1 s.2)
  | None => s
  end.

(** The holder of the unit registered under [n] calls its
    [loadModel(modelLoader, ty)], with the model loader of the manager. *)
Definition loadRegistered (n ty : string) (s : SceneManager.t * World)
  : SceneManager.t * World :=
  match own_get n (own (SceneManager.scenes s.1)) with
  | Some r =>
      after (SceneManager.call "loadModel" r
               (unit_loadModel (SceneManager.modelLoader s.1) ty) s.1 s.2)
  | None => s
  end.

(** A method keeps a property of its receiver, however it completes. *)
Definition keeps {T A} (J : T -> Prop) (m : Method T A) : Prop :=
  forall this w, J this -> J (m this w).1.2.

(** The store after [loadedModels.forEach(model => { this.scene.remove(model);
    dispose resources of model })], for the scene graph [s]. *)
Definition clear_all (s : ObjId) (l : list ObjId) (h : gmap ObjId Object3D)
  : gmap ObjId Object3D :=
  foldl (fun h id => alter dispose_resources id
                       (alter (with_children (remove_child id)) s h)) h l.

(** The store after a model [obj] got the identity [k], was placed at
    [pos], tagged as a loaded model of type [ty] and added to the scene
    graph [s]. *)
Definition loaded_heap (obj : Object3D) (pos : Vector3) (ty : string) (s k : ObjId)
  (h : gmap ObjId Object3D) : gmap ObjId Object3D :=
  alter (with_children (fun cs => cs ++ [k])) s
    (alter (with_userData (mkUserData true (Some ty))) k
       (alter (with_position (fun _ => pos)) k (<[k := obj]> h))).

(** The store after the model [model] was taken off the scene graph [s]
    and its resources released. *)
Definition removed_heap (s model : ObjId) (h : gmap ObjId Object3D)
  : gmap ObjId Object3D :=
  alter dispose_resources model (alter (with_children (remove_child model)) s h).

(** While a unit builds its scene graph [s0]: the counter has not gone
    below [n0], the objects that existed before ([h0], below [n0]) are as
    they were, and the unit's scene graph is [s0], itself created since. *)
Definition building (n0 : nat) (h0 : gmap ObjId Object3D) (s0 : ObjId)
  (u : SceneUnit) (w : World) : Prop :=
  n0 <= nextId w /\ (forall id, id < n0 -> heap w !! id = h0 !! id) /\
  scene u = Some s0 /\ n0 <= s0.

(** A step of the construction: from a [building] state it returns (it does
    not throw), in a [building] state, a value that satisfies [phi]. *)
Definition builds (n0 : nat) (h0 : gmap ObjId Object3D) (s0 : ObjId) {A}
  (m : Method SceneUnit A) (phi : A -> Prop) : Prop :=
  triple (building n0 h0 s0) m
    (fun a u w => building n0 h0 s0 u w /\ phi a)
    (fun _ _ _ => False).

(** The manager has the three services [addScene] needs to initialize a unit. *)
Definition services_available (m : SceneManager.t) : bool :=
  match SceneManager.cameraManager m, SceneManager.lightsManager m,
        SceneManager.modelLoader m with
  | Some _, Some _, Some _ => true
  | _, _, _ => false
  end.

(** The outline of an object: what the traversal of a scene graph and the
    guards of the animation read, and what no animation changes. *)
Definition outline (o : Object3D) : string * list ObjId * bool * bool * bool :=
  (name o, children o,
   match material o with Some _ => true | None => false end,
   match light o with Some _ => true | None => false end,
   match geometry o with Some _ => true | None => false end).

Definition skeleton (h : gmap ObjId Object3D)
  : gmap ObjId (string * list ObjId * bool * bool * bool) :=
  outline <$> h.

(** A property write [obj.field = ...] on the object [id]. *)
Definition Write : Type := ObjId * (Object3D -> Object3D).

Definition apply_writes (ws : list Write) (h : gmap ObjId Object3D)
  : gmap ObjId Object3D :=
  foldl (fun h (iw : Write) => alter iw.2 iw.1 h) h ws.

Definition outline_preserving (ws : list Write) : Prop :=
  Forall (fun iw : Write => forall o, outline (iw.2 o) = outline o) ws.

(** The writes of [ws] onto the object [c] leave its field [phi] alone. *)
Definition quiet {X} (phi : Object3D -> X) (c : ObjId) (ws : list Write) : Prop :=
  Forall (fun iw : Write => iw.1 = c -> forall o, phi (iw.2 o) = phi o) ws.

(** On a unit whose scene graph is [s], and a store that satisfies [G], the
    method returns, leaves the unit as it is, and its effect on the world is
    the writes [W] of the store; [G] and [W] read only the outline of the
    store, which the writes keep. *)
Definition performs (s : ObjId) (G : gmap ObjId Object3D -> Prop)
  (m : Method SceneUnit unit) (W : gmap ObjId Object3D -> list Write) : Prop :=
  (forall h h', skeleton h = skeleton h' -> (G h -> G h') /\ W h = W h') /\
  (forall h, G h -> outline_preserving (W h)) /\
  (forall u w, scene u = Some s -> G (heap w) ->
               m u w = (Return tt, u, set_heap (apply_writes (W (heap w))) w)).

(** Whether a stored object has a material, a light, a geometry. *)
Definition has_material (h : gmap ObjId Object3D) (i : ObjId) : bool :=
  match h !! i ≫= material with Some _ => true | None => false end.
Definition has_light (h : gmap ObjId Object3D) (i : ObjId) : bool :=
  match h !! i ≫= light with Some _ => true | None => false end.
Definition has_geometry (h : gmap ObjId Object3D) (i : ObjId) : bool :=
  match h !! i ≫= geometry with Some _ => true | None => false end.

(** The writes [W i] on the object [i] that [getObjectByName] finds. *)
Definition on_named (h : gmap ObjId Object3D) (s : ObjId) (nm : string)
  (W : ObjId -> list Write) : list Write :=
  match getObjectByName h s nm with
  | Some i => W i
  | None => []
  end.

(** [obj.rotation.x += d] and [obj.rotation.y += d] *)
Definition rotate_x (d : float) : Object3D -> Object3D :=
  with_rotation (fun r => set_x (vx r + d)%float r).
Definition rotate_y (d : float) : Object3D -> Object3D :=
  with_rotation (fun r => set_y (vy r + d)%float r).

(** The writes of [Scene1.animateObjects] at the time [time] (in seconds). *)
Definition Scene1_writes `{Runtime} (time : float) (s : ObjId)
  (h : gmap ObjId Object3D) : list Write :=
  on_named h s "Cube" (fun i => [(i, rotate_x 0.01); (i, rotate_y 0.01)]) ++
  on_named h s "Sphere"
    (fun i => [(i, with_position (set_y (1.2 + Math_sin (time * 2) * 0.3)%float))]) ++
  on_named h s "Torus" (fun i => [(i, rotate_x 0.02); (i, rotate_y 0.01)]) ++
  on_named h s "Cylinder" (fun i => [(i, rotate_y 0.015)]) ++
  on_named h s "Cone"
    (fun i => [(i, with_rotation (set_z (Math_sin time * 0.1)%float))]).

(** A field of a stored object. *)
Definition field {X} (phi : Object3D -> X) (w : World) (i : ObjId) : option X :=
  phi <$> heap w !! i.

Definition height (o : Object3D) : float := vy (position o).
Definition tilt (o : Object3D) : float := vz (rotation o).
Definition turn_x (o : Object3D) : float := vx (rotation o).
Definition turn_y (o : Object3D) : float := vy (rotation o).

(** The writes of [Scene2]'s animation. *)
Definition raise_by (d : float) : Object3D -> Object3D :=
  with_position (fun p => set_y (vy p + d)%float p).
Definition set_emissive (c : Color) : Object3D -> Object3D :=
  with_material (fun m => mkMaterial (color m) (opacity m) c (materialDisposed m)).
Definition set_opacity (a : float) : Object3D -> Object3D :=
  with_material (fun m => mkMaterial (color m) a (emissive m) (materialDisposed m)).
Definition set_light (l : Light) : Object3D -> Object3D := with_light (fun _ => l).

Definition platform_height `{Runtime} (time : float) (index : nat) : float :=
  (2 + number_of_nat index * 1.5 + Math_sin (time + number_of_nat index) * 0.5)%float.
Definition orb_intensity `{Runtime} (time : float) (index : nat) : float :=
  (0.3 + Math_sin (time * 3 + number_of_nat index) * 0.2)%float.
Definition orb_colour `{Runtime} (time : float) (index : nat) : Color :=
  HSL (number_rem (time * 0.1 + number_of_nat index * 0.1) 1) 1 (orb_intensity time index).
Definition crystal_opacity `{Runtime} (time : float) (index : nat) : float :=
  (0.8 + Math_sin (time * 2 + number_of_nat index) * 0.2)%float.

Definition platform_writes `{Runtime} (time : float) (c : ObjId) (index : nat)
  : list Write :=
  [(c, with_position (set_y (platform_height time index))); (c, rotate_y 0.01)].

Definition orb_writes `{Runtime} (time : float) (h : gmap ObjId Object3D) (c : ObjId)
  (index : nat) : list Write :=
  [(c, raise_by (Math_sin (time * 2 + number_of_nat index) * 0.01));
   (c, rotate_y 0.02);
   (c, set_emissive (orb_colour time index))] ++
  match children_of h c with
  | pointLight :: _ =>
      [(pointLight, set_light (mkLight (orb_colour time index) (orb_intensity time index)))]
  | [] => []
  end.

Definition crystal_writes `{Runtime} (time : float) (c : ObjId) (index : nat)
  : list Write :=
  [(c, rotate_y 0.01); (c, set_opacity (crystal_opacity time index))].

Definition children_writes (h : gmap ObjId Object3D) (W : ObjId -> nat -> list Write)
  (group : ObjId) : list Write :=
  concat (imap (fun k c => W c k) (children_of h group)).

Definition Scene2_writes `{Runtime} (time : float) (s : ObjId)
  (h : gmap ObjId Object3D) : list Write :=
  on_named h s "SpiralStructure" (fun i => [(i, rotate_y 0.005)]) ++
  on_named h s "FloatingPlatforms" (children_writes h (platform_writes time)) ++
  on_named h s "GlowingOrbs" (children_writes h (orb_writes time h)) ++
  on_named h s "CrystalFormation" (children_writes h (crystal_writes time)).

Definition particle_writes (s : ObjId) (h : gmap ObjId Object3D) : list Write :=
  on_named h s "Particles"
    (fun p => [(p, rotate_y 0.001);
               (p, with_geometry
                     (fun g => mkGeometry (shape g)
                                 (Scene2.liftParticles (positionArray g)) true
                                 (geometryDisposed g)))]).

(** The children of the group of the scene graph that has the name. *)
Definition group_children (h : gmap ObjId Object3D) (s : ObjId) (nm : string)
  : list ObjId :=
  match getObjectByName h s nm with
  | Some g => children_of h g
  | None => []
  end.

(** The point lights of orbs: the first child of each, where it has one. *)
Definition first_children (h : gmap ObjId Object3D) (l : list ObjId) : list ObjId :=
  omap (fun c => head (children_of h c)) l.

(** What [Scene2]'s animation needs of the store to run without a
    [TypeError]: orbs and crystals have a material, the first child of an
    orb is a light, the particles have a geometry. *)
Definition Scene2_animable (h : gmap ObjId Object3D) (s : ObjId) : Prop :=
  Forall (fun c => has_material h c = true) (group_children h s "GlowingOrbs") /\
  Forall (fun l => has_light h l = true)
    (first_children h (group_children h s "GlowingOrbs")) /\
  Forall (fun c => has_material h c = true) (group_children h s "CrystalFormation") /\
  Forall (fun p => has_geometry h p = true)
    (option_list (getObjectByName h s "Particles")).

(** The groups of a [Scene2] scene graph are laid out as a tree: no object
    is listed twice among the platforms and the orbs, nor among the
    crystals, and no two orbs share their light. *)
Definition Scene2_tree (h : gmap ObjId Object3D) (s : ObjId) : Prop :=
  NoDup (group_children h s "FloatingPlatforms" ++ group_children h s "GlowingOrbs") /\
  NoDup (group_children h s "CrystalFormation") /\
  NoDup (first_children h (group_children h s "GlowingOrbs")).

(** The writes of [update] of a unit of the class, at [time] seconds. *)
Definition update_writes `{Runtime} (cls : SceneClass) (time : float) (s : ObjId)
  (h : gmap ObjId Object3D) : list Write :=
  match cls with
  | Scene1Class => Scene1_writes time s h
  | Scene2Class => Scene2_writes time s h ++ particle_writes s h
  end.

(** What the animation of a unit of the class needs of the store. *)
Definition animable (cls : SceneClass) (h : gmap ObjId Object3D) (s : ObjId) : Prop :=
  match cls with
  | Scene1Class => True
  | Scene2Class => Scene2_animable h s
  end.

(** The emissive colour and the opacity of the material of an object. *)
Definition emissive_of (o : Object3D) : option Color := emissive <$> material o.
Definition opacity_of (o : Object3D) : option float := opacity <$> material o.

(** The properties that [Scene1.animateObjects] assigns from the wall-clock
    time: the height of the sphere and the tilt of the cone.  [h0] is the
    store in which the objects are looked up, [w] the world observed. *)
Definition Scene1_phase `{Runtime} (time : float) (s : ObjId)
  (h0 : gmap ObjId Object3D) (w : World) : Prop :=
  (forall i, getObjectByName h0 s "Sphere" = Some i ->
             field height w i = Some (1.2 + Math_sin (time * 2) * 0.3)%float) /\
  (forall i, getObjectByName h0 s "Cone" = Some i ->
             field tilt w i = Some (Math_sin time * 0.1)%float).

(** The properties that [Scene2.animateObjects] assigns from the wall-clock
    time: the heights of the platforms, the emissive colour of the orbs, the
    colour and intensity of their lights, the opacity of the crystals. *)
Definition Scene2_phase `{Runtime} (time : float) (s : ObjId)
  (h0 : gmap ObjId Object3D) (w : World) : Prop :=
  (forall k c, group_children h0 s "FloatingPlatforms" !! k = Some c ->
               is_Some (h0 !! c) ->
               field height w c = Some (platform_height time k)) /\
  (forall k c, group_children h0 s "GlowingOrbs" !! k = Some c ->
               field emissive_of w c = Some (Some (orb_colour time k))) /\
  (forall k c l, group_children h0 s "GlowingOrbs" !! k = Some c ->
                 head (children_of h0 c) = Some l ->
                 field light w l
                 = Some (Some (mkLight (orb_colour time k) (orb_intensity time k)))) /\
  (forall k c, group_children h0 s "CrystalFormation" !! k = Some c ->
               field opacity_of w c = Some (Some (crystal_opacity time k))).

Definition phase_assigned `{Runtime} (cls : SceneClass) (time : float) (s : ObjId)
  (h0 : gmap ObjId Object3D) (w : World) : Prop :=
  match cls with
  | Scene1Class => Scene1_phase time s h0 w
  | Scene2Class => Scene2_phase time s h0 w
  end.

(** From [w] to [w'] the cube, the torus and the cylinder of a [Scene1]
    scene graph have turned by the steps of one call of [animateObjects]. *)
Definition Scene1_turned (s : ObjId) (h0 : gmap ObjId Object3D) (w w' : World) : Prop :=
  (forall i, getObjectByName h0 s "Cube" = Some i ->
     field turn_x w' i = (fun a => (a + 0.01)%float) <$> field turn_x w i /\
     field turn_y w' i = (fun a => (a + 0.01)%float) <$> field turn_y w i) /\
  (forall i, getObjectByName h0 s "Torus" = Some i ->
     field turn_x w' i = (fun a => (a + 0.02)%float) <$> field turn_x w i /\
     field turn_y w' i = (fun a => (a + 0.01)%float) <$> field turn_y w i) /\
  (forall i, getObjectByName h0 s "Cylinder" = Some i ->
     field turn_y w' i = (fun a => (a + 0.015)%float) <$> field turn_y w i).

(** The layout that the animation of a unit of the class relies on. *)
Definition tree (cls : SceneClass) (h : gmap ObjId Object3D) (s : ObjId) : Prop :=
  match cls with
  | Scene1Class => True
  | Scene2Class => Scene2_tree h s
  end.

(** Where [loadModel] places a model when [k] models are loaded already. *)
Definition model_slot (cls : SceneClass) (k : nat) : Vector3 :=
  match cls with
  | Scene1Class => mkVector3 (number_of_nat k * 3) 0 3
  | Scene2Class => mkVector3 (number_of_nat k * 4 - 10) 2 (-5)
  end.

(** The model types that [loadModel] knows. *)
Definition supported_model (ty : string) : Prop := ty = "cube" \/ ty = "sphere".


(** Whether the operation is [init]. *)
Definition is_init (op : Operation) : bool :=
  match op with
  | OpInit _ _ _ => true
  | _ => false
  end.

(** One entry of the particle position array after a pass of
    [updateParticles]: a height (index 1 modulo 3) is lifted by 0.01, in
    single precision, and starts again from 0 once above 20. *)
Definition lifted (i : nat) (a : float) : float :=
  if Nat.eqb (i mod 3) 1 then
    if PrimFloat.ltb 20 (Math_fround (a + 0.01)) then 0%float else Math_fround (a + 0.01)
  else a.

(** The manager and the world of [started] once a cube and a sphere have been
    loaded into the active scene. *)
Definition furnished : SceneManager.t * World :=
  after (SceneManager.loadModelIntoCurrentScene "sphere"
           (after (SceneManager.loadModelIntoCurrentScene "cube" started.1 started.2)).1
           (after (SceneManager.loadModelIntoCurrentScene "cube" started.1 started.2)).2).

(** ** Properties *)

(** *** The registry *)

Lemma own_get_put_eq (n : string) (r : UnitId) (l : list (string * UnitId)) :
  own_get n (own_put n r l) = Some r.
Proof.
  induction l as [|[k v] l IH]; simpl.
  - by rewrite bool_decide_true.
  - case_bool_decide as Hk; simpl.
    + by rewrite bool_decide_true.
    + by rewrite bool_decide_false.
Qed.

Lemma own_get_put_ne (k n : string) (r : UnitId) (l : list (string * UnitId)) :
  k <> n -> own_get k (own_put n r l) = own_get k l.
Proof.
  intros Hne. induction l as [|[k' v] l IH]; simpl.
  - by rewrite bool_decide_false.
  - case_bool_decide as Hk; simpl.
    + subst k'. by rewrite !bool_decide_false by done.
    + case_bool_decide; [done|]. exact IH.
Qed.


Lemma own_get_remove_ne (k n : string) (l : list (string * UnitId)) :
  k <> n -> own_get k (own_remove n l) = own_get k l.
Proof.
  intros Hne. induction l as [|[k' v] l IH]; simpl; [done|].
  case_bool_decide as Hk; simpl.
  - subst k'. by rewrite bool_decide_false.
  - case_bool_decide; [done|]. exact IH.
Qed.

Lemma own_remove_absent (n : string) (l : list (string * UnitId)) :
  own_get n l = None -> own_remove n l = l.
Proof.
  induction l as [|[k v] l IH]; simpl; [done|].
  case_bool_decide as Hk; simpl; [done|]. intros H. by rewrite IH.
Qed.

Lemma registered_Some (m : SceneManager.t) (n : string) (u : SceneUnit) :
  registered m n = Some u <->
  exists r, own_get n (own (SceneManager.scenes m)) = Some r /\
            SceneManager.units m !! r = Some u.
Proof.
  unfold registered. destruct (own_get n (own (SceneManager.scenes m))) as [r|]; simpl.
  - split; [by exists r|]. by intros (r' & [= <-] & Hu).
  - split; [done|]. by intros (r' & [=] & _).
Qed.

Lemma scene_named_own (m : SceneManager.t) (n : string) (r : UnitId) (u : SceneUnit) :
  own_get n (own (SceneManager.scenes m)) = Some r ->
  SceneManager.units m !! r = Some u ->
  SceneManager.scene_named m n = VUnit r.
Proof.
  intros Hr Hu. unfold SceneManager.scene_named, get_property. by rewrite Hr, Hu.
Qed.

Lemma unit_property_not_unit (u : SceneUnit) (n : string) (v : Value) (r : UnitId) :
  unit_property u n = Some v -> v <> VUnit r.
Proof.
  unfold unit_property.
  repeat case_bool_decide; repeat case_match; intros [= <-]; done.
Qed.

(** What the registry yields as a unit is a unit of the store. *)
Lemma scene_named_unit (m : SceneManager.t) (n : string) (r : UnitId) :
  SceneManager.scene_named m n = VUnit r -> is_Some (SceneManager.units m !! r).
Proof.
  unfold SceneManager.scene_named, get_property, prototype_unit.
  destruct (own_get n (own (SceneManager.scenes m))) as [r'|].
  - destruct (SceneManager.units m !! r') eqn:E; [|done]. intros [= <-]. by eexists.
  - destruct (proto (SceneManager.scenes m)) as [p|]; simpl.
    + destruct (SceneManager.units m !! p) as [up|] eqn:E; simpl.
      * case_bool_decide; [intros [= <-]; by eexists|].
        destruct (unit_property up n) as [v|] eqn:Ev.
        -- intros ->. by apply (unit_property_not_unit _ _ _ r) in Ev.
        -- by case_bool_decide.
      * repeat (case_bool_decide; simpl; try done).
    + repeat (case_bool_decide; simpl; try done).
Qed.

Lemma set_units_insert_id (m : SceneManager.t) (r : UnitId) (u : SceneUnit) :
  SceneManager.units m !! r = Some u ->
  SceneManager.set_units (insert r u) m = m.
Proof.
  intros Hu. destruct m as [sc cur ini cam li lo us nu]; simpl in *.
  unfold SceneManager.set_units; simpl. by rewrite insert_id.
Qed.

Lemma call_result {A} (m : SceneManager.t) (w : World) (method : string) (r : UnitId)
  (meth : Method SceneUnit A) (u u' : SceneUnit) (c : Completion A) (w' : World) :
  SceneManager.units m !! r = Some u ->
  meth u w = (c, u', w') ->
  SceneManager.call method r meth m w = (c, SceneManager.set_units (insert r u') m, w').
Proof.
  intros Hu Hm. unfold SceneManager.call. by rewrite Hu, Hm.
Qed.

Lemma invoke_unit {A} (m : SceneManager.t) (w : World) (n callee method : string)
  (meth : Method SceneUnit A) (r : UnitId) :
  SceneManager.scene_named m n = VUnit r ->
  SceneManager.invoke n callee method meth m w = SceneManager.call method r meth m w.
Proof.
  intros Hn. unfold SceneManager.invoke, bind, get_this. by rewrite Hn.
Qed.

(** Reading a unit leaves everything as it is. *)
Lemma invoke_read {A} (m : SceneManager.t) (w : World) (n callee method : string)
  (f : SceneUnit -> World -> A) :
  (SceneManager.invoke n callee method (fun u w => (Return (f u w), u, w)) m w).1.2 = m /\
  (SceneManager.invoke n callee method (fun u w => (Return (f u w), u, w)) m w).2 = w.
Proof.
  unfold SceneManager.invoke, bind, get_this.
  destruct (SceneManager.scene_named m n) as [r| | | | |] eqn:E; simpl; try done.
  unfold SceneManager.call.
  destruct (SceneManager.units m !! r) as [u|] eqn:Hu; simpl; [|done].
  by rewrite set_units_insert_id.
Qed.

Lemma getCurrentScene_frame (m : SceneManager.t) (w : World) :
  (SceneManager.getCurrentScene m w).1.2 = m /\ (SceneManager.getCurrentScene m w).2 = w.
Proof.
  unfold SceneManager.getCurrentScene, bind, get_this.
  destruct (SceneManager.activeScene m) as [[current v]|]; [|done].
  apply (invoke_read m w _ _ _ (fun u _ => getScene u)).
Qed.

Lemma getCurrentScene_eq (m : SceneManager.t) (w : World) :
  SceneManager.getCurrentScene m w = ((SceneManager.getCurrentScene m w).1.1, m, w).
Proof.
  destruct (getCurrentScene_frame m w) as [H1 H2].
  destruct (SceneManager.getCurrentScene m w) as [[c m'] w']; simpl in *. by subst.
Qed.

(** Whether reading the current scene returns or throws does not depend on
    the world. *)
Lemma getCurrentScene_world (m : SceneManager.t) (w w' : World) :
  (SceneManager.getCurrentScene m w).1.1 = (SceneManager.getCurrentScene m w').1.1.
Proof.
  unfold SceneManager.getCurrentScene, bind, get_this.
  destruct (SceneManager.activeScene m) as [[current v]|]; [|done].
  unfold SceneManager.invoke, bind, get_this.
  destruct (SceneManager.scene_named m current); try done.
  unfold SceneManager.call. by destruct (SceneManager.units m !! unit).
Qed.

(** With the active name registered, reading the current scene returns. *)
Lemma getCurrentScene_registered (m : SceneManager.t) (w : World) (n : string)
  (u : SceneUnit) :
  SceneManager.currentSceneName m = Some n ->
  registered m n = Some u ->
  exists s, SceneManager.getCurrentScene m w = (Return s, m, w).
Proof.
  intros Hcur Hu. apply registered_Some in Hu as (r & Hr & Hu).
  pose proof (scene_named_own m n r u Hr Hu) as Hn.
  unfold SceneManager.getCurrentScene, bind at 1, get_this, SceneManager.activeScene.
  rewrite Hcur. case_bool_decide; [by eexists|].
  rewrite Hn; simpl.
  rewrite (invoke_unit _ _ _ _ _ _ r Hn).
  erewrite call_result by (done || reflexivity).
  rewrite set_units_insert_id by done. by eexists.
Qed.

(** *** Reading the results of the manager's guarded paths *)

Lemma switchScene_active (m : SceneManager.t) (w : World) (n : string) :
  SceneManager.currentSceneName m = Some n ->
  truthy (SceneManager.scene_named m n) = true ->
  SceneManager.switchScene n m w
  = (Return tt, m, emit (console_log ("Already in scene '" +:+ n +:+ "'")) w).
Proof.
  intros Hcur Hn.
  unfold SceneManager.switchScene, try_catch, bind, get_this.
  rewrite Hn, bool_decide_true by done. reflexivity.
Qed.

Lemma switchScene_unknown (m : SceneManager.t) (w : World) (n : string) :
  truthy (SceneManager.scene_named m n) = false ->
  SceneManager.switchScene n m w
  = (Throw (Error ("Scene '" +:+ n +:+ "' not found")), m,
     emit (console_error ("Failed to switch to scene '" +:+ n +:+ "':")
             (Error ("Scene '" +:+ n +:+ "' not found"))) w).
Proof.
  intros Hn. unfold SceneManager.switchScene, try_catch, bind, get_this.
  rewrite Hn. reflexivity.
Qed.

Lemma hasOwnProperty_truthy (m : SceneManager.t) (n : string) (u : SceneUnit) :
  registered m n = Some u -> truthy (SceneManager.scene_named m n) = true.
Proof.
  intros Hu. apply registered_Some in Hu as (r & Hr & Hu).
  by rewrite (scene_named_own m n r u Hr Hu).
Qed.

Lemma switchScene_null_scene (m : SceneManager.t) (w : World) (n : string) (u : SceneUnit) :
  registered m n = Some u ->
  getScene u = None ->
  SceneManager.currentSceneName m <> Some n ->
  let e := thrown (SceneManager.getCurrentScene m w).1.1
             (Error ("Scene '" +:+ n +:+ "' not properly initialized")) in
  SceneManager.switchScene n m w
  = (Throw e, m,
     emit (console_error ("Failed to switch to scene '" +:+ n +:+ "':") e)
       (emit (console_log ("Switching to scene '" +:+ n +:+ "'...")) w)).
Proof.
  intros Hu Hnull Hcur. cbv zeta.
  pose proof (hasOwnProperty_truthy m n u Hu) as Ht.
  apply registered_Some in Hu as (r & Hr & Hu).
  pose proof (scene_named_own m n r u Hr Hu) as Hn.
  unfold SceneManager.switchScene, try_catch, bind at 1, get_this.
  rewrite Ht, bool_decide_false by done. simpl.
  unfold bind at 1, log, set_world.
  unfold bind at 1, SceneManager.performSceneTransition.
  unfold bind at 1.
  rewrite (getCurrentScene_eq m (emit _ w)).
  rewrite (getCurrentScene_world m _ w).
  destruct ((SceneManager.getCurrentScene m w).1.1) as [s|e]; simpl; [|done].
  unfold bind at 1. rewrite (invoke_unit _ _ _ _ _ _ r Hn).
  erewrite call_result by (done || reflexivity).
  rewrite set_units_insert_id by done. rewrite Hnull. reflexivity.
Qed.

Lemma removeScene_active (m : SceneManager.t) (w : World) (n : string) :
  SceneManager.currentSceneName m = Some n ->
  truthy (SceneManager.scene_named m n) = true ->
  SceneManager.removeScene n m w
  = (Throw (Error ("Cannot remove active scene '" +:+ n +:+ "'")), m, w).
Proof.
  intros Hcur Hn. unfold SceneManager.removeScene, bind, get_this.
  rewrite Hn, bool_decide_true by done. reflexivity.
Qed.

Lemma removeScene_unknown (m : SceneManager.t) (w : World) (n : string) :
  truthy (SceneManager.scene_named m n) = false ->
  SceneManager.removeScene n m w
  = (Return tt, m, emit (console_warn ("Scene '" +:+ n +:+ "' not found")) w).
Proof.
  intros Hn. unfold SceneManager.removeScene, bind, get_this.
  rewrite Hn. reflexivity.
Qed.
(** *** Disposing a unit *)

Lemma dispose_resources_idemp (o : Object3D) :
  dispose_resources (dispose_resources o) = dispose_resources o.
Proof.
  destruct o as [nm p r d c [g|] [mt|] l]; reflexivity.
Qed.

Lemma dispose_resources_disposed (o : Object3D) :
  (forall g, geometry (dispose_resources o) = Some g -> geometryDisposed g = true) /\
  (forall m, material (dispose_resources o) = Some m -> materialDisposed m = true).
Proof.
  destruct o as [nm p r d c [g|] [mt|] l]; simpl; split; intros ? [= <-] || discriminate;
    reflexivity.
Qed.

Lemma forEach_dispose_object {T} (l : list ObjId) (i : nat) (this : T) (w : World) :
  forEach_from i (fun obj _ => dispose_object obj) l this w
  = (Return tt, this, set_heap (dispose_all l) w).
Proof.
  revert i w. induction l as [|a l IH]; intros i w; simpl.
  - by destruct w.
  - unfold bind at 1. unfold dispose_object at 1, update_object, set_world.
    rewrite IH. by destruct w.
Qed.

Lemma dispose_all_lookup (l : list ObjId) (h : gmap ObjId Object3D) (id : ObjId) :
  dispose_all l h !! id
  = if decide (id ∈ l) then dispose_resources <$> h !! id else h !! id.
Proof.
  revert h. induction l as [|a l IH]; intros h.
  - done.
  - change (dispose_all (a :: l) h) with (dispose_all l (alter dispose_resources a h)).
    rewrite IH.
    destruct (decide (a = id)) as [->|Hne].
    + rewrite lookup_alter_eq.
      destruct (decide (id ∈ id :: l)) as [_|Hn]; [|exfalso; apply Hn; left].
      destruct (decide (id ∈ l)); [|done].
      destruct (h !! id); simpl; [|done]. by rewrite dispose_resources_idemp.
    + rewrite lookup_alter_ne by done.
      destruct (decide (id ∈ l)) as [Hin|Hin], (decide (id ∈ a :: l)) as [Hin'|Hin'];
        try done.
      * exfalso. apply Hin'. by right.
      * exfalso. apply elem_of_cons in Hin' as [->|?]; done.
Qed.

Lemma unit_dispose_null (u : SceneUnit) (w : World) :
  scene u = None -> unit_dispose u w = (Return tt, u, w).
Proof.
  intros Hs. unfold unit_dispose, dispatch, Scene1.dispose, Scene2.dispose, bind, get_this.
  rewrite Hs. by destruct (unitClass u).
Qed.

Lemma unit_dispose_scene (u : SceneUnit) (w : World) :
  is_Some (scene u) ->
  exists u' w',
    unit_dispose u w = (Return tt, u', w') /\
    scene u' = None /\ objects u' = [] /\ isInitialized u' = false /\
    heap w' = dispose_all (objects u) (heap w) /\ nextId w' = nextId w.
Proof.
  intros [s Hs].
  unfold unit_dispose, dispatch, Scene1.dispose, Scene2.dispose, forEach.
  destruct (unitClass u); unfold bind at 1, get_this; rewrite Hs;
    unfold bind at 1; rewrite forEach_dispose_object; simpl;
    eexists _, _; (split; [reflexivity|]); simpl; done.
Qed.

Lemma dispose_all_disposed (l : list ObjId) (w w' : World) (id : ObjId) :
  heap w' = dispose_all l (heap w) ->
  id ∈ l -> is_Some (heap w !! id) -> resources_disposed w' id.
Proof.
  intros Hh Hin [o Ho]. exists (dispose_resources o). split.
  - rewrite Hh, dispose_all_lookup, decide_True, Ho by done. done.
  - apply dispose_resources_disposed.
Qed.

Lemma unit_dispose_returns (u : SceneUnit) (w : World) :
  exists u' w', unit_dispose u w = (Return tt, u', w') /\ scene u' = None.
Proof.
  destruct (scene u) as [s|] eqn:Hs.
  - destruct (unit_dispose_scene u w) as (u' & w' & Hd & Hs' & _); [by rewrite Hs|].
    by exists u', w'.
  - exists u, w. split; [by apply unit_dispose_null|done].
Qed.

(** Removing a name under which the registry yields a unit, not the active
    one: the unit is disposed and the own property of that name deleted. *)
Lemma removeScene_inactive (m : SceneManager.t) (w : World) (n : string) (r : UnitId)
  (u : SceneUnit) :
  SceneManager.scene_named m n = VUnit r ->
  SceneManager.units m !! r = Some u ->
  SceneManager.currentSceneName m <> Some n ->
  exists u' w',
    unit_dispose u (emit (console_log ("Removing scene '" +:+ n +:+ "'...")) w)
    = (Return tt, u', w') /\
    SceneManager.removeScene n m w
    = (Return tt,
       SceneManager.set_scenes (delete_property n) (SceneManager.set_units (insert r u') m),
       emit (console_log ("Scene '" +:+ n +:+ "' removed successfully")) w').
Proof.
  intros Hn Hu Hcur.
  destruct (unit_dispose_returns u (emit (console_log ("Removing scene '" +:+ n +:+ "'...")) w))
    as (u' & w' & Hd & _).
  exists u', w'. split; [done|].
  unfold SceneManager.removeScene, bind at 1, get_this.
  rewrite Hn, bool_decide_false by done. simpl.
  unfold bind at 1, log, set_world.
  unfold bind at 1, SceneManager.call_if_unit.
  rewrite (call_result _ _ _ _ _ u u' (Return tt) w' Hu Hd).
  reflexivity.
Qed.

(** Removing a name under which the registry yields something that is not a
    unit: nothing is disposed, and the own property of that name, if there
    is one, deleted. *)
Lemma removeScene_not_a_unit (m : SceneManager.t) (w : World) (n : string) :
  truthy (SceneManager.scene_named m n) = true ->
  (forall r, SceneManager.scene_named m n <> VUnit r) ->
  SceneManager.currentSceneName m <> Some n ->
  SceneManager.removeScene n m w
  = (Return tt, SceneManager.set_scenes (delete_property n) m,
     emit (console_log ("Scene '" +:+ n +:+ "' removed successfully"))
       (emit (console_log ("Removing scene '" +:+ n +:+ "'...")) w)).
Proof.
  intros Ht Hnu Hcur.
  unfold SceneManager.removeScene, bind at 1, get_this.
  rewrite Ht, bool_decide_false by done. simpl.
  unfold bind at 1, log, set_world.
  unfold bind at 1, SceneManager.call_if_unit.
  destruct (SceneManager.scene_named m n) as [r| | | | |]; try done.
  by destruct (Hnu r).
Qed.

Lemma set_scenes_delete_absent (m : SceneManager.t) (n : string) :
  hasOwnProperty (SceneManager.scenes m) n = false ->
  SceneManager.set_scenes (delete_property n) m = m.
Proof.
  unfold hasOwnProperty. intros Hn. apply bool_decide_eq_false in Hn.
  destruct m as [[ow pr] cur ini cam li lo us nu].
  unfold SceneManager.set_scenes, delete_property; simpl in *.
  rewrite own_remove_absent; [done|].
  destruct (own_get n ow); [|done]. destruct Hn. by eexists.
Qed.

(** A name that only [Object.prototype] has. *)
Lemma scene_named_inherited (m : SceneManager.t) (n : string) :
  n ∈ Object_prototype_names ->
  hasOwnProperty (SceneManager.scenes m) n = false ->
  proto (SceneManager.scenes m) = None ->
  SceneManager.scene_named m n = VObject.
Proof.
  unfold hasOwnProperty. intros Hin Hn Hp. apply bool_decide_eq_false in Hn.
  unfold SceneManager.scene_named, get_property, prototype_unit. rewrite Hp.
  destruct (own_get n (own (SceneManager.scenes m))); [destruct Hn; by eexists|].
  case_bool_decide; [done|]. simpl. by rewrite bool_decide_true.
Qed.

(** C5, the third part at names that the registry inherits: for a name of
    [Object.prototype] that is no key of the registry (and so unknown to
    [hasScene]), and not the active name, [removeScene] does not warn: it
    logs that it removes the scene and that the scene was removed, and
    leaves the manager as it is. *)
Theorem removeScene_inherited_name_reports_removal (m : SceneManager.t) (w : World)
  (n : string) :
  n ∈ Object_prototype_names ->
  hasOwnProperty (SceneManager.scenes m) n = false ->
  proto (SceneManager.scenes m) = None ->
  SceneManager.currentSceneName m <> Some n ->
  SceneManager.removeScene n m w
  = (Return tt, m,
     emit (console_log ("Scene '" +:+ n +:+ "' removed successfully"))
       (emit (console_log ("Removing scene '" +:+ n +:+ "'...")) w)).
Proof.
  intros Hin Hn Hp Hcur.
  pose proof (scene_named_inherited m n Hin Hn Hp) as Hv.
  rewrite removeScene_not_a_unit; [|by rewrite Hv|by rewrite Hv|done].
  by rewrite set_scenes_delete_absent.
Qed.

(** *** Switching *)

Lemma same_store_refl (w : World) : same_store w w.
Proof. done. Qed.

Lemma same_store_emit (e : Event) (w w' : World) :
  same_store w w' -> same_store w (emit e w').
Proof. intros (? & ? & ?). done. Qed.

Lemma same_store_getModelCount (u : SceneUnit) (w w' : World) :
  same_store w w' -> getModelCount u w' = getModelCount u w.
Proof. intros (Hh & _). unfold getModelCount. by rewrite Hh. Qed.

Lemma applyCameraSettings_spec (n : string) (m : SceneManager.t) (w : World) :
  exists w', SceneManager.applyCameraSettings n m w = (Return tt, m, w') /\ same_store w w'.
Proof.
  unfold SceneManager.applyCameraSettings, bind, get_this.
  destruct (SceneManager.cameraManager m) as [c|]; [|by eexists].
  repeat case_bool_decide; eexists; (split; [reflexivity|]); done.
Qed.

Lemma applyLightingSettings_spec (n : string) (m : SceneManager.t) (w : World) :
  exists w', SceneManager.applyLightingSettings n m w = (Return tt, m, w') /\ same_store w w'.
Proof.
  unfold SceneManager.applyLightingSettings, bind, get_this.
  destruct (SceneManager.lightsManager m) as [c|]; [|by eexists].
  repeat case_bool_decide; eexists; (split; [reflexivity|]); done.
Qed.

Lemma same_store_trans (w1 w2 w3 : World) :
  same_store w1 w2 -> same_store w2 w3 -> same_store w1 w3.
Proof. intros (? & ? & ?) (? & ? & ?). repeat split; congruence. Qed.

Lemma performSceneTransition_spec (n : string) (r : UnitId) (u : SceneUnit)
  (m : SceneManager.t) (w : World) (s : option ObjId) :
  SceneManager.getCurrentScene m w = (Return s, m, w) ->
  SceneManager.scene_named m n = VUnit r ->
  SceneManager.units m !! r = Some u ->
  is_Some (getScene u) ->
  exists w', SceneManager.performSceneTransition n m w = (Return tt, m, w') /\
             same_store w w'.
Proof.
  intros Hc Hn Hu [g Hg].
  unfold SceneManager.performSceneTransition, bind at 1. rewrite Hc.
  unfold bind at 1. rewrite (invoke_unit _ _ _ _ _ _ r Hn).
  erewrite call_result by (done || reflexivity).
  rewrite set_units_insert_id by done. rewrite Hg.
  destruct (applyCameraSettings_spec n m w) as (w1 & E1 & S1).
  destruct (applyLightingSettings_spec n m w1) as (w2 & E2 & S2).
  unfold bind. rewrite E1, E2. eexists. split; [reflexivity|].
  apply same_store_emit. by eapply same_store_trans.
Qed.

Lemma switchScene_other (n : string) (r : UnitId) (u : SceneUnit) (m : SceneManager.t)
  (w : World) :
  (exists s, SceneManager.getCurrentScene m w = (Return s, m, w)) ->
  SceneManager.scene_named m n = VUnit r ->
  SceneManager.units m !! r = Some u ->
  is_Some (getScene u) ->
  SceneManager.currentSceneName m <> Some n ->
  exists w', SceneManager.switchScene n m w
             = (Return tt, SceneManager.set_currentSceneName (Some n) m, w') /\
             same_store w w'.
Proof.
  intros [s Hc] Hn Hu Hs Hcur.
  unfold SceneManager.switchScene, try_catch, bind at 1, get_this.
  rewrite Hn, bool_decide_false by done. simpl.
  assert (SceneManager.getCurrentScene m
            (emit (console_log ("Switching to scene '" +:+ n +:+ "'...")) w)
          = (Return s, m, emit (console_log ("Switching to scene '" +:+ n +:+ "'...")) w))
    as Hc'.
  { rewrite getCurrentScene_eq, (getCurrentScene_world m _ w). by rewrite Hc. }
  destruct (performSceneTransition_spec n r u m _ s Hc' Hn Hu Hs) as (w1 & E1 & S1).
  unfold bind, log, set_world. rewrite E1. simpl.
  eexists. split; [reflexivity|].
  apply same_store_emit. eapply same_store_trans; [|exact S1]. done.
Qed.

(** C3 (switchScene to the active scene): the call returns, the manager is
    the same (active name, registry, every unit), no object is created or
    changed, so the counts are the same, and the only thing emitted is the
    console line: no camera or lighting call. *)
Theorem switchScene_active_is_noop (m : SceneManager.t) (w : World) (n : string) :
  active_registered m ->
  SceneManager.currentSceneName m = Some n ->
  let r := SceneManager.switchScene n m w in
  r.1.1 = Return tt /\ r.1.2 = m /\ same_store w r.2 /\
  trace r.2 = trace w ++ [console_log ("Already in scene '" +:+ n +:+ "'")] /\
  (forall k u, registered m k = Some u ->
               getModelCount u r.2 = getModelCount u w /\
               scene_children u r.2 = scene_children u w).
Proof.
  intros Hinv Hcur. simpl.
  destruct (Hinv n Hcur) as [u Hu].
  rewrite switchScene_active by eauto using hasOwnProperty_truthy. simpl. repeat split.
Qed.

(** C4 (switching away and back): with [a] active and [b] another
    registered, initialized scene, [switchScene b] then [switchScene a]
    both return; in between [b] is active; at the end the manager is the
    one before (so [a] is active, and its unit has the same scene graph
    handle and the same objects), and no object was created, changed or
    disposed on the way, so [a] has the model count it had. *)
Theorem switchScene_there_and_back (m : SceneManager.t) (w : World) (a b : string)
  (ua ub : SceneUnit) :
  SceneManager.currentSceneName m = Some a ->
  registered m a = Some ua ->
  registered m b = Some ub ->
  a <> b ->
  initialized ua -> initialized ub ->
  let r1 := SceneManager.switchScene b m w in
  let r2 := SceneManager.switchScene a r1.1.2 r1.2 in
  r1.1.1 = Return tt /\
  SceneManager.currentSceneName r1.1.2 = Some b /\
  SceneManager.scenes r1.1.2 = SceneManager.scenes m /\
  SceneManager.units r1.1.2 = SceneManager.units m /\
  same_store w r1.2 /\
  r2.1.1 = Return tt /\
  r2.1.2 = m /\
  same_store w r2.2 /\
  getModelCount ua r2.2 = getModelCount ua w /\
  scene_children ua r2.2 = scene_children ua w.
Proof.
  intros Hcur Ha Hb Hab [_ Hsa] [_ Hsb]. simpl.
  pose proof (getCurrentScene_registered m w a ua Hcur Ha) as Hc.
  pose proof Ha as Ha'. pose proof Hb as Hb'.
  apply registered_Some in Ha' as (ra & Hra & Hua).
  apply registered_Some in Hb' as (rb & Hrb & Hub).
  destruct (switchScene_other b rb ub m w Hc (scene_named_own m b rb ub Hrb Hub) Hub Hsb)
    as (w1 & E1 & S1); [congruence|].
  rewrite E1. simpl.
  destruct (switchScene_other a ra ua (SceneManager.set_currentSceneName (Some b) m) w1)
    as (w2 & E2 & S2).
  - apply (getCurrentScene_registered _ w1 b ub); [done|].
    apply registered_Some. by exists rb.
  - by apply (scene_named_own _ a ra ua).
  - done.
  - done.
  - simpl. congruence.
  - rewrite E2. simpl.
    assert (same_store w w2) as S by (by eapply same_store_trans).
    repeat split; try apply S1; try apply S.
    + destruct m; simpl in *. by subst.
    + by apply same_store_getModelCount.
    + unfold scene_children. destruct S as (-> & _). done.
Qed.

(** *** Model operations without an active scene *)

Lemma loadModel_no_active (m : SceneManager.t) (w : World) (ty : string) :
  SceneManager.activeScene m = None ->
  SceneManager.loadModelIntoCurrentScene ty m w
  = (Throw (Error "No active scene to load model into"), m,
     emit (console_error ("Failed to load model '" +:+ ty +:+ "' into current scene:")
             (Error "No active scene to load model into")) w).
Proof.
  intros Hact. unfold SceneManager.loadModelIntoCurrentScene, try_catch, bind, get_this.
  rewrite Hact. reflexivity.
Qed.

(** C2, as stated, fails for loading: on a fresh manager, with no active
    scene, [loadModelIntoCurrentScene] throws. *)
Lemma loadModel_without_active_scene_throws :
  SceneManager.activeScene SceneManager.new = None /\
  (SceneManager.loadModelIntoCurrentScene "cube" SceneManager.new emptyWorld).1.1
  = Throw (Error "No active scene to load model into").
Proof. split; reflexivity. Qed.

(** C2, amended (model operations with no active scene): removing a model
    and clearing the models log a warning and return; loading a model
    throws the error "No active scene to load model into", logged with
    [console.error].  In all three cases the manager, with every unit, and
    the object store are left as they were. *)
Theorem model_operations_without_active_scene (m : SceneManager.t) (w : World)
  (ty : string) :
  SceneManager.activeScene m = None ->
  SceneManager.removeModelFromCurrentScene ty m w
  = (Return tt, m, emit (console_warn "No active scene to remove model from") w)
  /\
  SceneManager.clearCurrentSceneModels m w
  = (Return tt, m, emit (console_warn "No active scene to clear models from") w)
  /\
  SceneManager.loadModelIntoCurrentScene ty m w
  = (Throw (Error "No active scene to load model into"), m,
     emit (console_error ("Failed to load model '" +:+ ty +:+ "' into current scene:")
             (Error "No active scene to load model into")) w)
  /\
  (forall e, same_store w (emit e w)).
Proof.
  intros Hact. repeat split.
  - unfold SceneManager.removeModelFromCurrentScene, bind, get_this. by rewrite Hact.
  - unfold SceneManager.clearCurrentSceneModels, bind, get_this. by rewrite Hact.
  - by apply loadModel_no_active.
Qed.

Lemma model_operations_without_active_scene_witness :
  SceneManager.activeScene SceneManager.new = None /\
  SceneManager.removeModelFromCurrentScene "cube" SceneManager.new emptyWorld
  = (Return tt, SceneManager.new,
     emit (console_warn "No active scene to remove model from") emptyWorld).
Proof.
  split; [reflexivity|].
  apply (model_operations_without_active_scene SceneManager.new emptyWorld "cube").
  reflexivity.
Defined.

(** *** Switching to a scene whose unit has no scene graph *)

(** C10, as stated, fails for the active scene: after [init], the unit of the
    active scene "scene1" is disposed by its holder; it is still registered
    and its [getScene()] is null, yet [switchScene("scene1")] returns. *)
Lemma switchScene_active_null_scene_returns :
  let s := disposeRegistered "scene1" started in
  SceneManager.currentSceneName s.1 = Some "scene1" /\
  (exists u, registered s.1 "scene1" = Some u /\ getScene u = None) /\
  (SceneManager.switchScene "scene1" s.1 s.2).1.1 = Return tt.
Proof.
  cbv zeta. split; [|split].
  - vm_compute. reflexivity.
  - eexists. split; vm_compute; reflexivity.
  - vm_compute. reflexivity.
Qed.

(** C10, amended (switching to a registered scene whose unit's
    [getScene()] is null): when the name is not the active one,
    [switchScene] throws and the manager is as before (same active name,
    same registry, same units); only two console lines are emitted, so no
    camera or lighting preset was applied.  The error is "not properly
    initialized", unless reading the current scene, which comes first in
    [performSceneTransition], has thrown already.  When the name is the
    active one, [switchScene] returns at once, again changing nothing. *)
Theorem switchScene_null_scene_is_atomic (m : SceneManager.t) (w : World) (n : string)
  (u : SceneUnit) :
  registered m n = Some u ->
  getScene u = None ->
  (SceneManager.currentSceneName m <> Some n ->
   let e := thrown (SceneManager.getCurrentScene m w).1.1
              (Error ("Scene '" +:+ n +:+ "' not properly initialized")) in
   SceneManager.switchScene n m w
   = (Throw e, m,
      emit (console_error ("Failed to switch to scene '" +:+ n +:+ "':") e)
        (emit (console_log ("Switching to scene '" +:+ n +:+ "'...")) w)))
  /\
  (SceneManager.currentSceneName m = Some n ->
   SceneManager.switchScene n m w
   = (Return tt, m, emit (console_log ("Already in scene '" +:+ n +:+ "'")) w)).
Proof.
  intros Hu Hnull. split; intros Hcur.
  - by apply switchScene_null_scene with u.
  - apply switchScene_active; [done|by apply hasOwnProperty_truthy with u].
Qed.

Lemma switchScene_null_scene_is_atomic_witness :
  let s := after (@perform evalRuntime (OpAddScene "lobby" (NewUnit Scene1Class))
                    SceneManager.new emptyWorld) in
  registered s.1 "lobby" = Some Scene1.new /\
  getScene Scene1.new = None /\
  SceneManager.currentSceneName s.1 <> Some "lobby" /\
  (SceneManager.switchScene "lobby" s.1 s.2).1.1
  = Throw (Error "Scene 'lobby' not properly initialized").
Proof.
  cbv zeta.
  assert (registered
            (after (@perform evalRuntime (OpAddScene "lobby" (NewUnit Scene1Class))
                      SceneManager.new emptyWorld)).1 "lobby" = Some Scene1.new) as Hu
    by (vm_compute; reflexivity).
  assert (SceneManager.currentSceneName
            (after (@perform evalRuntime (OpAddScene "lobby" (NewUnit Scene1Class))
                      SceneManager.new emptyWorld)).1 <> Some "lobby") as Hcur
    by (vm_compute; discriminate).
  split; [exact Hu|]. split; [reflexivity|]. split; [exact Hcur|].
  pose proof (proj1 (switchScene_null_scene_is_atomic _
                       (after (@perform evalRuntime (OpAddScene "lobby" (NewUnit Scene1Class))
                                 SceneManager.new emptyWorld)).2
                       "lobby" Scene1.new Hu eq_refl) Hcur) as H.
  cbv zeta in H. rewrite H. vm_compute. reflexivity.
Defined.

(** *** The properties at work on the started manager *)

Lemma started_active_registered : active_registered started.1.
Proof.
  intros n Hn. vm_compute in Hn. injection Hn as <-.
  eexists. vm_compute. reflexivity.
Qed.

Lemma switchScene_active_is_noop_witness :
  active_registered started.1 /\
  SceneManager.currentSceneName started.1 = Some "scene1" /\
  (SceneManager.switchScene "scene1" started.1 started.2).1.2 = started.1.
Proof.
  assert (SceneManager.currentSceneName started.1 = Some "scene1") as Hcur
    by (vm_compute; reflexivity).
  split; [exact started_active_registered|]. split; [exact Hcur|].
  pose proof (switchScene_active_is_noop started.1 started.2 "scene1"
                started_active_registered Hcur) as H.
  cbv zeta in H. destruct H as (_ & H & _). exact H.
Defined.

Lemma switchScene_there_and_back_witness :
  let ua := mkSceneUnit Scene1Class (Some 0) [1; 2; 3; 4; 5; 6] true [] in
  let ub := mkSceneUnit Scene2Class (Some 9) [10; 11; 12; 13; 14; 15; 21; 25; 46; 59]
              true [] in
  SceneManager.currentSceneName started.1 = Some "scene1" /\
  registered started.1 "scene1" = Some ua /\
  registered started.1 "scene2" = Some ub /\
  initialized ua /\ initialized ub /\
  (SceneManager.switchScene "scene1"
     (SceneManager.switchScene "scene2" started.1 started.2).1.2
     (SceneManager.switchScene "scene2" started.1 started.2).2).1.2 = started.1.
Proof.
  cbv zeta.
  assert (SceneManager.currentSceneName started.1 = Some "scene1") as Hcur
    by (vm_compute; reflexivity).
  assert (registered started.1 "scene1"
          = Some (mkSceneUnit Scene1Class (Some 0) [1; 2; 3; 4; 5; 6] true [])) as Ha
    by (vm_compute; reflexivity).
  assert (registered started.1 "scene2"
          = Some (mkSceneUnit Scene2Class (Some 9)
                    [10; 11; 12; 13; 14; 15; 21; 25; 46; 59] true [])) as Hb
    by (vm_compute; reflexivity).
  assert (initialized (mkSceneUnit Scene1Class (Some 0) [1; 2; 3; 4; 5; 6] true [])) as Ia
    by (split; [reflexivity|by eexists]).
  assert (initialized (mkSceneUnit Scene2Class (Some 9)
                         [10; 11; 12; 13; 14; 15; 21; 25; 46; 59] true [])) as Ib
    by (split; [reflexivity|by eexists]).
  split; [exact Hcur|]. split; [exact Ha|]. split; [exact Hb|].
  split; [exact Ia|]. split; [exact Ib|].
  assert ("scene1" <> "scene2") as Hne by discriminate.
  pose proof (switchScene_there_and_back started.1 started.2 "scene1" "scene2" _ _
                Hcur Ha Hb Hne Ia Ib) as H.
  cbv zeta in H. destruct H as (_ & _ & _ & _ & _ & _ & H & _). exact H.
Defined.

Lemma removeScene_inherited_name_reports_removal_witness :
  "toString" ∈ Object_prototype_names /\
  SceneManager.hasScene started.1 "toString" = Return false /\
  SceneManager.getAvailableScenes started.1 = ["scene1"; "scene2"] /\
  SceneManager.removeScene "toString" started.1 started.2
  = (Return tt, started.1,
     emit (console_log "Scene 'toString' removed successfully")
       (emit (console_log "Removing scene 'toString'...") started.2)).
Proof.
  assert ("toString" ∈ Object_prototype_names) as Hin
    by (unfold Object_prototype_names; set_solver).
  assert (hasOwnProperty (SceneManager.scenes started.1) "toString" = false) as Hn
    by (vm_compute; reflexivity).
  assert (proto (SceneManager.scenes started.1) = None) as Hp by (vm_compute; reflexivity).
  assert (SceneManager.currentSceneName started.1 <> Some "toString") as Hcur
    by (vm_compute; discriminate).
  split; [exact Hin|]. split; [vm_compute; reflexivity|]. split; [vm_compute; reflexivity|].
  exact (removeScene_inherited_name_reports_removal started.1 started.2 "toString"
           Hin Hn Hp Hcur).
Defined.

(** C1 at the failing input: after [init], [addScene("__proto__", new
    Scene1())] makes the new unit the prototype of the registry and adds no
    key; [switchScene("__proto__")] then finds the unit through the
    prototype chain and makes [__proto__] the active name, which is no key
    of the registry: [hasScene] denies it and [getAvailableScenes] does not
    list it. *)
Lemma active_name_not_a_key_after_proto :
  let ops := [OpInit (Some 1) (Some 2) (Some 3);
              OpAddScene "__proto__" (NewUnit Scene1Class);
              OpSwitchScene "__proto__"] in
  exists s, last (@states_after evalRuntime ops (SceneManager.new, emptyWorld)) = Some s /\
    SceneManager.currentSceneName s.1 = Some "__proto__" /\
    SceneManager.hasScene s.1 "__proto__" = Return false /\
    SceneManager.getAvailableScenes s.1 = ["scene1"; "scene2"] /\
    registered s.1 "__proto__" = None.
Proof.
  cbv zeta. eexists. split; [vm_compute; reflexivity|].
  repeat split; vm_compute; reflexivity.
Qed.
(** *** Loaded models and static decor *)

Lemma is_loaded_model_alter (f : Object3D -> Object3D) (i : ObjId)
  (h : gmap ObjId Object3D) (id : ObjId) :
  (forall o, userData (f o) = userData o) ->
  is_loaded_model (alter f i h) id = is_loaded_model h id.
Proof.
  intros Hf. unfold is_loaded_model.
  destruct (decide (i = id)) as [->|Hne].
  - rewrite lookup_alter_eq. destruct (h !! id); simpl; [by rewrite Hf|done].
  - by rewrite lookup_alter_ne.
Qed.

Lemma is_loaded_model_of_type_alter (f : Object3D -> Object3D) (i : ObjId)
  (h : gmap ObjId Object3D) (ty : string) (id : ObjId) :
  (forall o, userData (f o) = userData o) ->
  is_loaded_model_of_type (alter f i h) ty id = is_loaded_model_of_type h ty id.
Proof.
  intros Hf. unfold is_loaded_model_of_type.
  destruct (decide (i = id)) as [->|Hne].
  - rewrite lookup_alter_eq. destruct (h !! id); simpl; [by rewrite Hf|done].
  - by rewrite lookup_alter_ne.
Qed.

Lemma userData_dispose_resources (o : Object3D) :
  userData (dispose_resources o) = userData o.
Proof. done. Qed.

Lemma userData_with_children (f : list ObjId -> list ObjId) (o : Object3D) :
  userData (with_children f o) = userData o.
Proof. done. Qed.

Lemma filter_ext_pred {A} (p q : A -> bool) (l : list A) :
  (forall a, p a = q a) -> List.filter p l = List.filter q l.
Proof.
  intros Hpq. induction l as [|a l IH]; simpl; [done|]. by rewrite Hpq, IH.
Qed.

Lemma is_loaded_model_clear_all (s : ObjId) (l : list ObjId) (h : gmap ObjId Object3D)
  (id : ObjId) :
  is_loaded_model (clear_all s l h) id = is_loaded_model h id.
Proof.
  revert h. induction l as [|a l IH]; intros h; [done|].
  change (clear_all s (a :: l) h)
    with (clear_all s l (alter dispose_resources a
                           (alter (with_children (remove_child a)) s h))).
  rewrite IH, !is_loaded_model_alter; done.
Qed.

Lemma clear_all_lookup_other (s : ObjId) (l : list ObjId) (h : gmap ObjId Object3D)
  (id : ObjId) :
  id <> s -> id ∉ l -> clear_all s l h !! id = h !! id.
Proof.
  intros Hs. revert h. induction l as [|a l IH]; intros h Hl; [done|].
  change (clear_all s (a :: l) h)
    with (clear_all s l (alter dispose_resources a
                           (alter (with_children (remove_child a)) s h))).
  apply not_elem_of_cons in Hl as [Ha Hl].
  rewrite IH, !lookup_alter_ne by done. done.
Qed.

Lemma forEach_clear (s : ObjId) (l : list ObjId) (i : nat) (u : SceneUnit) (w : World) :
  scene u = Some s ->
  forEach_from i (fun model _ => scene_remove model ;; dispose_object model) l u w
  = (Return tt, u, set_heap (clear_all s l) w).
Proof.
  intros Hs. revert i w. induction l as [|a l IH]; intros i w; simpl.
  - by destruct w.
  - unfold bind at 1. unfold bind at 1. unfold scene_remove at 1, bind at 1, get_this.
    rewrite Hs. unfold Object3D_remove, dispose_object, update_object, set_world.
    rewrite IH. by destruct w.
Qed.

Lemma filter_filter_negb {A} (p : A -> bool) (l : list A) :
  List.filter p (List.filter (fun a => negb (p a)) l) = [].
Proof.
  induction l as [|a l IH]; simpl; [done|].
  destruct (p a) eqn:Hp; simpl; [done|]. by rewrite Hp.
Qed.

Lemma filter_idemp {A} (p : A -> bool) (l : list A) :
  List.filter p (List.filter p l) = List.filter p l.
Proof.
  induction l as [|a l IH]; simpl; [done|].
  destruct (p a) eqn:Hp; simpl; [by rewrite Hp, IH|done].
Qed.

Lemma unit_clearModels_spec (u : SceneUnit) (w : World) (s : ObjId) :
  scene u = Some s ->
  exists w',
    unit_clearModels u w = (Return tt, set_objects (staticDecor u w) u, w') /\
    heap w' = clear_all s (List.filter (is_loaded_model (heap w)) (objects u)) (heap w) /\
    nextId w' = nextId w.
Proof.
  intros Hs.
  unfold unit_clearModels, dispatch, Scene1.clearModels, Scene2.clearModels, forEach.
  destruct (unitClass u); unfold bind at 1, get_this; unfold bind at 1, get_world;
    unfold bind at 1; rewrite (forEach_clear s) by done;
    unfold bind, get_this, get_world, set_this, log, set_world, staticDecor;
    rewrite (filter_ext_pred _ (fun id => negb (is_loaded_model (heap w) id)))
      by (intros a; cbn [heap set_heap]; by rewrite is_loaded_model_clear_all);
    eexists; (split; [reflexivity|split; reflexivity]).
Qed.

(** *** The unit of the active scene *)

(** Under which names the registry yields a unit: under a key that holds
    it, or under [__proto__] when the unit is the prototype. *)
Lemma scene_named_VUnit (m : SceneManager.t) (n : string) (r : UnitId) :
  SceneManager.scene_named m n = VUnit r <->
  is_Some (SceneManager.units m !! r) /\
  (own_get n (own (SceneManager.scenes m)) = Some r \/
   own_get n (own (SceneManager.scenes m)) = None /\ n = "__proto__" /\
   proto (SceneManager.scenes m) = Some r).
Proof.
  unfold SceneManager.scene_named, get_property, prototype_unit.
  destruct (own_get n (own (SceneManager.scenes m))) as [r'|].
  - destruct (SceneManager.units m !! r') as [u|] eqn:E.
    + split.
      * intros [= <-]. split; [by eexists|by left].
      * intros [_ [[= <-]|[[=] _]]]. done.
    + split; [done|]. intros [[u Hu] [[= <-]|[[=] _]]]. congruence.
  - case_bool_decide as Hn.
    + destruct (proto (SceneManager.scenes m)) as [p|]; simpl.
      * destruct (SceneManager.units m !! p) as [u|] eqn:E; simpl.
        -- split.
           ++ intros [= <-]. split; [by eexists|by right].
           ++ intros [_ [[=]|(_ & _ & [= <-])]]. done.
        -- split; [done|]. intros [[u Hu] [[=]|(_ & _ & [= <-])]]. congruence.
      * split; [done|]. intros [_ [[=]|(_ & _ & [=])]].
    + split.
      * destruct (_ ≫= _) as [v|] eqn:Ev.
        -- intros ->. exfalso.
           destruct (proto (SceneManager.scenes m)) as [p|]; simpl in Ev; [|done].
           destruct (SceneManager.units m !! p) as [u|]; simpl in Ev; [|done].
           by apply (unit_property_not_unit _ _ _ r) in Ev.
        -- by case_bool_decide.
      * intros [_ [[=]|(_ & ? & _)]]. done.
Qed.

(** A call on a unit does not change what the registry yields as units. *)
Lemma scene_named_set_units (m : SceneManager.t) (n : string) (r r' : UnitId)
  (u' : SceneUnit) :
  SceneManager.scene_named m n = VUnit r ->
  SceneManager.scene_named (SceneManager.set_units (insert r' u') m) n = VUnit r.
Proof.
  rewrite !scene_named_VUnit. simpl. intros [[u Hu] Hn]. split; [|done].
  destruct (decide (r' = r)) as [->|Hne].
  - rewrite lookup_insert_eq. by eexists.
  - rewrite lookup_insert_ne by done. by eexists.
Qed.

Lemma activeScene_unit (m : SceneManager.t) (n : string) (r : UnitId) :
  SceneManager.currentSceneName m = Some n -> n <> "" ->
  SceneManager.scene_named m n = VUnit r ->
  SceneManager.activeScene m = Some (n, VUnit r).
Proof.
  intros Hcur Hne Hn. unfold SceneManager.activeScene.
  rewrite Hcur, bool_decide_false, Hn by done. reflexivity.
Qed.

(** The active scene's model count, read through the manager. *)
Lemma getCurrentSceneModelCount_unit (m : SceneManager.t) (w : World) (n : string)
  (r : UnitId) (u : SceneUnit) :
  SceneManager.currentSceneName m = Some n -> n <> "" ->
  SceneManager.scene_named m n = VUnit r ->
  SceneManager.units m !! r = Some u ->
  SceneManager.getCurrentSceneModelCount m w = (Return (getModelCount u w), m, w).
Proof.
  intros Hcur Hne Hn Hu.
  unfold SceneManager.getCurrentSceneModelCount, bind at 1, get_this.
  rewrite (activeScene_unit m n r) by done.
  rewrite (invoke_unit _ _ _ _ _ _ r Hn).
  erewrite call_result by (done || reflexivity).
  by rewrite set_units_insert_id.
Qed.

(** C7, as stated, fails for a scene registered under the empty name: after
    [init], a new [Scene1] is added as [""] (and so initialized), its holder
    loads a cube into it, and [switchScene("")] makes it the current scene.
    [clearCurrentSceneModels] then only warns: the scene keeps its loaded
    model. *)
Lemma clearCurrentSceneModels_empty_name_warns :
  let s1 := after (@perform evalRuntime (OpAddScene "" (NewUnit Scene1Class))
                     started.1 started.2) in
  let s2 := loadRegistered "" "cube" s1 in
  let s3 := after (SceneManager.switchScene "" s2.1 s2.2) in
  let r := SceneManager.clearCurrentSceneModels s3.1 s3.2 in
  SceneManager.currentSceneName s3.1 = Some "" /\
  (exists u, registered s3.1 "" = Some u /\ initialized u /\ getModelCount u s3.2 = 1 /\
             registered r.1.2 "" = Some u /\ getModelCount u r.2 = 1) /\
  r = (Return tt, s3.1, emit (console_warn "No active scene to clear models from") s3.2).
Proof.
  cbv zeta. split; [vm_compute; reflexivity|]. split.
  - eexists. split; [vm_compute; reflexivity|]. split.
    + split; [reflexivity|by eexists].
    + split; [vm_compute; reflexivity|]. split; vm_compute; reflexivity.
  - vm_compute. reflexivity.
Qed.

(** C7, amended (clearCurrentSceneModels): on an active scene whose name is
    not the empty string, with an initialized unit, the call returns, the
    scene then has no loaded model, and its static decor, the objects not
    flagged as loaded models, is the same list of the same objects: the
    unit's object list is exactly the former decor, and no decor object was
    touched in the store. *)
Theorem clearCurrentSceneModels_keeps_decor (m : SceneManager.t) (w : World) (n : string)
  (r : UnitId) (u : SceneUnit) :
  SceneManager.currentSceneName m = Some n ->
  n <> "" ->
  SceneManager.scene_named m n = VUnit r ->
  SceneManager.units m !! r = Some u ->
  initialized u ->
  let res := SceneManager.clearCurrentSceneModels m w in
  res.1.1 = Return tt /\
  SceneManager.currentSceneName res.1.2 = Some n /\
  SceneManager.scene_named res.1.2 n = VUnit r /\
  (SceneManager.getCurrentSceneModelCount res.1.2 res.2).1.1 = Return 0 /\
  exists u',
    SceneManager.units res.1.2 !! r = Some u' /\
    getModelCount u' res.2 = 0 /\
    objects u' = staticDecor u w /\
    staticDecor u' res.2 = staticDecor u w /\
    length (staticDecor u' res.2) = length (staticDecor u w) /\
    (forall id, id ∈ staticDecor u w -> scene u <> Some id ->
                heap res.2 !! id = heap w !! id).
Proof.
  intros Hcur Hne Hn Hu [_ [s Hs]]. cbv zeta.
  destruct (unit_clearModels_spec u w s Hs) as (w' & Hc & Hh & Hnx).
  set (u' := set_objects (staticDecor u w) u) in *.
  set (m' := SceneManager.set_units (insert r u') m).
  assert (SceneManager.clearCurrentSceneModels m w = (Return tt, m', w')) as ->.
  { unfold SceneManager.clearCurrentSceneModels, bind at 1, get_this.
    rewrite (activeScene_unit m n r) by done.
    rewrite (invoke_unit _ _ _ _ _ _ r Hn).
    by rewrite (call_result _ _ _ _ _ u _ _ _ Hu Hc). }
  cbn [fst snd].
  assert (SceneManager.scene_named m' n = VUnit r) as Hn'
    by (by apply scene_named_set_units).
  assert (SceneManager.units m' !! r = Some u') as Hu' by (simpl; apply lookup_insert_eq).
  assert (staticDecor u' w' = staticDecor u w) as Hdecor.
  { unfold staticDecor at 1. simpl. rewrite Hh.
    rewrite (filter_ext_pred _ (fun id => negb (is_loaded_model (heap w) id)))
      by (intros a; by rewrite is_loaded_model_clear_all).
    apply filter_idemp. }
  assert (getModelCount u' w' = 0) as Hcount.
  { unfold getModelCount. simpl. rewrite Hh.
    rewrite (filter_ext_pred _ (is_loaded_model (heap w)))
      by (intros a; by rewrite is_loaded_model_clear_all).
    unfold staticDecor. by rewrite filter_filter_negb. }
  split; [done|]. split; [exact Hcur|]. split; [exact Hn'|]. split.
  - rewrite (getCurrentSceneModelCount_unit m' w' n r u') by done. simpl.
    by rewrite Hcount.
  - exists u'. split; [done|]. split; [done|]. split; [done|].
    split; [done|]. split; [by rewrite Hdecor|].
    intros id Hid Hsid. rewrite Hh. apply clear_all_lookup_other; [congruence|].
    unfold staticDecor in Hid. apply list_elem_of_In, filter_In in Hid as [_ Hid].
    intros Hin%list_elem_of_In%filter_In. destruct Hin as [_ Hin].
    by rewrite Hin in Hid.
Qed.
(** *** Loading and removing a model *)

Lemma is_loaded_model_loaded_heap (obj : Object3D) (pos : Vector3) (ty : string)
  (s k : ObjId) (h : gmap ObjId Object3D) (id : ObjId) :
  is_loaded_model (loaded_heap obj pos ty s k h) id
  = if decide (id = k) then true else is_loaded_model h id.
Proof.
  unfold loaded_heap. rewrite is_loaded_model_alter by done.
  unfold is_loaded_model. destruct (decide (id = k)) as [->|Hne].
  - by rewrite lookup_alter_eq, lookup_alter_eq, lookup_insert_eq.
  - by rewrite !lookup_alter_ne, lookup_insert_ne.
Qed.

Lemma is_loaded_model_of_type_loaded_heap (obj : Object3D) (pos : Vector3)
  (ty ty' : string) (s k : ObjId) (h : gmap ObjId Object3D) (id : ObjId) :
  is_loaded_model_of_type (loaded_heap obj pos ty s k h) ty' id
  = if decide (id = k) then bool_decide (ty = ty')
    else is_loaded_model_of_type h ty' id.
Proof.
  unfold loaded_heap. rewrite is_loaded_model_of_type_alter by done.
  unfold is_loaded_model_of_type. destruct (decide (id = k)) as [->|Hne].
  - rewrite lookup_alter_eq, lookup_alter_eq, lookup_insert_eq. simpl.
    repeat case_bool_decide; congruence.
  - by rewrite !lookup_alter_ne, lookup_insert_ne.
Qed.

Lemma is_loaded_model_removed_heap (s model : ObjId) (h : gmap ObjId Object3D)
  (id : ObjId) :
  is_loaded_model (removed_heap s model h) id = is_loaded_model h id.
Proof. unfold removed_heap. by rewrite !is_loaded_model_alter. Qed.

Lemma children_of_removed_heap (s model : ObjId) (h : gmap ObjId Object3D) :
  children_of (removed_heap s model h) s = remove_child model (children_of h s).
Proof.
  unfold children_of, removed_heap.
  destruct (decide (model = s)) as [->|Hne].
  - rewrite !lookup_alter_eq. by destruct (h !! s).
  - rewrite lookup_alter_ne, lookup_alter_eq by done. by destruct (h !! s).
Qed.

Lemma unit_loadModel_cube (u : SceneUnit) (w : World) (s : ObjId)
  (loader : option ModelLoader) :
  scene u = Some s ->
  exists obj pos w',
    unit_loadModel loader "cube" u w
    = (Return tt, set_objects (objects u ++ [nextId w]) u, w') /\
    heap w' = loaded_heap obj pos "cube" s (nextId w) (heap w) /\
    nextId w' = S (nextId w).
Proof.
  intros Hs.
  unfold unit_loadModel, dispatch, Scene1.loadModel, Scene2.loadModel.
  destruct (unitClass u).
  - unfold try_catch, bind, log, set_world, Scene1.createStyledCube, new_Mesh,
      new_Object3D, Scene1.placeModel, bind, get_this, get_world, update_object,
      set_world, scene_add, bind, get_this, objects_push, set_this, log, set_world.
    simpl. rewrite Hs. unfold Object3D_add, update_object, set_world. simpl.
    eexists _, _, _. split; [reflexivity|]. split; reflexivity.
  - unfold try_catch, bind, log, set_world, Scene2.createAdvancedCube, new_Mesh,
      new_Object3D, Scene2.placeModel, bind, get_this, get_world, update_object,
      set_world, scene_add, bind, get_this, objects_push, set_this, log, set_world.
    simpl. rewrite Hs. unfold Object3D_add, update_object, set_world. simpl.
    eexists _, _, _. split; [reflexivity|]. split; reflexivity.
Qed.

Lemma findIndex_Some {A} (p : A -> bool) (l : list A) (i : nat) :
  findIndex p l = Some i ->
  exists a, l !! i = Some a /\ p a = true /\
            forall j b, j < i -> l !! j = Some b -> p b = false.
Proof.
  revert i. induction l as [|a l IH]; intros i; simpl; [discriminate|].
  destruct (p a) eqn:Hp.
  - intros [= <-]. exists a. repeat split; [done|]. intros j b Hj. lia.
  - destruct (findIndex p l) as [i'|]; simpl; [|discriminate].
    intros [= <-]. destruct (IH i' eq_refl) as (x & Hx & Hpx & Hlt).
    exists x. repeat split; [done..|].
    intros [|j] b Hj; simpl.
    + by intros [= <-].
    + apply Hlt. lia.
Qed.

Lemma findIndex_exists {A} (p : A -> bool) (l : list A) (a : A) :
  a ∈ l -> p a = true -> is_Some (findIndex p l).
Proof.
  induction l as [|b l IH]; intros Hin Hp; simpl.
  - by apply elem_of_nil in Hin.
  - destruct (p b) eqn:Hb; [by eexists|].
    apply elem_of_cons in Hin as [->|Hin]; [congruence|].
    destruct (IH Hin Hp) as [i ->]. by eexists.
Qed.

Lemma filter_delete_length {A} (p : A -> bool) (l : list A) (i : nat) (a : A) :
  l !! i = Some a -> p a = true ->
  S (length (List.filter p (delete i l))) = length (List.filter p l).
Proof.
  revert i. induction l as [|b l IH]; intros i; [done|].
  destruct i as [|i]; simpl.
  - intros [= ->] Hp. by rewrite Hp.
  - intros Hi Hp. destruct (p b); simpl; by rewrite <- (IH i).
Qed.

Lemma unit_removeModel_found (u : SceneUnit) (w : World) (s : ObjId) (ty : string)
  (i : nat) (model : ObjId) :
  scene u = Some s ->
  findIndex (is_loaded_model_of_type (heap w) ty) (objects u) = Some i ->
  objects u !! i = Some model ->
  exists w',
    unit_removeModel ty u w = (Return tt, set_objects (delete i (objects u)) u, w') /\
    heap w' = removed_heap s model (heap w) /\
    nextId w' = nextId w.
Proof.
  intros Hs Hi Hm.
  unfold unit_removeModel, dispatch, Scene1.removeModel, Scene2.removeModel.
  destruct (unitClass u);
    unfold bind at 1, get_this; unfold bind at 1, get_world; rewrite Hi, Hm;
    unfold bind, scene_remove, bind, get_this; rewrite Hs;
    unfold Object3D_remove, dispose_object, update_object, set_this, log, set_world;
    simpl; eexists; (split; [reflexivity|split; reflexivity]).
Qed.

Lemma is_loaded_model_of_type_loaded (h : gmap ObjId Object3D) (ty : string) (id : ObjId) :
  is_loaded_model_of_type h ty id = true -> is_loaded_model h id = true.
Proof.
  unfold is_loaded_model_of_type, is_loaded_model.
  destruct (h !! id); [|done]. by intros [? _]%andb_true_iff.
Qed.
Lemma count_after_load (obj : Object3D) (pos : Vector3) (ty : string) (s : ObjId)
  (u : SceneUnit) (w w1 : World) :
  objects_allocated u w ->
  heap w1 = loaded_heap obj pos ty s (nextId w) (heap w) ->
  getModelCount (set_objects (objects u ++ [nextId w]) u) w1 = S (getModelCount u w).
Proof.
  intros Halloc Hh. unfold getModelCount. simpl. rewrite Hh.
  rewrite List.filter_app, length_app. simpl.
  rewrite is_loaded_model_loaded_heap, decide_True by done. simpl.
  rewrite (List.filter_ext_in _ (is_loaded_model (heap w))); [lia|].
  intros a Ha. rewrite is_loaded_model_loaded_heap.
  rewrite decide_False; [done|].
  unfold objects_allocated in Halloc. rewrite Forall_forall in Halloc.
  apply list_elem_of_In in Ha. specialize (Halloc a Ha). lia.
Qed.

Lemma children_of_loaded_heap (obj : Object3D) (pos : Vector3) (ty : string)
  (s k : ObjId) (h : gmap ObjId Object3D) :
  s <> k -> is_Some (h !! s) ->
  children_of (loaded_heap obj pos ty s k h) s = children_of h s ++ [k].
Proof.
  intros Hne [o Ho]. unfold children_of, loaded_heap.
  rewrite lookup_alter_eq, !lookup_alter_ne, lookup_insert_ne, Ho by done. done.
Qed.

Lemma NoDup_delete_lookup {A} (l : list A) (i : nat) (a : A) :
  NoDup l -> l !! i = Some a -> a ∉ delete i l.
Proof.
  intros Hnd Hi [j Hj]%list_elem_of_lookup_1.
  destruct (decide (j < i)) as [Hlt|Hge].
  - rewrite list_lookup_delete_lt in Hj by done.
    pose proof (NoDup_lookup l i j a Hnd Hi Hj). lia.
  - rewrite list_lookup_delete_ge in Hj by lia.
    pose proof (NoDup_lookup l i (S j) a Hnd Hi Hj). lia.
Qed.

(** Once [parent.remove(child)] is done, the child is not among the
    children. *)
Lemma remove_child_absent (child : ObjId) (cs : list ObjId) :
  NoDup cs -> child ∉ remove_child child cs.
Proof.
  intros Hnd. unfold remove_child.
  destruct (list_find (fun c => c = child) cs) as [[i x]|] eqn:Hf.
  - apply list_find_Some in Hf as (Hi & -> & _). by apply NoDup_delete_lookup.
  - apply list_find_None in Hf. rewrite Forall_forall in Hf.
    intros Hin. by apply (Hf child).
Qed.

Lemma remove_child_last (child : ObjId) (cs : list ObjId) :
  child ∉ cs -> remove_child child (cs ++ [child]) = cs.
Proof.
  intros Hnin. unfold remove_child.
  destruct (list_find (fun c => c = child) (cs ++ [child])) as [[i x]|] eqn:Hf.
  - apply list_find_Some in Hf as (Hi & -> & _).
    destruct (decide (i < length cs)) as [Hlt|Hge].
    + rewrite lookup_app_l in Hi by done. destruct Hnin.
      by eapply list_elem_of_lookup_2.
    + apply lookup_lt_Some in Hi as Hlen. rewrite length_app in Hlen. simpl in Hlen.
      assert (i = length cs) as -> by lia.
      clear. induction cs as [|a l IH]; simpl; [done|]. by rewrite IH.
  - apply list_find_None in Hf. rewrite Forall_forall in Hf.
    destruct (Hf child); [set_solver|done].
Qed.

Lemma loadModelIntoCurrentScene_cube (m : SceneManager.t) (w : World) (n : string)
  (r : UnitId) (u : SceneUnit) (s : ObjId) :
  SceneManager.currentSceneName m = Some n -> n <> "" ->
  SceneManager.scene_named m n = VUnit r ->
  SceneManager.units m !! r = Some u ->
  scene u = Some s ->
  exists obj pos w1,
    SceneManager.loadModelIntoCurrentScene "cube" m w
    = (Return tt,
       SceneManager.set_units (insert r (set_objects (objects u ++ [nextId w]) u)) m,
       w1) /\
    heap w1 = loaded_heap obj pos "cube" s (nextId w) (heap w) /\
    nextId w1 = S (nextId w).
Proof.
  intros Hcur Hne Hn Hu Hs.
  unfold SceneManager.loadModelIntoCurrentScene, try_catch, bind at 1, get_this.
  rewrite (activeScene_unit m n r) by done.
  unfold bind at 1, log at 1, set_world.
  unfold bind at 1. rewrite (invoke_unit _ _ _ _ _ _ r Hn).
  destruct (unit_loadModel_cube u
              (emit (console_log ("Loading model '" +:+ "cube" +:+
                                  "' into current scene '" +:+ n +:+ "'...")) w)
              s (SceneManager.modelLoader m) Hs)
    as (obj & pos & w' & Hl & Hh & Hnx).
  rewrite (call_result _ _ _ _ _ u _ _ _ Hu Hl).
  exists obj, pos. eexists. split; [reflexivity|]. simpl. done.
Qed.

Lemma removeModelFromCurrentScene_found (m : SceneManager.t) (w : World) (n ty : string)
  (r : UnitId) (u : SceneUnit) (s : ObjId) (i : nat) (model : ObjId) :
  SceneManager.currentSceneName m = Some n -> n <> "" ->
  SceneManager.scene_named m n = VUnit r ->
  SceneManager.units m !! r = Some u ->
  scene u = Some s ->
  findIndex (is_loaded_model_of_type (heap w) ty) (objects u) = Some i ->
  objects u !! i = Some model ->
  exists w2,
    SceneManager.removeModelFromCurrentScene ty m w
    = (Return tt,
       SceneManager.set_units (insert r (set_objects (delete i (objects u)) u)) m, w2) /\
    heap w2 = removed_heap s model (heap w) /\
    nextId w2 = nextId w.
Proof.
  intros Hcur Hne Hn Hu Hs Hi Hm.
  unfold SceneManager.removeModelFromCurrentScene, bind at 1, get_this.
  rewrite (activeScene_unit m n r) by done.
  rewrite (invoke_unit _ _ _ _ _ _ r Hn).
  destruct (unit_removeModel_found u w s ty i model Hs Hi Hm) as (w2 & Hr & Hh & Hnx).
  rewrite (call_result _ _ _ _ _ u _ _ _ Hu Hr).
  by exists w2.
Qed.

(** C6, as stated, fails for a scene registered under the empty name: after
    [init], a new [Scene1] is added as [""] (and so initialized) and
    [switchScene("")] makes it the current scene.
    [loadModelIntoCurrentScene("cube")] then throws "No active scene to load
    model into", and the scene has the model count it had.  And the model
    that the removal takes away need not be the one just loaded: in
    [furnished], where the active scene has a cube (object 61) and a sphere
    (object 62) already, the cube loaded is object 63, and
    [removeModelFromCurrentScene("cube")] removes object 61 from the object
    list and from the scene graph; object 63 stays in both. *)
Lemma loadModel_empty_name_throws :
  let s1 := after (@perform evalRuntime (OpAddScene "" (NewUnit Scene1Class))
                     started.1 started.2) in
  let s2 := after (SceneManager.switchScene "" s1.1 s1.2) in
  let r := SceneManager.loadModelIntoCurrentScene "cube" s2.1 s2.2 in
  let r1 := SceneManager.loadModelIntoCurrentScene "cube" furnished.1 furnished.2 in
  let r2 := SceneManager.removeModelFromCurrentScene "cube" r1.1.2 r1.2 in
  (SceneManager.currentSceneName s2.1 = Some "" /\
   (exists u, registered s2.1 "" = Some u /\ initialized u /\
              registered r.1.2 "" = Some u /\
              getModelCount u r.2 = getModelCount u s2.2) /\
   r.1.1 = Throw (Error "No active scene to load model into")) /\
  (r1.1.1 = Return tt /\ r2.1.1 = Return tt /\
   objects <$> registered furnished.1 "scene1" = Some [1; 2; 3; 4; 5; 6; 61; 62] /\
   objects <$> registered r1.1.2 "scene1" = Some [1; 2; 3; 4; 5; 6; 61; 62; 63] /\
   objects <$> registered r2.1.2 "scene1" = Some [1; 2; 3; 4; 5; 6; 62; 63] /\
   (fun u => scene_children u r2.2) <$> registered r2.1.2 "scene1"
   = Some [1; 2; 3; 4; 5; 6; 7; 8; 62; 63]).
Proof.
  cbv zeta. split.
  - split; [vm_compute; reflexivity|]. split.
    + eexists. split; [vm_compute; reflexivity|]. split.
      * split; [reflexivity|by eexists].
      * split; vm_compute; reflexivity.
    + vm_compute. reflexivity.
  - repeat split; vm_compute; reflexivity.
Qed.

(** C6, amended (loading a cube, then removing a cube): on an active scene
    whose name is not the empty string, with an initialized unit, both calls
    return; after the load the scene has exactly one loaded model more, the
    new object, a loaded cube, being the last of the unit's objects and the
    last child of the scene graph; after the removal the scene has the count
    it started with.  The model removed is the first loaded cube of the
    object list: it is no longer in the object list nor among the children
    of the scene graph, and its resources are released.  When no cube was
    loaded before, that is the cube just loaded, and the object list and
    the children of the scene graph are the ones before the load.  The
    scene graph is an object of the store, and the unit's objects and the
    children of the scene graph are objects of the store listed once. *)
Theorem load_then_remove_cube (m : SceneManager.t) (w : World) (n : string)
  (r : UnitId) (u : SceneUnit) (s : ObjId) :
  SceneManager.currentSceneName m = Some n ->
  n <> "" ->
  SceneManager.scene_named m n = VUnit r ->
  SceneManager.units m !! r = Some u ->
  isInitialized u = true ->
  scene u = Some s ->
  s < nextId w -> is_Some (heap w !! s) ->
  objects_allocated u w -> NoDup (objects u) ->
  Forall (fun id => id < nextId w) (scene_children u w) -> NoDup (scene_children u w) ->
  let r1 := SceneManager.loadModelIntoCurrentScene "cube" m w in
  let r2 := SceneManager.removeModelFromCurrentScene "cube" r1.1.2 r1.2 in
  r1.1.1 = Return tt /\
  (SceneManager.getCurrentSceneModelCount r1.1.2 r1.2).1.1
  = Return (S (getModelCount u w)) /\
  r2.1.1 = Return tt /\
  (SceneManager.getCurrentSceneModelCount r2.1.2 r2.2).1.1
  = Return (getModelCount u w) /\
  exists u1 u2 i removed,
    SceneManager.units r1.1.2 !! r = Some u1 /\
    SceneManager.units r2.1.2 !! r = Some u2 /\
    getModelCount u1 r1.2 = S (getModelCount u w) /\
    getModelCount u2 r2.2 = getModelCount u w /\
    objects u1 = objects u ++ [nextId w] /\
    scene_children u1 r1.2 = scene_children u w ++ [nextId w] /\
    is_loaded_model_of_type (heap r1.2) "cube" (nextId w) = true /\
    findIndex (is_loaded_model_of_type (heap r1.2) "cube") (objects u1) = Some i /\
    objects u1 !! i = Some removed /\
    objects u2 = delete i (objects u1) /\
    (removed ∉ objects u2) /\
    scene_children u2 r2.2 = remove_child removed (scene_children u1 r1.2) /\
    (removed ∉ scene_children u2 r2.2) /\
    resources_disposed r2.2 removed /\
    ((forall id, id ∈ objects u -> is_loaded_model_of_type (heap w) "cube" id = false) ->
     removed = nextId w /\ objects u2 = objects u /\
     scene_children u2 r2.2 = scene_children u w).
Proof.
  intros Hcur Hne Hn Hu _ Hs Hslt Hsome Halloc Hnd Hcalloc Hcnd. cbv zeta.
  destruct (loadModelIntoCurrentScene_cube m w n r u s Hcur Hne Hn Hu Hs)
    as (obj & pos & w1 & -> & Hh1 & Hn1).
  cbn [fst snd].
  set (u1 := set_objects (objects u ++ [nextId w]) u).
  set (m1 := SceneManager.set_units (insert r u1) m).
  assert (SceneManager.scene_named m1 n = VUnit r) as Hn1'
    by (by apply scene_named_set_units).
  assert (SceneManager.units m1 !! r = Some u1) as Hu1 by (simpl; apply lookup_insert_eq).
  assert (SceneManager.currentSceneName m1 = Some n) as Hcur1 by exact Hcur.
  assert (is_loaded_model_of_type (heap w1) "cube" (nextId w) = true) as Hk.
  { rewrite Hh1, is_loaded_model_of_type_loaded_heap, decide_True by done.
    by apply bool_decide_eq_true. }
  assert (nextId w ∈ objects u1) as Hin by (simpl; set_solver).
  destruct (findIndex_exists _ _ _ Hin Hk) as [i Hi].
  destruct (findIndex_Some _ _ _ Hi) as (removed & Hrem & Hprem & Hmin).
  assert (scene u1 = Some s) as Hs1 by done.
  destruct (removeModelFromCurrentScene_found m1 w1 n "cube" r u1 s i removed
              Hcur1 Hne Hn1' Hu1 Hs1 Hi Hrem) as (w2 & -> & Hh2 & Hn2).
  cbn [fst snd].
  set (u2 := set_objects (delete i (objects u1)) u1).
  set (m2 := SceneManager.set_units (insert r u2) m1).
  assert (SceneManager.scene_named m2 n = VUnit r) as Hn2'
    by (by apply scene_named_set_units).
  assert (SceneManager.units m2 !! r = Some u2) as Hu2 by (simpl; apply lookup_insert_eq).
  assert (SceneManager.currentSceneName m2 = Some n) as Hcur2 by exact Hcur.
  assert (getModelCount u1 w1 = S (getModelCount u w)) as Hc1
    by (by eapply count_after_load).
  assert (getModelCount u2 w2 = getModelCount u w) as Hc2.
  { unfold getModelCount in *. cbn [objects u2 set_objects]. rewrite Hh2.
    rewrite (filter_ext_pred _ (is_loaded_model (heap w1)))
      by (intros a; apply is_loaded_model_removed_heap).
    pose proof (filter_delete_length (is_loaded_model (heap w1)) (objects u1) i removed
                  Hrem (is_loaded_model_of_type_loaded _ _ _ Hprem)) as Hlen.
    lia. }
  assert (scene_children u1 w1 = scene_children u w ++ [nextId w]) as Hch1.
  { unfold scene_children. cbn [scene u1 set_objects]. rewrite Hs, Hh1.
    apply children_of_loaded_heap; [lia|done]. }
  assert (scene_children u2 w2 = remove_child removed (scene_children u1 w1)) as Hch2.
  { unfold scene_children. cbn [scene u2 u1 set_objects]. rewrite Hs, Hh2.
    apply children_of_removed_heap. }
  assert (NoDup (objects u1)) as Hnd1.
  { cbn [objects u1 set_objects]. apply NoDup_app. split; [done|]. split; [|apply NoDup_singleton].
    intros x Hx ->%list_elem_of_singleton.
    unfold objects_allocated in Halloc. rewrite Forall_forall in Halloc.
    specialize (Halloc _ Hx). lia. }
  assert (nextId w ∉ scene_children u w) as Hfresh.
  { intros Hx. rewrite Forall_forall in Hcalloc. specialize (Hcalloc _ Hx). lia. }
  assert (NoDup (scene_children u1 w1)) as Hcnd1.
  { rewrite Hch1. apply NoDup_app. split; [done|]. split; [|apply NoDup_singleton].
    by intros x Hx ->%list_elem_of_singleton. }
  split; [done|]. split.
  { rewrite (getCurrentSceneModelCount_unit m1 w1 n r u1) by done. simpl. by rewrite Hc1. }
  split; [done|]. split.
  { rewrite (getCurrentSceneModelCount_unit m2 w2 n r u2) by done. simpl. by rewrite Hc2. }
  exists u1, u2, i, removed.
  split; [done|]. split; [done|]. split; [done|]. split; [done|].
  split; [done|]. split; [done|]. split; [done|]. split; [done|].
  split; [done|]. split; [done|]. split.
  { by apply NoDup_delete_lookup. }
  split; [done|]. split.
  { rewrite Hch2. by apply remove_child_absent. }
  split.
  { unfold is_loaded_model_of_type in Hprem.
    match type of Hprem with
    | match ?x with _ => _ end = _ => destruct x as [o|] eqn:Ho; [|discriminate Hprem]
    end.
    exists (dispose_resources
              (if decide (s = removed) then with_children (remove_child removed) o else o)).
    split; [|apply dispose_resources_disposed].
    rewrite Hh2. unfold removed_heap. rewrite lookup_alter_eq.
    destruct (decide (s = removed)) as [->|Hsr].
    - by rewrite lookup_alter_eq, Ho.
    - by rewrite lookup_alter_ne, Ho. }
  intros Hnone.
  assert (i = length (objects u)) as ->.
  { destruct (decide (i < length (objects u))) as [Hlt|Hge].
    - exfalso. cbn [objects u1 set_objects] in Hrem.
      rewrite lookup_app_l in Hrem by done.
      assert (removed ∈ objects u) as Hin' by (by eapply list_elem_of_lookup_2).
      specialize (Hnone removed Hin').
      rewrite Hh1, is_loaded_model_of_type_loaded_heap in Hprem.
      case_decide as Hrk.
      + unfold objects_allocated in Halloc. rewrite Forall_forall in Halloc.
        specialize (Halloc removed Hin'). lia.
      + congruence.
    - apply lookup_lt_Some in Hrem. cbn [objects u1 set_objects] in Hrem.
      rewrite length_app in Hrem. simpl in Hrem. lia. }
  assert (removed = nextId w) as ->.
  { cbn [objects u1 set_objects] in Hrem.
    rewrite lookup_app_r, Nat.sub_diag in Hrem by done. simpl in Hrem. congruence. }
  split; [done|]. split.
  - cbn [objects u1 u2 set_objects].
    clear. induction (objects u) as [|a l IH]; simpl; [done|]. by rewrite IH.
  - rewrite Hch2, Hch1. by apply remove_child_last.
Qed.
(** *** Initializing a unit *)

Section Triples.
Context {T : Type}.
Implicit Types P : T -> World -> Prop.

Lemma triple_trivial {A} (m : Method T A) :
  triple (fun _ _ => True) m (fun _ _ _ => True) (fun _ _ _ => True).
Proof. intros this w _. by destruct (m this w) as [[[a|e] this'] w']. Qed.

Lemma triple_bind {A B} P (m : Method T A) (k : A -> Method T B)
  (R : A -> T -> World -> Prop) (Q : B -> T -> World -> Prop)
  (E : JsError -> T -> World -> Prop) :
  triple P m R E -> (forall a, triple (R a) (k a) Q E) -> triple P (bind m k) Q E.
Proof.
  intros Hm Hk this w HP. unfold bind. specialize (Hm this w HP).
  destruct (m this w) as [[[a|e] this'] w']; [by apply Hk|done].
Qed.

Lemma triple_try_catch {A} P (m : Method T A) (h : JsError -> Method T A)
  (Q : A -> T -> World -> Prop) (E' E : JsError -> T -> World -> Prop) :
  triple P m Q E' -> (forall e, triple (E' e) (h e) Q E) -> triple P (try_catch m h) Q E.
Proof.
  intros Hm Hh this w HP. unfold try_catch. specialize (Hm this w HP).
  destruct (m this w) as [[[a|e] this'] w']; [done|by apply Hh].
Qed.

Lemma triple_set_this P (f : T -> T) (Q : unit -> T -> World -> Prop)
  (E : JsError -> T -> World -> Prop) :
  (forall this w, P this w -> Q tt (f this) w) -> triple P (set_this f) Q E.
Proof. intros H this w HP. by apply H. Qed.

End Triples.

Section Builds.
Context (n0 : nat) (h0 : gmap ObjId Object3D) (s0 : ObjId).

Lemma builds_weaken {A} (m : Method SceneUnit A) (phi psi : A -> Prop) :
  builds n0 h0 s0 m phi -> (forall a, phi a -> psi a) -> builds n0 h0 s0 m psi.
Proof.
  intros Hm Himp u w Hb. specialize (Hm u w Hb).
  destruct (m u w) as [[[a|e] u'] w']; [|done]. destruct Hm. split; auto.
Qed.

Lemma builds_bind {A B} (m : Method SceneUnit A) (k : A -> Method SceneUnit B)
  (phi : A -> Prop) (psi : B -> Prop) :
  builds n0 h0 s0 m phi ->
  (forall a, phi a -> builds n0 h0 s0 (k a) psi) ->
  builds n0 h0 s0 (bind m k) psi.
Proof.
  intros Hm Hk u w Hb. unfold bind. specialize (Hm u w Hb).
  destruct (m u w) as [[[a|e] u'] w']; [|done].
  destruct Hm as [Hb' Ha]. by apply Hk.
Qed.

Lemma builds_ret {A} (a : A) : builds n0 h0 s0 (ret a) (fun _ => True).
Proof. by intros u w Hb. Qed.

Lemma builds_get_this : builds n0 h0 s0 get_this (fun _ => True).
Proof. by intros u w Hb. Qed.

Lemma builds_get_world : builds n0 h0 s0 get_world (fun _ => True).
Proof. by intros u w Hb. Qed.

Lemma builds_set_world (f : World -> World) :
  (forall w, heap (f w) = heap w /\ nextId (f w) = nextId w) ->
  builds n0 h0 s0 (set_world f) (fun _ => True).
Proof.
  intros Hf u w (Hn & Hh & Hs). simpl. destruct (Hf w) as [Eh En].
  split; [|done]. unfold building. rewrite Eh, En. done.
Qed.

Lemma builds_log (msg : string) : builds n0 h0 s0 (log msg) (fun _ => True).
Proof. by apply builds_set_world. Qed.

Lemma builds_random `{Runtime} : builds n0 h0 s0 random (fun _ => True).
Proof. by intros u w Hb. Qed.

Lemma builds_new_Object3D (o : Object3D) :
  builds n0 h0 s0 (new_Object3D o) (fun id => n0 <= id).
Proof.
  intros u w (Hn & Hh & Hs). simpl. split; [|done].
  unfold building; simpl. split; [lia|]. split; [|done]. intros id Hid.
  rewrite lookup_insert_ne by lia. by apply Hh.
Qed.

Lemma builds_update_object (id : ObjId) (f : Object3D -> Object3D) :
  n0 <= id -> builds n0 h0 s0 (update_object id f) (fun _ => True).
Proof.
  intros Hid u w (Hn & Hh & Hs). simpl. split; [|done].
  unfold building; simpl. split; [done|]. split; [|done]. intros j Hj.
  rewrite lookup_alter_ne by lia. by apply Hh.
Qed.

Lemma builds_scene_add (id : ObjId) : builds n0 h0 s0 (scene_add id) (fun _ => True).
Proof.
  intros u w Hb. pose proof Hb as (Hn & Hh & Hs & Hs0).
  unfold scene_add, bind, get_this. rewrite Hs.
  by apply (builds_update_object s0 _ Hs0 u w).
Qed.

Lemma builds_objects_push (id : ObjId) :
  builds n0 h0 s0 (objects_push id) (fun _ => True).
Proof. by intros u w Hb. Qed.

Lemma builds_forEach_from {A} (l : list A) (f : A -> nat -> Method SceneUnit unit)
  (i : nat) :
  (forall a j, builds n0 h0 s0 (f a j) (fun _ => True)) ->
  builds n0 h0 s0 (forEach_from i f l) (fun _ => True).
Proof.
  intros Hf. revert i. induction l as [|a l IH]; intros i; simpl.
  - apply builds_ret.
  - eapply builds_bind; [apply Hf|]. intros _ _. apply IH.
Qed.

End Builds.

Ltac builds_step :=
  lazymatch goal with
  | |- builds _ _ _ (bind _ _) _ => eapply builds_bind; [|intros ? ?]
  | |- builds _ _ _ (ret _) _ => apply builds_ret
  | |- builds _ _ _ get_world _ => apply builds_get_world
  | |- builds _ _ _ get_this _ => apply builds_get_this
  | |- builds _ _ _ (log _) _ => apply builds_log
  | |- builds _ _ _ random _ => apply builds_random
  | |- builds _ _ _ (new_Object3D _) _ => apply builds_new_Object3D
  | |- builds _ _ _ (new_Mesh _ _ _ _ _) _ => apply builds_new_Object3D
  | |- builds _ _ _ (new_Group _) _ => apply builds_new_Object3D
  | |- builds _ _ _ (scene_add _) _ => apply builds_scene_add
  | |- builds _ _ _ (objects_push _) _ => apply builds_objects_push
  | |- builds _ _ _ (Object3D_add _ _) _ => apply builds_update_object; assumption
  | |- builds _ _ _ (set_world _) _ => apply builds_set_world; intros ?; split; reflexivity
  | |- builds _ _ _ (for_range _ _) _ => apply builds_forEach_from; intros ? ?
  | |- builds _ _ _ (match ?x with _ => _ end) _ => destruct x
  end.

Lemma builds_bind_triple {A B} (n0 : nat) (h0 : gmap ObjId Object3D) (s0 : ObjId)
  (m : Method SceneUnit A) (k : A -> Method SceneUnit B) (phi : A -> Prop)
  (Q : B -> SceneUnit -> World -> Prop) (E : JsError -> SceneUnit -> World -> Prop) :
  builds n0 h0 s0 m phi ->
  (forall a, phi a -> triple (building n0 h0 s0) (k a) Q E) ->
  triple (building n0 h0 s0) (bind m k) Q E.
Proof.
  intros Hm Hk u w Hb. unfold bind. specialize (Hm u w Hb).
  destruct (m u w) as [[[a|e] u'] w']; [|done].
  destruct Hm as [Hb' Ha]. by apply Hk.
Qed.

Lemma triple_run {T A} (P : T -> World -> Prop) (m : Method T A)
  (Q : A -> T -> World -> Prop) (this : T) (w : World) :
  triple P m Q (fun _ _ _ => False) -> P this w ->
  exists a this' w', m this w = (Return a, this', w') /\ Q a this' w'.
Proof.
  intros Hm HP. specialize (Hm this w HP).
  destruct (m this w) as [[[a|e] this'] w']; [|done]. by exists a, this', w'.
Qed.

Ltac builds_all :=
  unfold Scene1.createGround, Scene1.createSampleGeometry, Scene1.addAxesHelper,
    Scene1.addGridHelper, Scene2.setupBackground, Scene2.createEnvironment,
    Scene2.createWalls, Scene2.createAdvancedGeometry, Scene2.createCrystalFormation,
    Scene2.createFloatingPlatforms, Scene2.createSpiralStructure,
    Scene2.createGlowingOrbs, Scene2.createParticleSystem, Scene2.addAxesHelper;
  cbv zeta; repeat builds_step.

(** The construction of a [Scene1], once its scene graph [s0] exists and
    the background is set up: it returns, with the unit initialized. *)
Lemma Scene1_construction `{Runtime} (n0 : nat) (h0 : gmap ObjId Object3D) (s0 : ObjId)
  (lightsManager : option LightsManager) :
  triple (building n0 h0 s0)
    (match lightsManager with
     | Some lights => set_world (emit (Lights_addToScene lights s0))
     | None => ret tt
     end ;;
     Scene1.createGround ;;
     Scene1.createSampleGeometry ;;
     Scene1.addAxesHelper ;;
     Scene1.addGridHelper ;;
     log "Scene 1 initialized successfully" ;;
     set_this (set_isInitialized true))
    (fun _ u w => building n0 h0 s0 u w /\ isInitialized u = true)
    (fun _ _ _ => False).
Proof.
  repeat (eapply builds_bind_triple; [by builds_all|intros ? _]).
  apply triple_set_this. intros u w Hb. done.
Qed.

(** The construction of a [Scene2], once its scene graph [s0] exists. *)
Lemma Scene2_construction `{Runtime} (n0 : nat) (h0 : gmap ObjId Object3D) (s0 : ObjId)
  (lightsManager : option LightsManager) :
  triple (building n0 h0 s0)
    (Scene2.setupBackground ;;
     match lightsManager with
     | Some lights =>
         set_world (emit (Lights_addToScene lights s0)) ;;
         set_world (emit (Lights_applyPreset lights "night"))
     | None => ret tt
     end ;;
     Scene2.createEnvironment ;;
     Scene2.createAdvancedGeometry ;;
     Scene2.createParticleSystem ;;
     Scene2.addAxesHelper ;;
     log "Scene 2 initialized successfully" ;;
     set_this (set_isInitialized true))
    (fun _ u w => building n0 h0 s0 u w /\ isInitialized u = true)
    (fun _ _ _ => False).
Proof.
  repeat (eapply builds_bind_triple; [by builds_all|intros ? _]).
  apply triple_set_this. intros u w Hb. done.
Qed.

Lemma bind_log {T A} (msg : string) (k : unit -> Method T A) (this : T) (w : World) :
  bind (log msg) k this w = k tt this (emit (console_log msg) w).
Proof. reflexivity. Qed.

Lemma bind_new_Object3D {T A} (o : Object3D) (k : ObjId -> Method T A) (this : T)
  (w : World) :
  bind (new_Object3D o) k this w
  = k (nextId w) this
      (mkWorld (<[nextId w := o]> (heap w)) (S (nextId w)) (randomCalls w) (trace w)).
Proof. reflexivity. Qed.

Lemma bind_set_this {T A} (f : T -> T) (k : unit -> Method T A) (this : T) (w : World) :
  bind (set_this f) k this w = k tt (f this) w.
Proof. reflexivity. Qed.

Lemma bind_throw {T A B} (e : JsError) (k : A -> Method T B) (this : T) (w : World) :
  bind (throw e) k this w = (Throw e, this, w).
Proof. reflexivity. Qed.

Lemma builds_run {A} (n0 : nat) (h0 : gmap ObjId Object3D) (s0 : ObjId)
  (m : Method SceneUnit A) (phi : A -> Prop) (u : SceneUnit) (w : World) :
  builds n0 h0 s0 m phi -> building n0 h0 s0 u w ->
  exists a u' w', m u w = (Return a, u', w') /\ building n0 h0 s0 u' w' /\ phi a.
Proof.
  intros Hm Hb. specialize (Hm u w Hb).
  destruct (m u w) as [[[a|e] u'] w']; [|done]. destruct Hm. by exists a, u', w'.
Qed.

(** What [init] of a unit does to the world and the unit: objects that
    existed keep their state; when it returns, the unit is initialized and
    has its scene graph; a [Scene2], and a [Scene1] on a runtime with a 2D
    canvas, does return. *)
Lemma unit_init_spec `{Runtime} (camera : option CameraManager)
  (lights : option LightsManager) (loader : option ModelLoader)
  (u : SceneUnit) (w : World) :
  let r := unit_init camera lights loader u w in
  nextId w <= nextId r.2 /\
  (forall id, id < nextId w -> heap r.2 !! id = heap w !! id) /\
  (r.1.1 = Return tt -> isInitialized r.1.2 = true /\ is_Some (scene r.1.2)) /\
  (unitClass u = Scene2Class \/ canvas2d = true -> r.1.1 = Return tt).
Proof.
  cbv zeta. unfold unit_init, dispatch.
  set (n0 := nextId w). set (h0 := heap w).
  assert (forall o tr u1,
            building n0 h0 n0 (set_scene (Some n0) u1)
              (mkWorld (<[n0 := o]> h0) (S n0) (randomCalls w) tr)) as HP.
  { intros o tr u1. unfold building; simpl. split; [lia|]. split; [|done].
    intros id Hid. by rewrite lookup_insert_ne by lia. }
  destruct (unitClass u) eqn:Hcls.
  - unfold Scene1.init, try_catch, set_scene_field.
    rewrite bind_log, bind_new_Object3D, bind_set_this. cbv beta.
    cbn [nextId heap randomCalls trace emit]. fold n0 h0.
    unfold Scene1.setupBackground.
    destruct canvas2d eqn:Hcanvas.
    + rewrite bind_log. cbv beta.
      match goal with
      | |- context [bind ?m ?k (set_scene ?sc u) ?w1] =>
          destruct (triple_run _ _ _ _ w1
                      (Scene1_construction n0 h0 n0 lights) (HP _ _ u))
            as (a & u' & w' & Hrest & (Hn & Hh & Hs & _) & Hini);
          assert (bind m k (set_scene sc u) w1 = (Return a, u', w')) as ->
            by exact Hrest
      end.
      simpl. destruct a. split; [exact Hn|]. split; [exact Hh|]. split; [|done].
      intros _. split; [exact Hini|]. rewrite Hs. by eexists.
    + rewrite bind_throw. unfold log_and_rethrow, bind, set_world, throw. simpl.
      split; [lia|]. split; [|split; [discriminate|]].
      * intros id Hid. by rewrite lookup_insert_ne by lia.
      * intros [?|?]; discriminate.
  - unfold Scene2.init, try_catch, set_scene_field.
    rewrite bind_log, bind_new_Object3D, bind_set_this. cbv beta.
    cbn [nextId heap randomCalls trace emit]. fold n0 h0.
    match goal with
    | |- context [bind ?m ?k (set_scene ?sc u) ?w1] =>
        destruct (triple_run _ _ _ _ w1
                    (Scene2_construction n0 h0 n0 lights) (HP _ _ u))
          as (a & u' & w' & Hrest & (Hn & Hh & Hs & _) & Hini);
        assert (bind m k (set_scene sc u) w1 = (Return a, u', w')) as ->
          by exact Hrest
    end.
    simpl. destruct a. split; [exact Hn|]. split; [exact Hh|]. split; [|done].
    intros _. split; [exact Hini|]. rewrite Hs. by eexists.
Qed.

(** *** Adding a scene *)

Lemma bind_get_this {T A} (k : T -> Method T A) (this : T) (w : World) :
  bind get_this k this w = k this this w.
Proof. reflexivity. Qed.

Lemma bind_get_world {T A} (k : World -> Method T A) (this : T) (w : World) :
  bind get_world k this w = k w this w.
Proof. reflexivity. Qed.

Lemma bind_warn {T A} (msg : string) (k : unit -> Method T A) (this : T) (w : World) :
  bind (warn msg) k this w = k tt this (emit (console_warn msg) w).
Proof. reflexivity. Qed.

Lemma bind_ret {T A B} (a : A) (k : A -> Method T B) (this : T) (w : World) :
  bind (ret a) k this w = k a this w.
Proof. reflexivity. Qed.

Lemma bind_assoc {T A B C} (m : Method T A) (k1 : A -> Method T B)
  (k2 : B -> Method T C) (this : T) (w : World) :
  bind (bind m k1) k2 this w = bind m (fun a => bind (k1 a) k2) this w.
Proof. unfold bind. by destruct (m this w) as [[[a|e] this'] w']. Qed.

Lemma bind_Return {T A B} (m : Method T A) (k : A -> Method T B) (this this' : T)
  (w w' : World) (a : A) :
  m this w = (Return a, this', w') -> bind m k this w = k a this' w'.
Proof. intros Hm. unfold bind. by rewrite Hm. Qed.

Lemma bind_Throw {T A B} (m : Method T A) (k : A -> Method T B) (this this' : T)
  (w w' : World) (e : JsError) :
  m this w = (Throw e, this', w') -> bind m k this w = (Throw e, this', w').
Proof. intros Hm. unfold bind. by rewrite Hm. Qed.

Lemma put_property_ordinary (us : gmap UnitId SceneUnit) (n : string) (r : UnitId)
  (o : PlainObject) :
  n <> "__proto__" ->
  put_property us n r o = mkPlainObject (own_put n r (own o)) (proto o).
Proof.
  intros Hn. unfold put_property. destruct (own_get n (own o)); [done|].
  by rewrite bool_decide_false.
Qed.

Lemma unitClass_unit_dispose (u : SceneUnit) (w : World) :
  unitClass (unit_dispose u w).1.2 = unitClass u.
Proof.
  destruct (scene u) as [s|] eqn:Hs; [|by rewrite unit_dispose_null].
  unfold unit_dispose, dispatch, Scene1.dispose, Scene2.dispose, forEach.
  destruct (unitClass u) eqn:Hc; unfold bind at 1, get_this; rewrite Hs;
    unfold bind at 1; rewrite forEach_dispose_object; simpl; done.
Qed.

Lemma addScene_active `{Runtime} (m : SceneManager.t) (w : World) (n : string)
  (r : UnitId) :
  SceneManager.currentSceneName m = Some n ->
  truthy (SceneManager.scene_named m n) = true ->
  SceneManager.addScene n r m w
  = (Throw (Error ("Cannot remove active scene '" +:+ n +:+ "'")), m,
     emit (console_error ("Failed to add scene '" +:+ n +:+ "':")
             (Error ("Cannot remove active scene '" +:+ n +:+ "'")))
       (emit (console_warn ("Scene '" +:+ n +:+ "' already exists, replacing...")) w)).
Proof.
  intros Hcur Ht.
  unfold SceneManager.addScene, try_catch.
  rewrite bind_get_this. cbv beta. rewrite Ht.
  rewrite bind_assoc, bind_warn. cbv beta.
  erewrite bind_Throw; [|by apply removeScene_active].
  reflexivity.
Qed.

(** The manager and the world when [addScene] has made room for the name:
    when the registry yields a unit under it, that unit is disposed; when it
    yields anything that is not falsy, the key of that name is deleted. *)
Lemma addScene_makes_room (m : SceneManager.t) (w : World) (n : string) :
  SceneManager.currentSceneName m <> Some n ->
  exists us1 w1,
    (if truthy (SceneManager.scene_named m n) then
       warn ("Scene '" +:+ n +:+ "' already exists, replacing...") ;;
       SceneManager.removeScene n
     else ret tt) m w
    = (Return tt,
       SceneManager.set_scenes
         (fun o => if truthy (SceneManager.scene_named m n) then delete_property n o else o)
         (SceneManager.set_units (fun _ => us1) m),
       w1) /\
    nextId w1 = nextId w /\
    match SceneManager.scene_named m n with
    | VUnit r0 =>
        exists old old' w0,
          SceneManager.units m !! r0 = Some old /\
          us1 = <[r0 := old']> (SceneManager.units m) /\
          old' = (unit_dispose old w0).1.2 /\
          scene old' = None /\
          (is_Some (scene old) -> heap w1 = dispose_all (objects old) (heap w))
    | _ => us1 = SceneManager.units m /\ heap w1 = heap w
    end.
Proof.
  intros Hcur.
  destruct (SceneManager.scene_named m n) as [r0| | | | |] eqn:Hv; cbn [truthy].
  - rewrite bind_warn.
    destruct (scene_named_unit m n r0 Hv) as [old Hold].
    destruct (removeScene_inactive m
                (emit (console_warn ("Scene '" +:+ n +:+ "' already exists, replacing...")) w)
                n r0 old Hv Hold Hcur) as (old' & w' & Hd & ->).
    eexists _, _. split; [reflexivity|].
    destruct (scene old) as [s|] eqn:Hs.
    + edestruct (unit_dispose_scene old) as (u2 & w2 & Hd2 & Hs2 & _ & _ & Hh & Hnx);
        [by rewrite Hs|].
      rewrite Hd in Hd2. injection Hd2 as <- <-. simpl. split; [done|].
      eexists old, old', _. split; [done|]. split; [done|].
      split; [by rewrite Hd|]. split; [done|]. done.
    + pose proof Hd as Hd'. rewrite unit_dispose_null in Hd' by done.
      injection Hd' as <- <-. simpl. split; [done|].
      eexists old, old, _. split; [done|]. split; [done|].
      split; [by rewrite Hd|]. split; [done|]. rewrite Hs. by intros [? ?].
  - rewrite bind_warn, removeScene_not_a_unit; [|by rewrite Hv|by rewrite Hv|done].
    exists (SceneManager.units m). eexists. split; [by destruct m|]. done.
  - rewrite bind_warn, removeScene_not_a_unit; [|by rewrite Hv|by rewrite Hv|done].
    exists (SceneManager.units m). eexists. split; [by destruct m|]. done.
  - exists (SceneManager.units m), w. split; [by destruct m|]. done.
  - exists (SceneManager.units m), w. split; [by destruct m|]. done.
  - exists (SceneManager.units m), w. split; [by destruct m|]. done.
Qed.

Lemma resources_disposed_same (w w' : World) (id : ObjId) :
  heap w' !! id = heap w !! id -> resources_disposed w id -> resources_disposed w' id.
Proof. intros Heq (o & Ho & Hd). exists o. by rewrite Heq. Qed.

(** What [addScene] does for a name that is not the active one: the manager
    and the world at the end, in terms of the store of units [us1] and the
    world [w1] once room was made, the unit handed in as it is then
    ([unit0]) and as it is at the end ([u']). *)
Lemma addScene_inactive `{Runtime} (m : SceneManager.t) (w : World) (n : string)
  (r : UnitId) (unit : SceneUnit) :
  SceneManager.units m !! r = Some unit ->
  SceneManager.currentSceneName m <> Some n ->
  exists us1 w1 unit0 u' w',
    (SceneManager.addScene n r m w).1.2
    = SceneManager.set_units (fun _ => <[r := u']> us1)
        (SceneManager.set_scenes
           (fun o => put_property us1 n r
                       (if truthy (SceneManager.scene_named m n)
                        then delete_property n o else o)) m) /\
    (SceneManager.addScene n r m w).2 = w' /\
    nextId w1 = nextId w /\
    match SceneManager.scene_named m n with
    | VUnit r0 =>
        exists old old' w0,
          SceneManager.units m !! r0 = Some old /\
          us1 = <[r0 := old']> (SceneManager.units m) /\
          old' = (unit_dispose old w0).1.2 /\
          scene old' = None /\
          (is_Some (scene old) -> heap w1 = dispose_all (objects old) (heap w))
    | _ => us1 = SceneManager.units m /\ heap w1 = heap w
    end /\
    us1 !! r = Some unit0 /\
    (forall id, id < nextId w1 -> heap w' !! id = heap w1 !! id) /\
    if services_available m then
      (unit_init (SceneManager.cameraManager m) (SceneManager.lightsManager m)
         (SceneManager.modelLoader m) unit0
         (emit (console_log ("Adding scene '" +:+ n +:+ "'...")) w1)).1.2 = u' /\
      (unit_init (SceneManager.cameraManager m) (SceneManager.lightsManager m)
         (SceneManager.modelLoader m) unit0
         (emit (console_log ("Adding scene '" +:+ n +:+ "'...")) w1)).1.1
      = (SceneManager.addScene n r m w).1.1
    else u' = unit0 /\ (SceneManager.addScene n r m w).1.1 = Return tt.
Proof.
  intros Hunit Hcur.
  destruct (addScene_makes_room m w n Hcur) as (us1 & w1 & Hroom & Hn1 & Hold).
  assert (exists unit0, us1 !! r = Some unit0) as [unit0 Hu0].
  { destruct (SceneManager.scene_named m n) as [r0| | | | |];
      try (destruct Hold as [-> _]; by exists unit).
    destruct Hold as (old & old' & w0 & _ & -> & _).
    destruct (decide (r0 = r)) as [->|Hne].
    - exists old'. apply lookup_insert_eq.
    - exists unit. by rewrite lookup_insert_ne. }
  exists us1, w1, unit0.
  unfold SceneManager.addScene, try_catch.
  rewrite bind_get_this. cbv beta.
  erewrite bind_Return by exact Hroom.
  rewrite bind_log. cbv beta. unfold SceneManager.register.
  rewrite bind_set_this. cbv beta. rewrite bind_get_this. cbv beta.
  set (w2 := emit (console_log ("Adding scene '" +:+ n +:+ "'...")) w1).
  match goal with
  | |- context [bind _ _ ?m' w2] => set (m2 := m')
  end.
  assert (SceneManager.units m2 !! r = Some unit0) as Hm2 by exact Hu0.
  assert (forall v, SceneManager.set_units (insert r v) m2
                    = SceneManager.set_units (fun _ => <[r := v]> us1)
                        (SceneManager.set_scenes
                           (fun o => put_property us1 n r
                                       (if truthy (SceneManager.scene_named m n)
                                        then delete_property n o else o)) m)) as Hreg.
  { intros v. by destruct m. }
  change (SceneManager.cameraManager m2) with (SceneManager.cameraManager m).
  change (SceneManager.lightsManager m2) with (SceneManager.lightsManager m).
  change (SceneManager.modelLoader m2) with (SceneManager.modelLoader m).
  unfold services_available.
  destruct (SceneManager.cameraManager m) as [cam|] eqn:Hcam;
    [destruct (SceneManager.lightsManager m) as [li|] eqn:Hli;
     [destruct (SceneManager.modelLoader m) as [lo|] eqn:Hlo|]|].
  2,3,4: rewrite bind_ret, <- (set_units_insert_id m2 r unit0 Hm2), Hreg; cbv beta;
    exists unit0; eexists; simpl;
    (split; [reflexivity|]); (split; [reflexivity|]); (split; [exact Hn1|]);
    (split; [exact Hold|]); (split; [exact Hu0|]); (split; [reflexivity|]); done.
  pose proof (unit_init_spec (Some cam) (Some li) (Some lo) unit0 w2) as Hspec.
  cbv zeta in Hspec. destruct Hspec as (_ & Hframe & _).
  destruct (unit_init (Some cam) (Some li) (Some lo) unit0 w2) as [[c0 u'] w3] eqn:Hinit.
  simpl in Hframe.
  pose proof (call_result m2 w2 "init" r _ unit0 u' c0 w3 Hm2 Hinit) as Hcall.
  rewrite Hreg in Hcall.
  exists u'.
  destruct c0 as [[]|e].
  - erewrite bind_Return by exact Hcall. simpl. eexists.
    (split; [reflexivity|]); (split; [reflexivity|]); (split; [exact Hn1|]);
      (split; [exact Hold|]); (split; [exact Hu0|]); (split; [exact Hframe|]); done.
  - erewrite bind_Throw by exact Hcall. simpl. eexists.
    (split; [reflexivity|]); (split; [reflexivity|]); (split; [exact Hn1|]);
      (split; [exact Hold|]); (split; [exact Hu0|]); (split; [exact Hframe|]); done.
Qed.

(** C8, as stated, fails for the active scene's name: after [init],
    [addScene("scene1", new Scene1())] throws and "scene1" still holds the
    unit it had, which is initialized, not the new one. *)
Lemma addScene_active_name_throws :
  let r := @perform evalRuntime (OpAddScene "scene1" (NewUnit Scene1Class))
             started.1 started.2 in
  r.1.1 = Throw (Error "Cannot remove active scene 'scene1'") /\
  own_get "scene1" (own (SceneManager.scenes r.1.2)) = Some 0 /\
  own_get "scene1" (own (SceneManager.scenes started.1)) = Some 0 /\
  registered r.1.2 "scene1"
  = Some (mkSceneUnit Scene1Class (Some 0) [1; 2; 3; 4; 5; 6] true []).
Proof. cbv zeta. repeat split; vm_compute; reflexivity. Qed.

(** C8, amended (addScene): for every scene name other than the active one
    and other than [__proto__], [addScene(name, unit)] registers the unit
    under the name, as a key of the registry, leaving the other keys, the
    prototype, the active name and the units that are neither the new one nor
    the one replaced as they were; a unit that the registry had under the
    name before is disposed (the resources of its objects are released, and
    stay so); when the camera, lighting and model-loader services are
    present the unit's [init] is run at once, and when [addScene] returns
    the registered unit is initialized and has its scene graph, which is
    always so for a [Scene2], and for a [Scene1] when a 2D canvas is
    available; when a service is missing the unit is registered as it was
    given.  The unit handed in may be the one that the name has already: it
    is then disposed before it is registered and initialized again.  For
    the active scene's name [addScene] fails with the active-scene-removal
    error and leaves the manager as it was. *)
Theorem addScene_registers_unless_active `{Runtime} (m : SceneManager.t) (w : World)
  (n : string) (r : UnitId) (unit : SceneUnit) :
  SceneManager.units m !! r = Some unit ->
  let res := SceneManager.addScene n r m w in
  (SceneManager.currentSceneName m <> Some n ->
   n <> "__proto__" ->
   exists u',
     own_get n (own (SceneManager.scenes res.1.2)) = Some r /\
     SceneManager.units res.1.2 !! r = Some u' /\
     registered res.1.2 n = Some u' /\
     (forall k, k <> n ->
        own_get k (own (SceneManager.scenes res.1.2))
        = own_get k (own (SceneManager.scenes m))) /\
     proto (SceneManager.scenes res.1.2) = proto (SceneManager.scenes m) /\
     SceneManager.currentSceneName res.1.2 = SceneManager.currentSceneName m /\
     (forall r', r' <> r -> SceneManager.scene_named m n <> VUnit r' ->
        SceneManager.units res.1.2 !! r' = SceneManager.units m !! r') /\
     (forall r0 old,
        SceneManager.scene_named m n = VUnit r0 ->
        SceneManager.units m !! r0 = Some old ->
        (r0 <> r ->
         exists old', SceneManager.units res.1.2 !! r0 = Some old' /\ scene old' = None) /\
        (is_Some (scene old) ->
         forall id, id ∈ objects old -> id < nextId w -> is_Some (heap w !! id) ->
                    resources_disposed res.2 id)) /\
     if services_available m then
       (exists unit0 w0,
          u' = (unit_init (SceneManager.cameraManager m) (SceneManager.lightsManager m)
                  (SceneManager.modelLoader m) unit0 w0).1.2 /\
          res.1.1 = (unit_init (SceneManager.cameraManager m)
                       (SceneManager.lightsManager m)
                       (SceneManager.modelLoader m) unit0 w0).1.1 /\
          (SceneManager.scene_named m n <> VUnit r -> unit0 = unit) /\
          (SceneManager.scene_named m n = VUnit r ->
           exists w1, unit0 = (unit_dispose unit w1).1.2)) /\
       (res.1.1 = Return tt -> initialized u') /\
       (unitClass unit = Scene2Class \/ canvas2d = true -> res.1.1 = Return tt)
     else
       res.1.1 = Return tt /\
       (SceneManager.scene_named m n <> VUnit r -> u' = unit) /\
       (SceneManager.scene_named m n = VUnit r ->
        exists w1, u' = (unit_dispose unit w1).1.2))
  /\
  (SceneManager.currentSceneName m = Some n ->
   truthy (SceneManager.scene_named m n) = true ->
   res.1.1 = Throw (Error ("Cannot remove active scene '" +:+ n +:+ "'")) /\
   res.1.2 = m /\ same_store w res.2).
Proof.
  intros Hunit. cbv zeta. split.
  - intros Hcur Hproto.
    destruct (addScene_inactive m w n r unit Hunit Hcur)
      as (us1 & w1 & unit0 & u' & w' & Hm & Hw & Hn1 & Hold & Hu0 & Hframe & Hinit).
    assert ((SceneManager.scene_named m n <> VUnit r -> unit0 = unit) /\
            (SceneManager.scene_named m n = VUnit r ->
             exists w0, unit0 = (unit_dispose unit w0).1.2)) as [Hfresh Hagain].
    { destruct (SceneManager.scene_named m n) as [r0| | | | |];
        try (destruct Hold as [-> _]; split; [intros _; congruence|done]).
      destruct Hold as (old & old' & w0 & Ho & -> & -> & _).
      destruct (decide (r0 = r)) as [->|Hne].
      - rewrite lookup_insert_eq in Hu0. injection Hu0 as <-.
        split; [done|]. intros _. exists w0. congruence.
      - rewrite lookup_insert_ne in Hu0 by done.
        split; [intros _; congruence|]. intros [= ?]. done. }
    assert (unitClass unit0 = unitClass unit) as Hcls.
    { destruct (decide (SceneManager.scene_named m n = VUnit r)) as [He|He].
      - destruct (Hagain He) as [w0 ->]. apply unitClass_unit_dispose.
      - by rewrite Hfresh. }
    exists u'. rewrite Hm, Hw. cbn [SceneManager.scenes SceneManager.units
      SceneManager.currentSceneName SceneManager.set_units SceneManager.set_scenes].
    rewrite put_property_ordinary by done. cbn [own proto].
    assert (forall k, k <> n ->
              own_get k (own (if truthy (SceneManager.scene_named m n)
                              then delete_property n (SceneManager.scenes m)
                              else SceneManager.scenes m))
              = own_get k (own (SceneManager.scenes m))) as Hkeys.
    { intros k Hk. destruct (truthy _); [|done]. simpl. by apply own_get_remove_ne. }
    split; [apply own_get_put_eq|]. split; [apply lookup_insert_eq|]. split.
    { unfold registered. cbn [SceneManager.scenes SceneManager.units
        SceneManager.set_units SceneManager.set_scenes].
      rewrite put_property_ordinary by done. cbn [own].
      rewrite own_get_put_eq. simpl. apply lookup_insert_eq. }
    split.
    { intros k Hk. rewrite own_get_put_ne by done. by apply Hkeys. }
    split; [by destruct (truthy _)|]. split; [done|]. split.
    { intros r' Hr' Hnot. rewrite lookup_insert_ne by done.
      destruct (SceneManager.scene_named m n) as [r0| | | | |];
        try (by destruct Hold as [-> _]).
      destruct Hold as (old & old' & w0 & _ & -> & _).
      rewrite lookup_insert_ne; [done|]. congruence. }
    split.
    { intros r0 old Hv Hr0.
      rewrite Hv in Hold. destruct Hold as (old0 & old' & w0 & Ho & -> & _ & Hnull & Hh).
      assert (old0 = old) as -> by congruence.
      split.
      - intros Hne. exists old'. rewrite lookup_insert_ne by done.
        by rewrite lookup_insert_eq.
      - intros Hs id Hid Hlt Hsome.
        apply (resources_disposed_same w1).
        + apply Hframe. lia.
        + apply (dispose_all_disposed (objects old) w); auto. }
    destruct (services_available m).
    + destruct Hinit as [Hu Hc].
      pose proof (unit_init_spec (SceneManager.cameraManager m)
                    (SceneManager.lightsManager m) (SceneManager.modelLoader m)
                    unit0 (emit (console_log ("Adding scene '" +:+ n +:+ "'...")) w1))
        as Hspec.
      cbv zeta in Hspec. destruct Hspec as (_ & _ & Hini & Hret).
      rewrite Hu, Hc in Hini. rewrite Hc, Hcls in Hret.
      split; [|split; [|done]].
      * eexists unit0, _. split; [by rewrite Hu|]. split; [by rewrite Hc|]. done.
      * intros Hr. by apply Hini.
    + destruct Hinit as [-> Hc]. done.
  - intros Hcur Hreg. rewrite addScene_active by done. simpl. done.
Qed.
(** *** Animation: the writes of an update *)

Lemma apply_writes_app (ws1 ws2 : list Write) (h : gmap ObjId Object3D) :
  apply_writes (ws1 ++ ws2) h = apply_writes ws2 (apply_writes ws1 h).
Proof. unfold apply_writes. by rewrite foldl_app. Qed.

Lemma skeleton_alter (f : Object3D -> Object3D) (i : ObjId) (h : gmap ObjId Object3D) :
  (forall o, outline (f o) = outline o) -> skeleton (alter f i h) = skeleton h.
Proof.
  intros Hf. unfold skeleton. apply map_eq. intros j.
  rewrite !lookup_fmap. destruct (decide (i = j)) as [->|Hne].
  - rewrite lookup_alter_eq. destruct (h !! j); simpl; [by rewrite Hf|done].
  - by rewrite lookup_alter_ne.
Qed.

Lemma skeleton_apply_writes (ws : list Write) (h : gmap ObjId Object3D) :
  outline_preserving ws -> skeleton (apply_writes ws h) = skeleton h.
Proof.
  intros Hws. revert h. induction Hws as [|[i f] ws Hf _ IH]; intros h; [done|].
  change (apply_writes ((i, f) :: ws) h) with (apply_writes ws (alter f i h)).
  rewrite IH. by apply skeleton_alter.
Qed.

Lemma skeleton_lookup (h h' : gmap ObjId Object3D) (i : ObjId) :
  skeleton h = skeleton h' -> outline <$> h !! i = outline <$> h' !! i.
Proof. intros Hsk. unfold skeleton in Hsk. by rewrite <- !lookup_fmap, Hsk. Qed.

Lemma skeleton_size (h h' : gmap ObjId Object3D) :
  skeleton h = skeleton h' -> size h = size h'.
Proof.
  intros Hsk. rewrite <- (map_size_fmap outline h), <- (map_size_fmap outline h').
  unfold skeleton in Hsk. by rewrite Hsk.
Qed.

Lemma getObjectByName_at_skeleton (d : nat) (h h' : gmap ObjId Object3D) (nm : string)
  (id : ObjId) :
  skeleton h = skeleton h' ->
  getObjectByName_at d h nm id = getObjectByName_at d h' nm id.
Proof.
  intros Hsk. revert id. induction d as [|d IH]; intros id; [done|]. simpl.
  pose proof (skeleton_lookup h h' id Hsk) as Hid.
  destruct (h !! id) as [o|], (h' !! id) as [o'|]; simpl in Hid; try done.
  injection Hid as Hn Hc _ _ _. rewrite Hn, Hc.
  case_bool_decide; [done|].
  clear Hc. generalize (children o'). intros cs.
  induction cs as [|c cs IHc]; [done|]. by rewrite IH, IHc.
Qed.

Lemma getObjectByName_skeleton (h h' : gmap ObjId Object3D) (s : ObjId) (nm : string) :
  skeleton h = skeleton h' -> getObjectByName h s nm = getObjectByName h' s nm.
Proof.
  intros Hsk. unfold getObjectByName. rewrite (skeleton_size h h' Hsk).
  by apply getObjectByName_at_skeleton.
Qed.

Lemma children_of_skeleton (h h' : gmap ObjId Object3D) (id : ObjId) :
  skeleton h = skeleton h' -> children_of h id = children_of h' id.
Proof.
  intros Hsk. unfold children_of.
  pose proof (skeleton_lookup _ _ id Hsk) as Hid.
  destruct (h !! id) as [o|], (h' !! id) as [o'|]; simpl in Hid; try done.
  by injection Hid as _ Hc _ _ _.
Qed.

Lemma getObjectByName_at_name (d : nat) (h : gmap ObjId Object3D) (nm : string)
  (id i : ObjId) :
  getObjectByName_at d h nm id = Some i ->
  exists o, h !! i = Some o /\ name o = nm.
Proof.
  revert id. induction d as [|d IH]; intros id; [done|]. simpl.
  destruct (h !! id) as [o|] eqn:Ho; [|done].
  case_bool_decide as Hn.
  - intros [= <-]. by exists o.
  - generalize (children o). intros cs.
    induction cs as [|c cs IHc]; [done|].
    destruct (getObjectByName_at d h nm c) as [r|] eqn:Hc.
    + intros [= <-]. by eapply IH.
    + exact IHc.
Qed.

Lemma getObjectByName_name (h : gmap ObjId Object3D) (s : ObjId) (nm : string)
  (i : ObjId) :
  getObjectByName h s nm = Some i -> exists o, h !! i = Some o /\ name o = nm.
Proof. apply getObjectByName_at_name. Qed.

Lemma apply_writes_lookup_quiet {X} (phi : Object3D -> X) (c : ObjId) (ws : list Write)
  (h : gmap ObjId Object3D) :
  quiet phi c ws -> phi <$> apply_writes ws h !! c = phi <$> h !! c.
Proof.
  intros Hq. revert h. induction Hq as [|[i f] ws Hf _ IH]; intros h; [done|].
  change (apply_writes ((i, f) :: ws) h) with (apply_writes ws (alter f i h)).
  rewrite IH. destruct (decide (i = c)) as [->|Hne].
  - rewrite lookup_alter_eq. destruct (h !! c); simpl; [|done].
    f_equal. by apply Hf.
  - by rewrite lookup_alter_ne.
Qed.

(** After the writes [ws1], a write [f] on [c] that sets the field to [v],
    and writes [ws2] that leave the field of [c] alone, the field is [v]. *)
Lemma apply_writes_lookup_set {X} (phi : Object3D -> X) (c : ObjId)
  (f : Object3D -> Object3D) (v : X) (ws1 ws2 : list Write) (h : gmap ObjId Object3D) :
  (forall o, phi (f o) = v) ->
  is_Some (h !! c) ->
  quiet phi c ws2 ->
  phi <$> apply_writes (ws1 ++ (c, f) :: ws2) h !! c = Some v.
Proof.
  intros Hf Hc Hq. rewrite apply_writes_app.
  change (apply_writes ((c, f) :: ws2) (apply_writes ws1 h))
    with (apply_writes ws2 (alter f c (apply_writes ws1 h))).
  rewrite apply_writes_lookup_quiet by done. rewrite lookup_alter_eq.
  assert (is_Some (apply_writes ws1 h !! c)) as [o Ho].
  { clear -Hc. revert h Hc. induction ws1 as [|[i g] ws IH]; intros h Hc; [done|].
    apply IH. destruct (decide (i = c)) as [->|Hne].
    - simpl. rewrite lookup_alter_eq. destruct Hc as [o ->]. by eexists.
    - simpl. by rewrite lookup_alter_ne. }
  rewrite Ho. simpl. by rewrite Hf.
Qed.

(** After the writes [ws1], a write [f] on [c] that moves the field by [g],
    and writes that leave the field of [c] alone on both sides. *)
Lemma apply_writes_lookup_step {X} (phi : Object3D -> X) (c : ObjId)
  (f : Object3D -> Object3D) (g : X -> X) (ws1 ws2 : list Write)
  (h : gmap ObjId Object3D) :
  (forall o, phi (f o) = g (phi o)) ->
  quiet phi c ws1 -> quiet phi c ws2 ->
  phi <$> apply_writes (ws1 ++ (c, f) :: ws2) h !! c = g <$> (phi <$> h !! c).
Proof.
  intros Hf Hq1 Hq2. rewrite apply_writes_app.
  change (apply_writes ((c, f) :: ws2) (apply_writes ws1 h))
    with (apply_writes ws2 (alter f c (apply_writes ws1 h))).
  rewrite apply_writes_lookup_quiet by done. rewrite lookup_alter_eq.
  rewrite <- (apply_writes_lookup_quiet phi c ws1 h) by done.
  destruct (apply_writes ws1 h !! c); simpl; [|done]. by rewrite Hf.
Qed.

Lemma has_material_skeleton (h h' : gmap ObjId Object3D) (i : ObjId) :
  skeleton h = skeleton h' -> has_material h i = has_material h' i.
Proof.
  intros Hsk. unfold has_material. pose proof (skeleton_lookup _ _ i Hsk) as Hi.
  destruct (h !! i) as [o|], (h' !! i) as [o'|]; simpl in *; try done.
  by injection Hi as _ _ -> _ _.
Qed.

Lemma has_light_skeleton (h h' : gmap ObjId Object3D) (i : ObjId) :
  skeleton h = skeleton h' -> has_light h i = has_light h' i.
Proof.
  intros Hsk. unfold has_light. pose proof (skeleton_lookup _ _ i Hsk) as Hi.
  destruct (h !! i) as [o|], (h' !! i) as [o'|]; simpl in *; try done.
  by injection Hi as _ _ _ -> _.
Qed.

Lemma has_geometry_skeleton (h h' : gmap ObjId Object3D) (i : ObjId) :
  skeleton h = skeleton h' -> has_geometry h i = has_geometry h' i.
Proof.
  intros Hsk. unfold has_geometry. pose proof (skeleton_lookup _ _ i Hsk) as Hi.
  destruct (h !! i) as [o|], (h' !! i) as [o'|]; simpl in *; try done.
  by injection Hi as _ _ _ _ ->.
Qed.

Section Performs.
Context (s : ObjId).

Lemma performs_ret : performs s (fun _ => True) (ret tt) (fun _ => []).
Proof.
  split; [done|]. split; [by constructor|].
  intros u w _ _. unfold ret, set_heap. by destruct w.
Qed.

Lemma performs_update_object (i : ObjId) (f : Object3D -> Object3D) :
  (forall o, outline (f o) = outline o) ->
  performs s (fun _ => True) (update_object i f) (fun _ => [(i, f)]).
Proof.
  intros Hf. split; [done|]. split; [by repeat constructor|]. done.
Qed.

Lemma performs_weaken (G G' : gmap ObjId Object3D -> Prop) (m : Method SceneUnit unit)
  (W : gmap ObjId Object3D -> list Write) :
  performs s G m W ->
  (forall h, G' h -> G h) ->
  (forall h h', skeleton h = skeleton h' -> G' h -> G' h') ->
  performs s G' m W.
Proof.
  intros (Hinv & Hout & Hrun) HG HG'. split; [|split].
  - intros h h' Hsk. split; [by apply HG'|]. by apply Hinv.
  - intros h Hh. by apply Hout, HG.
  - intros u w Hs Hh. by apply Hrun, HG.
Qed.

Lemma performs_seq (G1 G2 : gmap ObjId Object3D -> Prop) (m1 m2 : Method SceneUnit unit)
  (W1 W2 : gmap ObjId Object3D -> list Write) :
  performs s G1 m1 W1 -> performs s G2 m2 W2 ->
  performs s (fun h => G1 h /\ G2 h) (m1 ;; m2) (fun h => W1 h ++ W2 h).
Proof.
  intros (Hinv1 & Hout1 & Hrun1) (Hinv2 & Hout2 & Hrun2). split; [|split].
  - intros h h' Hsk. destruct (Hinv1 h h' Hsk) as [HG1 HW1].
    destruct (Hinv2 h h' Hsk) as [HG2 HW2]. split; [|by rewrite HW1, HW2].
    intros [? ?]. auto.
  - intros h [H1 H2]. apply Forall_app. split; [by apply Hout1|by apply Hout2].
  - intros u w Hs [H1 H2]. erewrite bind_Return by (by apply Hrun1).
    assert (skeleton (heap w) = skeleton (apply_writes (W1 (heap w)) (heap w))) as Hsk
      by (symmetry; by apply skeleton_apply_writes, Hout1).
    destruct (Hinv2 _ _ Hsk) as [HG2 HW2].
    rewrite Hrun2 by (simpl; auto). simpl.
    rewrite <- HW2. destruct w; unfold set_heap; simpl. by rewrite apply_writes_app.
Qed.

(** [const x = this.scene.getObjectByName(nm); if (x) { body(x) }; rest] *)
Lemma performs_named (nm : string) (body : ObjId -> Method SceneUnit unit)
  (rest : Method SceneUnit unit) (Gb : ObjId -> gmap ObjId Object3D -> Prop)
  (Wb : ObjId -> gmap ObjId Object3D -> list Write)
  (Gr : gmap ObjId Object3D -> Prop) (Wr : gmap ObjId Object3D -> list Write) :
  (forall i, performs s (Gb i) (body i) (Wb i)) ->
  performs s Gr rest Wr ->
  performs s
    (fun h => (forall i, getObjectByName h s nm = Some i -> Gb i h) /\ Gr h)
    (x <- scene_getObjectByName nm ;;
     match x with Some i => body i | None => ret tt end ;;
     rest)
    (fun h => match getObjectByName h s nm with
              | Some i => Wb i h
              | None => []
              end ++ Wr h).
Proof.
  intros Hb Hr.
  assert (performs s
            (fun h => forall i, getObjectByName h s nm = Some i -> Gb i h)
            (fun u w => match getObjectByName (heap w) s nm with
                        | Some i => body i u w
                        | None => ret tt u w
                        end)
            (fun h => match getObjectByName h s nm with
                      | Some i => Wb i h
                      | None => []
                      end)) as Hfirst.
  { split; [|split].
    - intros h h' Hsk. rewrite <- (getObjectByName_skeleton h h' s nm Hsk).
      split.
      + intros HG i Hi. destruct (Hb i) as (Hinv & _). by apply (Hinv h h' Hsk), HG.
      + destruct (getObjectByName h s nm) as [i|]; [|done].
        destruct (Hb i) as (Hinv & _). by apply Hinv.
    - intros h HG. destruct (getObjectByName h s nm) as [i|]; [|by constructor].
      destruct (Hb i) as (_ & Hout & _). by apply Hout, HG.
    - intros u w Hs HG. destruct (getObjectByName (heap w) s nm) as [i|].
      + destruct (Hb i) as (_ & _ & Hrun). by apply Hrun, HG.
      + unfold ret, set_heap. by destruct w. }
  pose proof (performs_seq _ _ _ _ _ _ Hfirst Hr) as (Hinv & Hout & Hrun).
  split; [exact Hinv|]. split; [exact Hout|].
  intros u w Hs HG. rewrite <- (Hrun u w Hs HG).
  unfold scene_getObjectByName. rewrite bind_assoc, bind_get_this. cbv beta.
  rewrite bind_assoc, bind_get_world. cbv beta. rewrite Hs. rewrite bind_ret.
  unfold bind. by destruct (getObjectByName (heap w) s nm).
Qed.

(** [group.children.forEach((child, index) => f(child, index))] *)
Lemma performs_forEach_from (cs : list ObjId) (f : ObjId -> nat -> Method SceneUnit unit)
  (Gf : ObjId -> nat -> gmap ObjId Object3D -> Prop)
  (Wf : ObjId -> nat -> gmap ObjId Object3D -> list Write) (i : nat) :
  (forall c k, performs s (Gf c k) (f c k) (Wf c k)) ->
  performs s
    (fun h => forall k c, cs !! k = Some c -> Gf c (i + k) h)
    (forEach_from i f cs)
    (fun h => concat (imap (fun k c => Wf c (i + k) h) cs)).
Proof.
  intros Hf. revert i. induction cs as [|c cs IH]; intros i.
  - eapply performs_weaken; [apply performs_ret|done..].
  - assert (forall h, concat (imap (fun k c' => Wf c' (i + k) h) (c :: cs))
                      = Wf c i h ++ concat (imap (fun k c' => Wf c' (S i + k) h) cs))
      as HWeq.
    { intros h. simpl. rewrite Nat.add_0_r. f_equal. f_equal.
      apply imap_ext. intros k c' _. simpl. f_equal. lia. }
    assert (forall h, (forall k c', (c :: cs) !! k = Some c' -> Gf c' (i + k) h) <->
                      Gf c i h /\
                      (forall k c', cs !! k = Some c' -> Gf c' (S i + k) h)) as HGeq.
    { intros h. split.
      - intros HG. split; [rewrite <- (Nat.add_0_r i); by apply (HG 0)|].
        intros k c' Hk. replace (S i + k) with (i + S k) by lia. by apply (HG (S k)).
      - intros [H0 Hrest] [|k] c' Hk; simpl in Hk.
        + injection Hk as <-. by rewrite Nat.add_0_r.
        + replace (i + S k) with (S i + k) by lia. by apply Hrest. }
    pose proof (performs_seq _ _ _ _ _ _ (Hf c i) (IH (S i))) as (Hinv & Hout & Hrun).
    split; [|split].
    + intros h h' Hsk. destruct (Hinv h h' Hsk) as [HG HW]. split.
      * intros HG'. apply HGeq, HG, HGeq, HG'.
      * rewrite !HWeq. exact HW.
    + intros h HG. rewrite HWeq. apply Hout, HGeq, HG.
    + intros u w Hs HG. simpl forEach_from.
      rewrite (Hrun u w Hs (proj1 (HGeq _) HG)). by rewrite HWeq.
Qed.

(** [group.children.forEach(f)], the children read from the store. *)
Lemma performs_children (p : ObjId) (f : ObjId -> nat -> Method SceneUnit unit)
  (Gf : ObjId -> nat -> gmap ObjId Object3D -> Prop)
  (Wf : ObjId -> nat -> gmap ObjId Object3D -> list Write) :
  (forall c k, performs s (Gf c k) (f c k) (Wf c k)) ->
  performs s
    (fun h => forall k c, children_of h p !! k = Some c -> Gf c k h)
    (w <- get_world ;; forEach (children_of (heap w) p) f)
    (fun h => concat (imap (fun k c => Wf c k h) (children_of h p))).
Proof.
  intros Hf. split; [|split].
  - intros h h' Hsk. rewrite <- (children_of_skeleton h h' p Hsk).
    destruct (performs_forEach_from (children_of h p) f Gf Wf 0 Hf) as (Hinv & _).
    destruct (Hinv h h' Hsk) as [HG HW]. split; [exact HG|exact HW].
  - intros h HG.
    destruct (performs_forEach_from (children_of h p) f Gf Wf 0 Hf) as (_ & Hout & _).
    by apply Hout.
  - intros u w Hs HG. rewrite bind_get_world.
    destruct (performs_forEach_from (children_of (heap w) p) f Gf Wf 0 Hf)
      as (_ & _ & Hrun).
    unfold forEach. by rewrite Hrun.
Qed.

End Performs.

Lemma performs_adapt (s : ObjId) (G G' : gmap ObjId Object3D -> Prop)
  (m : Method SceneUnit unit) (W W' : gmap ObjId Object3D -> list Write) :
  performs s G m W ->
  (forall h, G' h -> G h) ->
  (forall h h', skeleton h = skeleton h' -> G' h -> G' h') ->
  (forall h, W h = W' h) ->
  performs s G' m W'.
Proof.
  intros (Hinv & Hout & Hrun) HG HG' HW. split; [|split].
  - intros h h' Hsk. split; [by apply HG'|]. rewrite <- !HW. by apply Hinv.
  - intros h Hh. rewrite <- HW. by apply Hout, HG.
  - intros u w Hs Hh. rewrite <- HW. by apply Hrun, HG.
Qed.

(** [const x = this.scene.getObjectByName(nm); if (x) { body(x) }], last. *)
Lemma performs_named_last (s : ObjId) (nm : string)
  (body : ObjId -> Method SceneUnit unit)
  (Gb : ObjId -> gmap ObjId Object3D -> Prop)
  (Wb : ObjId -> gmap ObjId Object3D -> list Write) :
  (forall i, performs s (Gb i) (body i) (Wb i)) ->
  performs s
    (fun h => forall i, getObjectByName h s nm = Some i -> Gb i h)
    (x <- scene_getObjectByName nm ;;
     match x with Some i => body i | None => ret tt end)
    (fun h => on_named h s nm (fun i => Wb i h)).
Proof.
  intros Hb. unfold on_named. split; [|split].
  - intros h h' Hsk. rewrite <- (getObjectByName_skeleton h h' s nm Hsk).
    split.
    + intros HG i Hi. destruct (Hb i) as (Hinv & _). by apply (Hinv h h' Hsk), HG.
    + destruct (getObjectByName h s nm) as [i|]; [|done].
      destruct (Hb i) as (Hinv & _). by apply Hinv.
  - intros h HG. destruct (getObjectByName h s nm) as [i|]; [|by constructor].
    destruct (Hb i) as (_ & Hout & _). by apply Hout, HG.
  - intros u w Hs HG.
    unfold scene_getObjectByName. rewrite bind_assoc, bind_get_this. cbv beta.
    rewrite bind_assoc, bind_get_world. cbv beta. rewrite Hs. rewrite bind_ret.
    destruct (getObjectByName (heap w) s nm) as [i|].
    + destruct (Hb i) as (_ & _ & Hrun). by apply Hrun, HG.
    + unfold ret, set_heap. by destruct w.
Qed.

Lemma outline_with_rotation (f : Vector3 -> Vector3) (o : Object3D) :
  outline (with_rotation f o) = outline o.
Proof. done. Qed.

Lemma outline_with_position (f : Vector3 -> Vector3) (o : Object3D) :
  outline (with_position f o) = outline o.
Proof. done. Qed.

Lemma outline_with_material (f : Material -> Material) (o : Object3D) :
  outline (with_material f o) = outline o.
Proof. unfold outline. simpl. by destruct (material o). Qed.

Lemma outline_with_light (f : Light -> Light) (o : Object3D) :
  outline (with_light f o) = outline o.
Proof. unfold outline. simpl. by destruct (light o). Qed.

Lemma outline_with_geometry (f : Geometry -> Geometry) (o : Object3D) :
  outline (with_geometry f o) = outline o.
Proof. unfold outline. simpl. by destruct (geometry o). Qed.

Lemma Scene1_animateObjects_performs `{Runtime} (s : ObjId) (deltaTime now : float) :
  performs s (fun _ => True) (Scene1.animateObjects deltaTime now)
    (Scene1_writes (now * 0.001) s).
Proof.
  unfold Scene1.animateObjects. cbv zeta.
  eapply performs_adapt.
  - repeat (apply performs_named;
            [intros ?;
             first [ apply performs_seq; apply performs_update_object;
                     apply outline_with_rotation
                   | apply performs_update_object;
                     first [apply outline_with_rotation|apply outline_with_position] ]
            |]).
    apply performs_named_last. intros ?.
    apply performs_update_object, outline_with_rotation.
  - intros h _. cbv beta. repeat split; intros; exact I.
  - done.
  - intros h. reflexivity.
Qed.

Lemma quiet_app {X} (phi : Object3D -> X) (c : ObjId) (ws1 ws2 : list Write) :
  quiet phi c ws1 -> quiet phi c ws2 -> quiet phi c (ws1 ++ ws2).
Proof. intros. by apply Forall_app. Qed.

Lemma quiet_on_named {X} (phi : Object3D -> X) (c : ObjId) (h : gmap ObjId Object3D)
  (s : ObjId) (nm : string) (W : ObjId -> list Write) :
  (forall i, getObjectByName h s nm = Some i -> quiet phi c (W i)) ->
  quiet phi c (on_named h s nm W).
Proof.
  intros HW. unfold on_named. destruct (getObjectByName h s nm) as [i|].
  - by apply HW.
  - constructor.
Qed.

Lemma quiet_concat_imap {X} (phi : Object3D -> X) (c : ObjId) (l : list ObjId)
  (F : nat -> ObjId -> list Write) :
  (forall k c', l !! k = Some c' -> quiet phi c (F k c')) ->
  quiet phi c (concat (imap F l)).
Proof.
  revert F. induction l as [|a l IH]; intros F HF; simpl; [constructor|].
  apply quiet_app; [by apply (HF 0)|]. apply IH. intros k c' Hk. by apply (HF (S k)).
Qed.

(** Objects found under different names are different objects. *)
Lemma getObjectByName_distinct (h : gmap ObjId Object3D) (s : ObjId) (nm nm' : string)
  (i j : ObjId) :
  getObjectByName h s nm = Some i -> getObjectByName h s nm' = Some j ->
  nm <> nm' -> i <> j.
Proof.
  intros (o & Ho & Hn)%getObjectByName_name (o' & Ho' & Hn')%getObjectByName_name Hne ->.
  congruence.
Qed.

Ltac quiet_list :=
  repeat (constructor; [intros ? ?; first [reflexivity|congruence]|]);
  try constructor.

Section Scene1Fields.
Context `{Runtime} (time : float) (s : ObjId) (h0 h : gmap ObjId Object3D).

Lemma Scene1_sphere_height (i : ObjId) :
  getObjectByName h0 s "Sphere" = Some i -> is_Some (h !! i) ->
  height <$> apply_writes (Scene1_writes time s h0) h !! i
  = Some (1.2 + Math_sin (time * 2) * 0.3)%float.
Proof.
  intros Hi Hsome. unfold Scene1_writes.
  unfold on_named at 2. rewrite Hi.
  apply apply_writes_lookup_set; [done|done|].
  repeat apply quiet_app; try apply quiet_on_named; intros; quiet_list.
Qed.

Lemma Scene1_cone_tilt (i : ObjId) :
  getObjectByName h0 s "Cone" = Some i -> is_Some (h !! i) ->
  tilt <$> apply_writes (Scene1_writes time s h0) h !! i
  = Some (Math_sin time * 0.1)%float.
Proof.
  intros Hi Hsome. unfold Scene1_writes.
  unfold on_named at 5. rewrite Hi. rewrite !app_assoc.
  apply apply_writes_lookup_set; [done|done|constructor].
Qed.

Lemma Scene1_cube_turn (i : ObjId) :
  getObjectByName h0 s "Cube" = Some i ->
  turn_x <$> apply_writes (Scene1_writes time s h0) h !! i
  = (fun a => (a + 0.01)%float) <$> (turn_x <$> h !! i) /\
  turn_y <$> apply_writes (Scene1_writes time s h0) h !! i
  = (fun a => (a + 0.01)%float) <$> (turn_y <$> h !! i).
Proof.
  intros Hi. unfold Scene1_writes. unfold on_named at 1 6. rewrite Hi.
  assert (forall nm j, getObjectByName h0 s nm = Some j -> nm <> "Cube" -> j <> i) as Hd.
  { intros nm j Hj Hne. by eapply getObjectByName_distinct. }
  split.
  - apply (apply_writes_lookup_step turn_x i _ _ []); [done|constructor|].
    constructor; [done|].
    repeat apply quiet_app; apply quiet_on_named; intros j Hj;
      (repeat (constructor; [intros Hji; simpl in Hji; first [done|exfalso; by eapply Hd]|]));
      constructor.
  - apply (apply_writes_lookup_step turn_y i _ _ [(i, rotate_x 0.01)]);
      [done|quiet_list|].
    repeat apply quiet_app; apply quiet_on_named; intros j Hj;
      (repeat (constructor; [intros Hji; simpl in Hji; first [done|exfalso; by eapply Hd]|]));
      constructor.
Qed.

End Scene1Fields.

Lemma bind_update_object {T A} (i : ObjId) (f : Object3D -> Object3D)
  (k : unit -> Method T A) (this : T) (w : World) :
  bind (update_object i f) k this w = k tt this (set_heap (alter f i) w).
Proof. reflexivity. Qed.

Lemma has_material_alter (f : Object3D -> Object3D) (i c : ObjId)
  (h : gmap ObjId Object3D) :
  (forall o, outline (f o) = outline o) ->
  has_material (alter f i h) c = has_material h c.
Proof. intros Hf. apply has_material_skeleton. by apply skeleton_alter. Qed.

Lemma animatePlatform_performs `{Runtime} (s : ObjId) (time : float) (c : ObjId)
  (k : nat) :
  performs s (fun _ => True) (Scene2.animatePlatform time c k)
    (fun _ => platform_writes time c k).
Proof.
  unfold Scene2.animatePlatform.
  eapply performs_adapt.
  - apply performs_seq; apply performs_update_object;
      [apply outline_with_position|apply outline_with_rotation].
  - done.
  - done.
  - done.
Qed.

Lemma animateOrb_performs `{Runtime} (s : ObjId) (time : float) (c : ObjId) (k : nat) :
  performs s
    (fun h => has_material h c = true /\
              Forall (fun l => has_light h l = true)
                (option_list (head (children_of h c))))
    (Scene2.animateOrb time c k)
    (fun h => orb_writes time h c k).
Proof.
  split; [|split].
  - intros h h' Hsk. unfold orb_writes.
    rewrite <- (children_of_skeleton h h' c Hsk). split; [|done].
    intros [Hm Hl]. split; [by rewrite <- (has_material_skeleton h h' c Hsk)|].
    eapply Forall_impl; [exact Hl|]. intros l Hl'. simpl in *.
    by rewrite <- (has_light_skeleton h h' l Hsk).
  - intros h _. unfold orb_writes. apply Forall_app. split.
    + repeat (constructor;
              [intros ?; simpl;
               first [apply outline_with_position|apply outline_with_rotation
                     |apply outline_with_material]|]).
      constructor.
    + destruct (children_of h c); [constructor|].
      constructor; [|constructor]. intros ?. apply outline_with_light.
  - intros u w Hs [Hm Hl]. unfold Scene2.animateOrb, orb_writes.
    rewrite !bind_update_object. cbv beta zeta. rewrite bind_get_world. cbv beta.
    set (h2 := heap (set_heap _ (set_heap _ w))).
    assert (skeleton h2 = skeleton (heap w)) as Hsk.
    { unfold h2. simpl. rewrite !skeleton_alter; [done|..]; intros o;
        first [apply outline_with_position|apply outline_with_rotation]. }
    pose proof (has_material_skeleton _ _ c Hsk) as Hm2.
    rewrite Hm in Hm2. unfold has_material in Hm2.
    destruct (h2 !! c ≫= material) as [mt|]; [|done].
    rewrite bind_update_object. cbv beta.
    rewrite (children_of_skeleton _ _ c Hsk).
    destruct (children_of (heap w) c) as [|l cs] eqn:Hcs.
    + unfold ret, set_heap. destruct w. reflexivity.
    + simpl in Hl. apply Forall_cons in Hl as [Hl _].
      pose proof (has_light_skeleton _ _ l Hsk) as Hl2.
      rewrite Hl in Hl2. unfold has_light in Hl2.
      destruct (h2 !! l ≫= light) as [lt|]; [|done].
      unfold update_object, set_world, set_heap. destruct w. reflexivity.
Qed.

Lemma animateCrystal_performs `{Runtime} (s : ObjId) (time : float) (c : ObjId)
  (k : nat) :
  performs s (fun h => has_material h c = true) (Scene2.animateCrystal time c k)
    (fun _ => crystal_writes time c k).
Proof.
  split; [|split].
  - intros h h' Hsk. split; [|done]. by rewrite <- (has_material_skeleton h h' c Hsk).
  - intros h _.
    repeat (constructor;
            [intros ?; simpl;
             first [apply outline_with_rotation|apply outline_with_material]|]).
    constructor.
  - intros u w Hs Hm. unfold Scene2.animateCrystal, crystal_writes.
    rewrite bind_update_object. cbv beta. rewrite bind_get_world. cbv beta.
    pose proof (has_material_alter
                  (with_rotation (fun r => set_y (vy r + 0.01)%float r)) c c (heap w)
                  (outline_with_rotation _)) as Hm2.
    rewrite Hm in Hm2. unfold has_material in Hm2. simpl.
    destruct (_ !! c ≫= material) as [mt|]; [|done].
    unfold update_object, set_world, set_heap. destruct w. reflexivity.
Qed.

Lemma particles_performs (s : ObjId) (p : ObjId) :
  performs s (fun h => has_geometry h p = true)
    (update_object p (with_rotation (fun r => set_y (vy r + 0.001)%float r)) ;;
     w <- get_world ;;
     match heap w !! p ≫= geometry with
     | None => throw (TypeError "Cannot read properties of undefined (reading 'attributes')")
     | Some _ =>
         update_object p
           (with_geometry
              (fun g => mkGeometry (shape g) (Scene2.liftParticles (positionArray g)) true
                          (geometryDisposed g)))
     end)
    (fun _ => [(p, rotate_y 0.001);
               (p, with_geometry
                     (fun g => mkGeometry (shape g)
                                 (Scene2.liftParticles (positionArray g)) true
                                 (geometryDisposed g)))]).
Proof.
  split; [|split].
  - intros h h' Hsk. split; [|done]. by rewrite <- (has_geometry_skeleton h h' p Hsk).
  - intros h _.
    repeat (constructor;
            [intros ?; simpl;
             first [apply outline_with_rotation|apply outline_with_geometry]|]).
    constructor.
  - intros u w Hs Hg.
    rewrite bind_update_object. cbv beta. rewrite bind_get_world. cbv beta.
    assert (has_geometry (heap (set_heap
              (alter (with_rotation (fun r => set_y (vy r + 0.001)%float r)) p) w)) p
            = true) as Hg2.
    { rewrite <- Hg. apply has_geometry_skeleton. simpl.
      apply skeleton_alter, outline_with_rotation. }
    unfold has_geometry in Hg2.
    destruct (_ !! p ≫= geometry) as [g|]; [|done].
    unfold update_object, set_world, set_heap. destruct w. reflexivity.
Qed.

Lemma group_children_skeleton (h h' : gmap ObjId Object3D) (s : ObjId) (nm : string) :
  skeleton h = skeleton h' -> group_children h s nm = group_children h' s nm.
Proof.
  intros Hsk. unfold group_children.
  rewrite (getObjectByName_skeleton h h' s nm Hsk).
  destruct (getObjectByName h' s nm); [|done]. by apply children_of_skeleton.
Qed.

Lemma first_children_skeleton (h h' : gmap ObjId Object3D) (l : list ObjId) :
  skeleton h = skeleton h' -> first_children h l = first_children h' l.
Proof.
  intros Hsk. unfold first_children. apply list_omap_ext.
  apply Forall2_same_length_lookup. split; [done|].
  intros k c c' Hc Hc'. assert (c' = c) as -> by congruence.
  by rewrite (children_of_skeleton h h' c Hsk).
Qed.

Lemma Scene2_animable_skeleton (h h' : gmap ObjId Object3D) (s : ObjId) :
  skeleton h = skeleton h' -> Scene2_animable h s -> Scene2_animable h' s.
Proof.
  intros Hsk (Ho & Hl & Hc & Hp). unfold Scene2_animable.
  rewrite <- !(group_children_skeleton h h' s _ Hsk).
  rewrite <- (first_children_skeleton h h' _ Hsk).
  rewrite <- (getObjectByName_skeleton h h' s _ Hsk).
  repeat split.
  - eapply Forall_impl; [exact Ho|]. intros c Hm. simpl in *.
    by rewrite <- (has_material_skeleton h h' c Hsk).
  - eapply Forall_impl; [exact Hl|]. intros c Hm. simpl in *.
    by rewrite <- (has_light_skeleton h h' c Hsk).
  - eapply Forall_impl; [exact Hc|]. intros c Hm. simpl in *.
    by rewrite <- (has_material_skeleton h h' c Hsk).
  - eapply Forall_impl; [exact Hp|]. intros c Hm. simpl in *.
    by rewrite <- (has_geometry_skeleton h h' c Hsk).
Qed.

Lemma group_children_lookup (h : gmap ObjId Object3D) (s : ObjId) (nm : string)
  (g : ObjId) (k : nat) (c : ObjId) :
  getObjectByName h s nm = Some g -> children_of h g !! k = Some c ->
  group_children h s nm !! k = Some c.
Proof. intros Hg Hk. unfold group_children. by rewrite Hg. Qed.

Lemma first_children_elem (h : gmap ObjId Object3D) (l : list ObjId) (c x : ObjId) :
  c ∈ l -> head (children_of h c) = Some x -> x ∈ first_children h l.
Proof.
  intros Hc Hx. unfold first_children. apply list_elem_of_omap. by exists c.
Qed.

Lemma Scene2_update_performs `{Runtime} (s : ObjId) (deltaTime now : float) :
  performs s (fun h => Scene2_animable h s)
    (Scene2.animateObjects deltaTime now ;; Scene2.updateParticles deltaTime)
    (fun h => Scene2_writes (now * 0.001) s h ++ particle_writes s h).
Proof.
  unfold Scene2.animateObjects, Scene2.updateParticles. cbv zeta.
  eapply performs_adapt.
  - apply performs_seq.
    + apply performs_named;
        [intros ?; apply performs_update_object, outline_with_rotation|].
      apply performs_named;
        [intros ?; apply performs_children; intros ? ?; apply animatePlatform_performs|].
      apply performs_named;
        [intros ?; apply performs_children; intros ? ?; apply animateOrb_performs|].
      apply performs_named_last.
      intros ?; apply performs_children; intros ? ?; apply animateCrystal_performs.
    + apply performs_named_last. intros ?. apply particles_performs.
  - intros h (Ho & Hl & Hc & Hp). cbv beta.
    split; [split; [done|]; split; [done|]; split|].
    + intros g Hg k c Hk.
      pose proof (group_children_lookup h s _ g k c Hg Hk) as Hin.
      apply list_elem_of_lookup_2 in Hin. split.
      * rewrite Forall_forall in Ho. by apply Ho.
      * destruct (head (children_of h c)) as [x|] eqn:Hx; [|constructor].
        constructor; [|constructor]. rewrite Forall_forall in Hl. apply Hl.
        by eapply first_children_elem.
    + intros g Hg k c Hk.
      pose proof (group_children_lookup h s _ g k c Hg Hk) as Hin.
      apply list_elem_of_lookup_2 in Hin.
      rewrite Forall_forall in Hc. by apply Hc.
    + intros p Hp'. rewrite Hp' in Hp. simpl in Hp. by apply Forall_cons in Hp as [? _].
  - intros h h' Hsk. by apply Scene2_animable_skeleton.
  - intros h. reflexivity.
Qed.

(** An update of an initialized unit returns, leaves the unit as it is, and
    changes the world by the writes of its class, computed from the store
    before; the writes depend on the wall-clock time, not on [deltaTime]. *)
Lemma unit_update_run `{Runtime} (u : SceneUnit) (w : World) (s : ObjId)
  (deltaTime now : float) :
  isInitialized u = true -> scene u = Some s ->
  animable (unitClass u) (heap w) s ->
  unit_update deltaTime now u w
  = (Return tt, u,
     set_heap (apply_writes (update_writes (unitClass u) (now * 0.001) s (heap w))) w).
Proof.
  intros Hini Hs Hg. unfold unit_update, dispatch, update_writes, animable in *.
  destruct (unitClass u).
  - unfold Scene1.update. rewrite bind_get_this. cbv beta. rewrite Hini. simpl negb.
    cbv iota. by apply (Scene1_animateObjects_performs s deltaTime now).
  - unfold Scene2.update. rewrite bind_get_this. cbv beta. rewrite Hini. simpl negb.
    cbv iota. by apply (Scene2_update_performs s deltaTime now).
Qed.

Lemma update_writes_skeleton `{Runtime} (cls : SceneClass) (time : float) (s : ObjId)
  (h h' : gmap ObjId Object3D) :
  skeleton h = skeleton h' ->
  update_writes cls time s h = update_writes cls time s h' /\
  (animable cls h s -> animable cls h' s).
Proof.
  intros Hsk. destruct cls; simpl.
  - split; [|done].
    unfold Scene1_writes, on_named. by rewrite !(getObjectByName_skeleton h h' s _ Hsk).
  - split; [|by apply Scene2_animable_skeleton].
    unfold Scene2_writes, particle_writes, on_named, children_writes, orb_writes.
    rewrite !(getObjectByName_skeleton h h' s _ Hsk).
    repeat (f_equal; try done).
    + destruct (getObjectByName h' s "FloatingPlatforms"); [|done].
      by rewrite (children_of_skeleton h h' _ Hsk).
    + destruct (getObjectByName h' s "GlowingOrbs") as [g|]; [|done].
      rewrite (children_of_skeleton h h' _ Hsk). f_equal.
      apply imap_ext. intros k c _. simpl.
      by rewrite (children_of_skeleton h h' c Hsk).
    + destruct (getObjectByName h' s "CrystalFormation"); [|done].
      by rewrite (children_of_skeleton h h' _ Hsk).
Qed.

Lemma update_writes_outline `{Runtime} (cls : SceneClass) (time : float) (s : ObjId)
  (h : gmap ObjId Object3D) :
  animable cls h s -> outline_preserving (update_writes cls time s h).
Proof.
  intros Hg. destruct cls; simpl in *.
  - unfold Scene1_writes, on_named.
    repeat apply Forall_app_2;
      match goal with
      | |- Forall _ (match ?x with _ => _ end) => destruct x
      end;
      repeat (constructor; [intros ?; simpl; apply outline_with_rotation
                                   || apply outline_with_position|]);
      constructor.
  - destruct (Scene2_update_performs s 0%float 0%float) as (_ & Hout & _).
    specialize (Hout h Hg). cbv beta in Hout.
    apply Forall_app in Hout as [H1 H2]. apply Forall_app. split; [|exact H2].
    clear. unfold Scene2_writes, on_named, children_writes.
    repeat apply Forall_app_2;
      match goal with
      | |- Forall _ (match ?x with _ => _ end) => destruct x
      end; try constructor.
    + intros ?. apply outline_with_rotation.
    + constructor.
    + apply Forall_concat, Forall_forall. intros ws Hws.
      apply list_elem_of_lookup in Hws as [k Hk].
      apply list_lookup_imap_Some in Hk as (c & _ & ->).
      repeat (constructor; [intros ?; simpl; apply outline_with_rotation
                                   || apply outline_with_position|]).
      constructor.
    + apply Forall_concat, Forall_forall. intros ws Hws.
      apply list_elem_of_lookup in Hws as [k Hk].
      apply list_lookup_imap_Some in Hk as (c & _ & ->).
      unfold orb_writes. apply Forall_app_2.
      * repeat (constructor;
                [intros ?; simpl;
                 first [apply outline_with_position|apply outline_with_rotation
                       |apply outline_with_material]|]).
        constructor.
      * destruct (children_of h c); [constructor|].
        constructor; [|constructor]. intros ?. apply outline_with_light.
    + apply Forall_concat, Forall_forall. intros ws Hws.
      apply list_elem_of_lookup in Hws as [k Hk].
      apply list_lookup_imap_Some in Hk as (c & _ & ->).
      repeat (constructor;
              [intros ?; simpl;
               first [apply outline_with_rotation|apply outline_with_material]|]).
      constructor.
Qed.

(** *** Fields that the animation assigns *)

Lemma concat_imap_split {A B} (F : nat -> A -> list B) (l : list A) (k : nat) (c : A) :
  l !! k = Some c ->
  concat (imap F l)
  = concat (imap F (take k l)) ++ F k c ++
    concat (imap (fun j => F (S k + j)) (drop (S k) l)).
Proof.
  revert F k. induction l as [|a l IH]; intros F k Hk; [done|].
  destruct k as [|k]; simpl in *.
  - by injection Hk as ->.
  - rewrite (IH (F ∘ S) k Hk). by rewrite <- app_assoc.
Qed.

Lemma NoDup_lookup_drop {A} (l : list A) (k j : nat) (c c' : A) :
  NoDup l -> l !! k = Some c -> drop (S k) l !! j = Some c' -> c' <> c.
Proof.
  intros Hnd Hk Hj ->. rewrite lookup_drop in Hj.
  pose proof (NoDup_lookup l _ _ c Hnd Hk Hj). lia.
Qed.

Lemma NoDup_omap_lookup {A B} (f : A -> option B) (l : list A) (i j : nat)
  (a b : A) (x y : B) :
  NoDup (omap f l) -> l !! i = Some a -> l !! j = Some b -> i <> j ->
  f a = Some x -> f b = Some y -> x <> y.
Proof.
  revert i j. induction l as [|a0 l IH]; intros i j Hnd Hi Hj Hij Ha Hb; [done|].
  destruct i as [|i], j as [|j]; simpl in *; try done.
  - injection Hi as ->. rewrite Ha in Hnd. apply NoDup_cons in Hnd as [Hx _].
    intros ->. apply Hx. apply list_elem_of_omap. exists b. split; [|done].
    by eapply list_elem_of_lookup_2.
  - injection Hj as ->. rewrite Hb in Hnd. apply NoDup_cons in Hnd as [Hy _].
    intros ->. apply Hy. apply list_elem_of_omap. exists a. split; [|done].
    by eapply list_elem_of_lookup_2.
  - apply (IH i j); try done; [|lia].
    destruct (f a0); [by apply NoDup_cons in Hnd as [_ ?]|done].
Qed.

Lemma outline_apply_writes (ws : list Write) (h : gmap ObjId Object3D) (c : ObjId) :
  outline_preserving ws -> outline <$> apply_writes ws h !! c = outline <$> h !! c.
Proof. intros Hws. apply skeleton_lookup. by apply skeleton_apply_writes. Qed.

(** After the writes [ws1], which keep the outline, a write [f] on [c] that
    sets the field to [v] on objects of the outline of [c], and then the
    writes [ws2] that leave the field of [c] alone, the field is [v]. *)
Lemma apply_writes_lookup_assign {X} (phi : Object3D -> X) (c : ObjId)
  (f : Object3D -> Object3D) (v : X) (P : Object3D -> Prop) (ws1 ws2 : list Write)
  (h : gmap ObjId Object3D) :
  (forall o, P o -> phi (f o) = v) ->
  (forall o o', outline o = outline o' -> P o -> P o') ->
  (exists o, h !! c = Some o /\ P o) ->
  outline_preserving ws1 ->
  quiet phi c ws2 ->
  phi <$> apply_writes (ws1 ++ (c, f) :: ws2) h !! c = Some v.
Proof.
  intros Hf HP (o & Ho & HPo) Hws Hq. rewrite apply_writes_app.
  change (apply_writes ((c, f) :: ws2) (apply_writes ws1 h))
    with (apply_writes ws2 (alter f c (apply_writes ws1 h))).
  rewrite apply_writes_lookup_quiet by done. rewrite lookup_alter_eq.
  pose proof (outline_apply_writes ws1 h c Hws) as Hout. rewrite Ho in Hout.
  destruct (apply_writes ws1 h !! c) as [o1|]; simpl in *; [|done].
  f_equal. apply Hf. apply (HP o); [|done]. congruence.
Qed.

Lemma has_material_Some (h : gmap ObjId Object3D) (c : ObjId) :
  has_material h c = true ->
  exists o, h !! c = Some o /\ is_Some (material o).
Proof.
  unfold has_material. destruct (h !! c) as [o|]; simpl; [|done].
  destruct (material o) eqn:Hm; [|done]. intros _. exists o. by rewrite Hm.
Qed.

Lemma has_light_Some (h : gmap ObjId Object3D) (c : ObjId) :
  has_light h c = true ->
  exists o, h !! c = Some o /\ is_Some (light o).
Proof.
  unfold has_light. destruct (h !! c) as [o|]; simpl; [|done].
  destruct (light o) eqn:Hm; [|done]. intros _. exists o. by rewrite Hm.
Qed.

Lemma is_Some_material_outline (o o' : Object3D) :
  outline o = outline o' -> is_Some (material o) -> is_Some (material o').
Proof.
  unfold outline. intros Heq [m Hm]. rewrite Hm in Heq.
  destruct (material o'); [done|]. by injection Heq.
Qed.

Lemma is_Some_light_outline (o o' : Object3D) :
  outline o = outline o' -> is_Some (light o) -> is_Some (light o').
Proof.
  unfold outline. intros Heq [m Hm]. rewrite Hm in Heq.
  destruct (light o'); [done|]. by injection Heq.
Qed.

Ltac quiet_writes :=
  unfold platform_writes, crystal_writes, emissive_of, opacity_of, set_opacity,
    set_emissive, set_light;
  repeat (constructor;
          [let Hji := fresh "Hji" in
           let o := fresh "obj" in
           intros Hji o; simpl in Hji; simpl;
           first [reflexivity | by destruct (material o) | by destruct (light o)
                 | by destruct (geometry o) | congruence | done]|]);
  try constructor.

Lemma group_children_Some (h : gmap ObjId Object3D) (s : ObjId) (nm : string)
  (k : nat) (c : ObjId) :
  group_children h s nm !! k = Some c ->
  exists g, getObjectByName h s nm = Some g /\ children_of h g !! k = Some c.
Proof.
  unfold group_children. destruct (getObjectByName h s nm) as [g|]; [|done].
  intros Hk. by exists g.
Qed.

Lemma group_children_named (h : gmap ObjId Object3D) (s : ObjId) (nm : string)
  (g : ObjId) :
  getObjectByName h s nm = Some g -> group_children h s nm = children_of h g.
Proof. intros Hg. unfold group_children. by rewrite Hg. Qed.

Section Scene2Fields.
Context `{Runtime} (time : float) (s : ObjId) (h0 h : gmap ObjId Object3D).
Hypothesis Htree : Scene2_tree h0 s.
Hypothesis Hanim : Scene2_animable h0 s.
Hypothesis Hsk : skeleton h0 = skeleton h.

Lemma Scene2_platform_height (k : nat) (c : ObjId) :
  group_children h0 s "FloatingPlatforms" !! k = Some c -> is_Some (h !! c) ->
  height <$> apply_writes (update_writes Scene2Class time s h0) h !! c
  = Some (platform_height time k).
Proof using Htree.
  intros Hk Hc. destruct Htree as (Hnd & _ & _).
  pose proof (list_elem_of_lookup_2 _ _ _ Hk) as Hin.
  apply NoDup_app in Hnd as (Hndp & Hpo & _).
  destruct (group_children_Some _ _ _ _ _ Hk) as (g & Hg & Hkg).
  rewrite (group_children_named _ _ _ _ Hg) in Hndp.
  unfold update_writes, Scene2_writes. unfold on_named at 2. rewrite Hg.
  unfold children_writes at 1. rewrite (concat_imap_split _ _ k c Hkg).
  unfold platform_writes at 2. rewrite <- !app_assoc. simpl app.
  rewrite !(app_assoc (on_named _ _ _ _)).
  apply apply_writes_lookup_set; [done|done|].
  constructor; [done|].
  apply quiet_app; [|apply quiet_app; [apply quiet_app|]].
  - apply quiet_concat_imap. intros j c' Hj.
    pose proof (NoDup_lookup_drop _ _ _ _ _ Hndp Hkg Hj). quiet_writes.
  - apply quiet_on_named. intros g' Hg'. apply quiet_concat_imap. intros j c' Hj.
    assert (c' <> c) as Hne.
    { intros ->. apply (Hpo c Hin). rewrite (group_children_named _ _ _ _ Hg').
      by eapply list_elem_of_lookup_2. }
    unfold orb_writes. apply quiet_app; [quiet_writes|].
    destruct (children_of h0 c'); quiet_writes.
  - apply quiet_on_named. intros g' Hg'. apply quiet_concat_imap. intros j c' Hj.
    quiet_writes.
  - apply quiet_on_named. intros p Hp. quiet_writes.
Qed.

Lemma Scene2_writes_outline :
  outline_preserving (update_writes Scene2Class time s h0).
Proof using Hanim. by apply update_writes_outline. Qed.

Lemma Scene2_orb_emissive (k : nat) (c : ObjId) :
  group_children h0 s "GlowingOrbs" !! k = Some c ->
  emissive_of <$> apply_writes (update_writes Scene2Class time s h0) h !! c
  = Some (Some (orb_colour time k)).
Proof using Htree Hanim Hsk.
  intros Hk. destruct Htree as (Hnd & _ & _).
  pose proof (list_elem_of_lookup_2 _ _ _ Hk) as Hin.
  apply NoDup_app in Hnd as (_ & _ & Hndo).
  destruct Hanim as (Hmat & _).
  rewrite Forall_forall in Hmat. specialize (Hmat c Hin).
  rewrite (has_material_skeleton _ _ c Hsk) in Hmat.
  apply has_material_Some in Hmat.
  destruct (group_children_Some _ _ _ _ _ Hk) as (g & Hg & Hkg).
  rewrite (group_children_named _ _ _ _ Hg) in Hndo.
  pose proof Scene2_writes_outline as Hout.
  assert (exists ws1 ws2,
            update_writes Scene2Class time s h0
            = ws1 ++ (c, set_emissive (orb_colour time k)) :: ws2 /\
            quiet emissive_of c ws2) as (ws1 & ws2 & Heq & Hq).
  { unfold update_writes, Scene2_writes. unfold on_named at 3. rewrite Hg.
    unfold children_writes at 2. rewrite (concat_imap_split _ _ k c Hkg).
    unfold orb_writes at 2. rewrite <- !app_assoc. simpl app.
    match goal with
    | |- exists _ _, ?A ++ ?B ++ ?pre ++ ?x1 :: ?x2 :: _ :: ?rest = _ /\ _ =>
        exists (A ++ B ++ pre ++ [x1; x2]), rest
    end.
    split; [by rewrite <- !app_assoc|].
    apply quiet_app; [|apply quiet_app; [|apply quiet_app]].
    - destruct (children_of h0 c); quiet_writes.
    - apply quiet_concat_imap. intros j c' Hj.
      pose proof (NoDup_lookup_drop _ _ _ _ _ Hndo Hkg Hj).
      unfold orb_writes. apply quiet_app; [quiet_writes|].
      destruct (children_of h0 c'); quiet_writes.
    - apply quiet_on_named. intros g' Hg'. apply quiet_concat_imap. intros j c' Hj.
      quiet_writes.
    - apply quiet_on_named. intros p Hp. quiet_writes. }
  rewrite Heq in Hout |- *. apply Forall_app in Hout as [Hout _].
  apply (apply_writes_lookup_assign _ _ _ _ (fun o => is_Some (material o)));
    [|apply is_Some_material_outline|done|done|done].
  intros o [m Hm]. unfold emissive_of, set_emissive. simpl. by rewrite Hm.
Qed.

Lemma Scene2_orb_light (k : nat) (c l : ObjId) :
  group_children h0 s "GlowingOrbs" !! k = Some c ->
  head (children_of h0 c) = Some l ->
  light <$> apply_writes (update_writes Scene2Class time s h0) h !! l
  = Some (Some (mkLight (orb_colour time k) (orb_intensity time k))).
Proof using Htree Hanim Hsk.
  intros Hk Hl. destruct Htree as (_ & _ & Hnd).
  pose proof (list_elem_of_lookup_2 _ _ _ Hk) as Hin.
  destruct Hanim as (_ & Hlight & _).
  rewrite Forall_forall in Hlight.
  specialize (Hlight l (first_children_elem _ _ _ _ Hin Hl)).
  rewrite (has_light_skeleton _ _ l Hsk) in Hlight.
  apply has_light_Some in Hlight.
  destruct (group_children_Some _ _ _ _ _ Hk) as (g & Hg & Hkg).
  rewrite (group_children_named _ _ _ _ Hg) in Hnd. unfold first_children in Hnd.
  pose proof Scene2_writes_outline as Hout.
  assert (exists ws1 ws2,
            update_writes Scene2Class time s h0
            = ws1 ++ (l, set_light (mkLight (orb_colour time k) (orb_intensity time k)))
                  :: ws2 /\
            quiet light l ws2) as (ws1 & ws2 & Heq & Hq).
  { unfold update_writes, Scene2_writes. unfold on_named at 3. rewrite Hg.
    unfold children_writes at 2. rewrite (concat_imap_split _ _ k c Hkg).
    unfold orb_writes at 2.
    destruct (children_of h0 c) as [|l' ls] eqn:Hch; [done|].
    injection Hl as ->.
    rewrite <- !app_assoc. simpl app.
    match goal with
    | |- exists _ _, ?A ++ ?B ++ ?pre ++ ?x1 :: ?x2 :: ?x3 :: _ :: ?rest = _ /\ _ =>
        exists (A ++ B ++ pre ++ [x1; x2; x3]), rest
    end.
    split; [by rewrite <- !app_assoc|].
    apply quiet_app; [|apply quiet_app].
    - apply quiet_concat_imap. intros j c' Hj.
      unfold orb_writes. apply quiet_app; [quiet_writes|].
      destruct (children_of h0 c') as [|l' ls'] eqn:Hch'; [constructor|].
      rewrite lookup_drop in Hj.
      assert (l' <> l) as Hne.
      { apply (NoDup_omap_lookup _ _ (S k + j) k c' c l' l Hnd Hj Hkg); [lia| |].
        - by rewrite Hch'.
        - by rewrite Hch. }
      quiet_writes.
    - apply quiet_on_named. intros g' Hg'. apply quiet_concat_imap. intros j c' Hj.
      quiet_writes.
    - apply quiet_on_named. intros p Hp. quiet_writes. }
  rewrite Heq in Hout |- *. apply Forall_app in Hout as [Hout _].
  apply (apply_writes_lookup_assign _ _ _ _ (fun o => is_Some (light o)));
    [|apply is_Some_light_outline|done|done|done].
  intros o [m Hm]. unfold set_light. simpl. by rewrite Hm.
Qed.

Lemma Scene2_crystal_opacity (k : nat) (c : ObjId) :
  group_children h0 s "CrystalFormation" !! k = Some c ->
  opacity_of <$> apply_writes (update_writes Scene2Class time s h0) h !! c
  = Some (Some (crystal_opacity time k)).
Proof using Htree Hanim Hsk.
  intros Hk. destruct Htree as (_ & Hnd & _).
  pose proof (list_elem_of_lookup_2 _ _ _ Hk) as Hin.
  destruct Hanim as (_ & _ & Hmat & _).
  rewrite Forall_forall in Hmat. specialize (Hmat c Hin).
  rewrite (has_material_skeleton _ _ c Hsk) in Hmat.
  apply has_material_Some in Hmat.
  destruct (group_children_Some _ _ _ _ _ Hk) as (g & Hg & Hkg).
  rewrite (group_children_named _ _ _ _ Hg) in Hnd.
  pose proof Scene2_writes_outline as Hout.
  assert (exists ws1 ws2,
            update_writes Scene2Class time s h0
            = ws1 ++ (c, set_opacity (crystal_opacity time k)) :: ws2 /\
            quiet opacity_of c ws2) as (ws1 & ws2 & Heq & Hq).
  { unfold update_writes, Scene2_writes. unfold on_named at 4. rewrite Hg.
    unfold children_writes at 3. rewrite (concat_imap_split _ _ k c Hkg).
    unfold crystal_writes at 2. rewrite <- !app_assoc. simpl app.
    match goal with
    | |- exists _ _, ?A ++ ?B ++ ?C ++ ?pre ++ ?x1 :: _ :: ?rest = _ /\ _ =>
        exists (A ++ B ++ C ++ pre ++ [x1]), rest
    end.
    split; [by rewrite <- !app_assoc|].
    apply quiet_app.
    - apply quiet_concat_imap. intros j c' Hj.
      pose proof (NoDup_lookup_drop _ _ _ _ _ Hnd Hkg Hj). quiet_writes.
    - apply quiet_on_named. intros p Hp. quiet_writes. }
  rewrite Heq in Hout |- *. apply Forall_app in Hout as [Hout _].
  apply (apply_writes_lookup_assign _ _ _ _ (fun o => is_Some (material o)));
    [|apply is_Some_material_outline|done|done|done].
  intros o [m Hm]. unfold opacity_of, set_opacity. simpl. by rewrite Hm.
Qed.

End Scene2Fields.

Lemma skeleton_is_Some (h h' : gmap ObjId Object3D) (i : ObjId) :
  skeleton h = skeleton h' -> is_Some (h !! i) -> is_Some (h' !! i).
Proof.
  intros Hsk [o Ho]. pose proof (skeleton_lookup _ _ i Hsk) as Hi.
  rewrite Ho in Hi. by destruct (h' !! i).
Qed.

(** The properties assigned from the wall-clock time hold after the writes
    of an update, whatever the store was before, as long as it has the
    outline of the store [h0] in which the writes were computed. *)
Lemma update_writes_phase `{Runtime} (cls : SceneClass) (time : float) (s : ObjId)
  (h0 : gmap ObjId Object3D) (w w' : World) :
  animable cls h0 s -> tree cls h0 s ->
  skeleton h0 = skeleton (heap w) ->
  heap w' = apply_writes (update_writes cls time s h0) (heap w) ->
  phase_assigned cls time s h0 w'.
Proof.
  intros Hanim Htree Hsk Hw'. destruct cls; simpl in *.
  - split; intros i Hi; unfold field; rewrite Hw'.
    + apply Scene1_sphere_height; [done|].
      apply (skeleton_is_Some h0); [done|].
      destruct (getObjectByName_name _ _ _ _ Hi) as (o & -> & _). done.
    + apply Scene1_cone_tilt; [done|].
      apply (skeleton_is_Some h0); [done|].
      destruct (getObjectByName_name _ _ _ _ Hi) as (o & -> & _). done.
  - repeat split; unfold field; rewrite Hw'.
    + intros k c Hk Hc. apply (Scene2_platform_height time s h0 (heap w) Htree k c Hk).
      by apply (skeleton_is_Some h0).
    + intros k c Hk. by apply (Scene2_orb_emissive time s h0 (heap w)).
    + intros k c l Hk Hl. by apply (Scene2_orb_light time s h0 (heap w) Htree Hanim Hsk k c).
    + intros k c Hk. by apply (Scene2_crystal_opacity time s h0 (heap w)).
Qed.

Section Scene1Turns.
Context `{Runtime} (time : float) (s : ObjId) (h0 h : gmap ObjId Object3D).

Lemma Scene1_torus_turn (i : ObjId) :
  getObjectByName h0 s "Torus" = Some i ->
  turn_x <$> apply_writes (Scene1_writes time s h0) h !! i
  = (fun a => (a + 0.02)%float) <$> (turn_x <$> h !! i) /\
  turn_y <$> apply_writes (Scene1_writes time s h0) h !! i
  = (fun a => (a + 0.01)%float) <$> (turn_y <$> h !! i).
Proof.
  intros Hi. unfold Scene1_writes. unfold on_named at 3 8. rewrite Hi.
  assert (forall nm j, getObjectByName h0 s nm = Some j -> nm <> "Torus" -> j <> i) as Hd.
  { intros nm j Hj Hne. by eapply getObjectByName_distinct. }
  rewrite !(app_assoc (on_named h0 s "Cube" _)).
  split.
  - apply (apply_writes_lookup_step turn_x i _ _ _ (_ :: _)); [done| |].
    + repeat apply quiet_app; apply quiet_on_named; intros j Hj;
        (repeat (constructor; [intros Hji; simpl in Hji; first [done|exfalso; by eapply Hd]|]));
        constructor.
    + constructor; [done|].
      repeat apply quiet_app; apply quiet_on_named; intros j Hj;
        (repeat (constructor; [intros Hji; simpl in Hji; first [done|exfalso; by eapply Hd]|]));
        constructor.
  - cbn [app].
    match goal with
    | |- context [apply_writes (?A ++ (?x :: ?y :: ?B)) _] =>
        change (A ++ (x :: y :: B)) with (A ++ [x] ++ y :: B); rewrite (app_assoc A [x])
    end.
    apply (apply_writes_lookup_step turn_y i _ _ _ _); [done| |].
    + repeat apply quiet_app; try apply quiet_on_named; intros;
        (repeat (constructor; [intros Hji; simpl in Hji; first [done|exfalso; by eapply Hd]|]));
        try constructor.
    + repeat apply quiet_app; apply quiet_on_named; intros j Hj;
        (repeat (constructor; [intros Hji; simpl in Hji; first [done|exfalso; by eapply Hd]|]));
        constructor.
Qed.

Lemma Scene1_cylinder_turn (i : ObjId) :
  getObjectByName h0 s "Cylinder" = Some i ->
  turn_y <$> apply_writes (Scene1_writes time s h0) h !! i
  = (fun a => (a + 0.015)%float) <$> (turn_y <$> h !! i).
Proof.
  intros Hi. unfold Scene1_writes. unfold on_named at 4. rewrite Hi.
  assert (forall nm j, getObjectByName h0 s nm = Some j -> nm <> "Cylinder" -> j <> i) as Hd.
  { intros nm j Hj Hne. by eapply getObjectByName_distinct. }
  rewrite !(app_assoc (on_named h0 s "Cube" _)).
  rewrite (app_assoc _ (on_named h0 s "Torus" _)).
  apply (apply_writes_lookup_step turn_y i _ _ _ _); [done| |].
  + repeat apply quiet_app; apply quiet_on_named; intros j Hj;
      (repeat (constructor; [intros Hji; simpl in Hji; first [done|exfalso; by eapply Hd]|]));
      constructor.
  + repeat apply quiet_app; apply quiet_on_named; intros j Hj;
      (repeat (constructor; [intros Hji; simpl in Hji; first [done|exfalso; by eapply Hd]|]));
      constructor.
Qed.

End Scene1Turns.

Lemma Scene1_writes_turned `{Runtime} (time : float) (s : ObjId)
  (h0 : gmap ObjId Object3D) (w w' : World) :
  heap w' = apply_writes (Scene1_writes time s h0) (heap w) ->
  Scene1_turned s h0 w w'.
Proof.
  intros Hw. unfold Scene1_turned, field. rewrite Hw. split; [|split].
  - intros i Hi. by apply Scene1_cube_turn.
  - intros i Hi. by apply Scene1_torus_turn.
  - intros i Hi. by apply Scene1_cylinder_turn.
Qed.

(** C9 (as the code has it): [update] does not read [deltaTime]; for every
    initialized Scene Unit whose scene graph can be animated, two
    consecutive [update] calls at the same wall-clock time both return and
    leave the unit as it is; after the first and after the second call, the
    properties that the animation assigns from the wall-clock phase (in
    [Scene1] the height of the sphere and the tilt of the cone; in [Scene2]
    the heights of the platforms, the emissive colour of the orbs, the colour
    and intensity of their lights, and the opacity of the crystals) have the
    same values, those of that time; the rotations that the animation
    increments accumulate: the cube, the torus and the cylinder of [Scene1]
    turn by their steps on each of the two calls. *)
Theorem update_same_time_assigned_fields `{Runtime} (u : SceneUnit) (w : World)
  (s : ObjId) (deltaTime1 deltaTime2 now : float) :
  isInitialized u = true -> scene u = Some s ->
  animable (unitClass u) (heap w) s ->
  tree (unitClass u) (heap w) s ->
  let r1 := unit_update deltaTime1 now u w in
  let r2 := unit_update deltaTime2 now r1.1.2 r1.2 in
  (forall deltaTime u0 w0,
     unit_update deltaTime now u0 w0 = unit_update deltaTime1 now u0 w0) /\
  r1.1.1 = Return tt /\ r2.1.1 = Return tt /\ r1.1.2 = u /\ r2.1.2 = u /\
  phase_assigned (unitClass u) (now * 0.001) s (heap w) r1.2 /\
  phase_assigned (unitClass u) (now * 0.001) s (heap w) r2.2 /\
  (unitClass u = Scene1Class ->
   Scene1_turned s (heap w) w r1.2 /\ Scene1_turned s (heap w) r1.2 r2.2).
Proof.
  intros Hini Hs Hanim Htree. cbv zeta.
  split; [reflexivity|].
  rewrite (unit_update_run u w s deltaTime1 now Hini Hs Hanim). cbn [fst snd].
  set (L := update_writes (unitClass u) (now * 0.001) s (heap w)).
  set (w1 := set_heap (apply_writes L) w).
  assert (heap w1 = apply_writes L (heap w)) as Hw1 by (by destruct w).
  assert (skeleton (heap w) = skeleton (heap w1)) as Hsk.
  { rewrite Hw1. symmetry. apply skeleton_apply_writes.
    by apply update_writes_outline. }
  destruct (update_writes_skeleton (unitClass u) (now * 0.001) s _ _ Hsk)
    as (HL & Hanim1).
  rewrite (unit_update_run u w1 s deltaTime2 now Hini Hs (Hanim1 Hanim)). cbn [fst snd].
  rewrite <- HL. fold L.
  set (w2 := set_heap (apply_writes L) w1).
  assert (heap w2 = apply_writes L (heap w1)) as Hw2 by (by destruct w1).
  split; [done|]. split; [done|]. split; [done|]. split; [done|].
  split; [by apply (update_writes_phase _ _ _ _ w)|].
  split; [by apply (update_writes_phase _ _ _ _ w1)|].
  intros Hcls. unfold L in Hw1, Hw2. rewrite Hcls in Hw1, Hw2.
  cbv beta iota delta [update_writes] in Hw1, Hw2.
  split; by apply (Scene1_writes_turned (now * 0.001)).
Qed.

(** C9, as stated, fails: the rotations of the animation are incremented on
    every call, whatever the time.  After [init], a second [update] of the
    [Scene1] unit at the same wall-clock time turns the cube once more, so the
    visual state differs from that after a single call. *)
Lemma update_twice_turns_cube_again :
  let u := mkSceneUnit Scene1Class (Some 0) [1; 2; 3; 4; 5; 6] true [] in
  let r1 := @unit_update evalRuntime 0.016 1000 u started.2 in
  let r2 := @unit_update evalRuntime 0.016 1000 r1.1.2 r1.2 in
  registered started.1 "scene1" = Some u /\ initialized u /\
  r1.1.1 = Return tt /\ r2.1.1 = Return tt /\
  visualState r2.2 <> visualState r1.2.
Proof.
  cbv zeta.
  split; [vm_compute; reflexivity|].
  split; [split; [reflexivity|by eexists]|].
  split; [vm_compute; reflexivity|].
  split; [vm_compute; reflexivity|].
  intros Heq.
  apply (f_equal (fun v : gmap ObjId (Vector3 * Vector3 * option Material * option Light) =>
                    (fun x => Prim2SF (vx x.1.1.2)) <$> v !! 2)) in Heq.
  vm_compute in Heq. discriminate Heq.
Qed.

Lemma update_same_time_assigned_fields_witness :
  let u1 := mkSceneUnit Scene1Class (Some 0) [1; 2; 3; 4; 5; 6] true [] in
  let u2 := mkSceneUnit Scene2Class (Some 9) [10; 11; 12; 13; 14; 15; 21; 25; 46; 59]
              true [] in
  let a1 := @unit_update evalRuntime 0.016 1000 u1 started.2 in
  let a2 := @unit_update evalRuntime 0.033 1000 a1.1.2 a1.2 in
  let b1 := @unit_update evalRuntime 0.016 1000 u2 started.2 in
  let b2 := @unit_update evalRuntime 0.033 1000 b1.1.2 b1.2 in
  registered started.1 "scene1" = Some u1 /\
  registered started.1 "scene2" = Some u2 /\
  animable Scene2Class (heap started.2) 9 /\
  tree Scene2Class (heap started.2) 9 /\
  @phase_assigned evalRuntime Scene1Class (1000 * 0.001) 0 (heap started.2) a1.2 /\
  @phase_assigned evalRuntime Scene1Class (1000 * 0.001) 0 (heap started.2) a2.2 /\
  Scene1_turned 0 (heap started.2) started.2 a1.2 /\
  Scene1_turned 0 (heap started.2) a1.2 a2.2 /\
  @phase_assigned evalRuntime Scene2Class (1000 * 0.001) 9 (heap started.2) b1.2 /\
  @phase_assigned evalRuntime Scene2Class (1000 * 0.001) 9 (heap started.2) b2.2.
Proof.
  cbv zeta.
  assert (animable Scene2Class (heap started.2) 9) as Hanim.
  { unfold animable, Scene2_animable.
    match goal with |- ?P => refine (@bool_decide_unpack P _ _) end.
    vm_compute. exact I. }
  assert (tree Scene2Class (heap started.2) 9) as Htree.
  { unfold tree, Scene2_tree.
    match goal with |- ?P => refine (@bool_decide_unpack P _ _) end.
    vm_compute. exact I. }
  split; [vm_compute; reflexivity|]. split; [vm_compute; reflexivity|].
  split; [exact Hanim|]. split; [exact Htree|].
  pose proof (@update_same_time_assigned_fields evalRuntime
                (mkSceneUnit Scene1Class (Some 0) [1; 2; 3; 4; 5; 6] true [])
                started.2 0 0.016 0.033 1000 eq_refl eq_refl I I) as H1.
  cbv zeta in H1. destruct H1 as (_ & _ & _ & _ & _ & Hp1 & Hp2 & Ht).
  destruct (Ht eq_refl) as (Ht1 & Ht2).
  split; [exact Hp1|]. split; [exact Hp2|]. split; [exact Ht1|]. split; [exact Ht2|].
  pose proof (@update_same_time_assigned_fields evalRuntime
                (mkSceneUnit Scene2Class (Some 9)
                   [10; 11; 12; 13; 14; 15; 21; 25; 46; 59] true [])
                started.2 9 0.016 0.033 1000 eq_refl eq_refl Hanim Htree) as H2.
  cbv zeta in H2. destruct H2 as (_ & _ & _ & _ & _ & Hq1 & Hq2 & _).
  split; [exact Hq1|exact Hq2].
Defined.
(** *** The properties on the scenes of the application *)

Lemma load_then_remove_cube_witness :
  let u := mkSceneUnit Scene1Class (Some 0) [1; 2; 3; 4; 5; 6] true [] in
  let r1 := SceneManager.loadModelIntoCurrentScene "cube" started.1 started.2 in
  let r2 := SceneManager.removeModelFromCurrentScene "cube" r1.1.2 r1.2 in
  SceneManager.currentSceneName started.1 = Some "scene1" /\
  "scene1" <> "" /\
  SceneManager.scene_named started.1 "scene1" = VUnit 0 /\
  SceneManager.units started.1 !! 0 = Some u /\
  isInitialized u = true /\ scene u = Some 0 /\
  0 < nextId started.2 /\ is_Some (heap started.2 !! 0) /\
  objects_allocated u started.2 /\ NoDup (objects u) /\
  Forall (fun id => id < nextId started.2) (scene_children u started.2) /\
  NoDup (scene_children u started.2) /\
  (SceneManager.getCurrentSceneModelCount r1.1.2 r1.2).1.1
  = Return (S (getModelCount u started.2)) /\
  (SceneManager.getCurrentSceneModelCount r2.1.2 r2.2).1.1
  = Return (getModelCount u started.2).
Proof.
  cbv zeta.
  set (u := mkSceneUnit Scene1Class (Some 0) [1; 2; 3; 4; 5; 6] true []).
  assert (SceneManager.currentSceneName started.1 = Some "scene1") as Hcur
    by (vm_compute; reflexivity).
  assert ("scene1" <> "") as Hne by discriminate.
  assert (SceneManager.scene_named started.1 "scene1" = VUnit 0) as Hn
    by (vm_compute; reflexivity).
  assert (SceneManager.units started.1 !! 0 = Some u) as Hu by (vm_compute; reflexivity).
  assert (0 < nextId started.2) as Hlt by (vm_compute; lia).
  assert (is_Some (heap started.2 !! 0)) as Hsome by (eexists; vm_compute; reflexivity).
  assert (objects_allocated u started.2) as Halloc.
  { unfold objects_allocated.
    match goal with |- ?P => refine (@bool_decide_unpack P _ _) end.
    vm_compute. exact I. }
  assert (NoDup (objects u)) as Hnd.
  { match goal with |- ?P => refine (@bool_decide_unpack P _ _) end.
    vm_compute. exact I. }
  assert (Forall (fun id => id < nextId started.2) (scene_children u started.2)) as Hcalloc.
  { match goal with |- ?P => refine (@bool_decide_unpack P _ _) end.
    vm_compute. exact I. }
  assert (NoDup (scene_children u started.2)) as Hcnd.
  { match goal with |- ?P => refine (@bool_decide_unpack P _ _) end.
    vm_compute. exact I. }
  split; [exact Hcur|]. split; [exact Hne|]. split; [exact Hn|]. split; [exact Hu|].
  split; [reflexivity|]. split; [reflexivity|]. split; [exact Hlt|].
  split; [exact Hsome|]. split; [exact Halloc|]. split; [exact Hnd|].
  split; [exact Hcalloc|]. split; [exact Hcnd|].
  pose proof (load_then_remove_cube started.1 started.2 "scene1" 0 u 0
                Hcur Hne Hn Hu eq_refl eq_refl Hlt Hsome Halloc Hnd Hcalloc Hcnd) as H.
  cbv zeta in H. destruct H as (_ & H1 & _ & H2 & _).
  split; [exact H1|exact H2].
Defined.

Lemma clearCurrentSceneModels_keeps_decor_witness :
  let u := mkSceneUnit Scene1Class (Some 0) [1; 2; 3; 4; 5; 6; 61; 62] true [] in
  let r := SceneManager.clearCurrentSceneModels furnished.1 furnished.2 in
  SceneManager.currentSceneName furnished.1 = Some "scene1" /\
  "scene1" <> "" /\
  SceneManager.scene_named furnished.1 "scene1" = VUnit 0 /\
  SceneManager.units furnished.1 !! 0 = Some u /\
  initialized u /\
  getModelCount u furnished.2 = 2 /\
  staticDecor u furnished.2 = [1; 2; 3; 4; 5; 6] /\
  (SceneManager.getCurrentSceneModelCount r.1.2 r.2).1.1 = Return 0 /\
  exists u', SceneManager.units r.1.2 !! 0 = Some u' /\
             staticDecor u' r.2 = staticDecor u furnished.2.
Proof.
  cbv zeta.
  set (u := mkSceneUnit Scene1Class (Some 0) [1; 2; 3; 4; 5; 6; 61; 62] true []).
  assert (SceneManager.currentSceneName furnished.1 = Some "scene1") as Hcur
    by (vm_compute; reflexivity).
  assert ("scene1" <> "") as Hne by discriminate.
  assert (SceneManager.scene_named furnished.1 "scene1" = VUnit 0) as Hn
    by (vm_compute; reflexivity).
  assert (SceneManager.units furnished.1 !! 0 = Some u) as Hu by (vm_compute; reflexivity).
  assert (initialized u) as Hini by (split; [reflexivity|by eexists]).
  split; [exact Hcur|]. split; [exact Hne|]. split; [exact Hn|]. split; [exact Hu|].
  split; [exact Hini|].
  split; [vm_compute; reflexivity|]. split; [vm_compute; reflexivity|].
  pose proof (clearCurrentSceneModels_keeps_decor furnished.1 furnished.2 "scene1" 0 u
                Hcur Hne Hn Hu Hini) as H.
  cbv zeta in H. destruct H as (_ & _ & _ & H0 & u' & Hu' & _ & _ & Hdecor & _).
  split; [exact H0|]. exists u'. split; [exact Hu'|exact Hdecor].
Defined.

Lemma addScene_registers_unless_active_witness :
  let s := after (SceneManager.new_unit Scene1.new started.1 started.2) in
  SceneManager.units s.1 !! 2 = Some Scene1.new /\
  SceneManager.currentSceneName s.1 <> Some "scene3" /\
  "scene3" <> "__proto__" /\
  (exists u',
     own_get "scene3" (own (SceneManager.scenes
                              (@SceneManager.addScene evalRuntime "scene3" 2 s.1 s.2).1.2))
     = Some 2 /\
     registered (@SceneManager.addScene evalRuntime "scene3" 2 s.1 s.2).1.2 "scene3"
     = Some u' /\
     initialized u') /\
  SceneManager.currentSceneName s.1 = Some "scene1" /\
  truthy (SceneManager.scene_named s.1 "scene1") = true /\
  (@SceneManager.addScene evalRuntime "scene1" 2 s.1 s.2).1.1
  = Throw (Error "Cannot remove active scene 'scene1'").
Proof.
  cbv zeta.
  set (s := after (SceneManager.new_unit Scene1.new started.1 started.2)).
  assert (SceneManager.units s.1 !! 2 = Some Scene1.new) as Hunit
    by (vm_compute; reflexivity).
  assert (SceneManager.currentSceneName s.1 = Some "scene1") as Hcur
    by (vm_compute; reflexivity).
  assert (SceneManager.currentSceneName s.1 <> Some "scene3") as Hne
    by (rewrite Hcur; discriminate).
  assert ("scene3" <> "__proto__") as Hproto by discriminate.
  assert (truthy (SceneManager.scene_named s.1 "scene1") = true) as Ht
    by (vm_compute; reflexivity).
  split; [exact Hunit|]. split; [exact Hne|]. split; [exact Hproto|]. split.
  - pose proof (@addScene_registers_unless_active evalRuntime s.1 s.2
                  "scene3" 2 Scene1.new Hunit) as H.
    cbv zeta in H. destruct H as (H & _).
    destruct (H Hne Hproto) as (u' & Hown & _ & Hreg & _ & _ & _ & _ & _ & Hinit).
    assert (services_available s.1 = true) as Hserv by (vm_compute; reflexivity).
    rewrite Hserv in Hinit. destruct Hinit as (_ & Hini & Hret).
    exists u'. split; [exact Hown|]. split; [exact Hreg|].
    apply Hini. apply Hret. right. reflexivity.
  - split; [exact Hcur|]. split; [exact Ht|].
    pose proof (@addScene_registers_unless_active evalRuntime s.1 s.2
                  "scene1" 2 Scene1.new Hunit) as H.
    cbv zeta in H. destruct H as (_ & H).
    destruct (H Hcur Ht) as (Hthrow & _). exact Hthrow.
Defined.
(** *** The active name stays the name of a unit *)

Section Keeps.
Context {T : Type} (J : T -> Prop).

Lemma keeps_ret {A} (a : A) : keeps J (ret a).
Proof. by intros this w. Qed.

Lemma keeps_throw {A} (e : JsError) : keeps J (throw (A:=A) e).
Proof. by intros this w. Qed.

Lemma keeps_get_this : keeps J get_this.
Proof. by intros this w. Qed.

Lemma keeps_get_world : keeps J (get_world (T:=T)).
Proof. by intros this w. Qed.

Lemma keeps_set_world (f : World -> World) : keeps J (set_world f).
Proof. by intros this w. Qed.

Lemma keeps_set_this (f : T -> T) : (forall t, J t -> J (f t)) -> keeps J (set_this f).
Proof. intros Hf this w. apply Hf. Qed.

Lemma keeps_bind {A B} (m : Method T A) (k : A -> Method T B) :
  keeps J m -> (forall a, keeps J (k a)) -> keeps J (bind m k).
Proof.
  intros Hm Hk this w HJ. unfold bind.
  specialize (Hm this w HJ). destruct (m this w) as [[[a|e] this'] w']; simpl in *.
  - by apply Hk.
  - done.
Qed.

Lemma keeps_try_catch {A} (m : Method T A) (h : JsError -> Method T A) :
  keeps J m -> (forall e, keeps J (h e)) -> keeps J (try_catch m h).
Proof.
  intros Hm Hh this w HJ. unfold try_catch.
  specialize (Hm this w HJ). destruct (m this w) as [[[a|e] this'] w']; simpl in *.
  - done.
  - by apply Hh.
Qed.

Lemma keeps_forEach_from {A} (l : list A) (f : A -> nat -> Method T unit) (i : nat) :
  (forall a j, keeps J (f a j)) -> keeps J (forEach_from i f l).
Proof.
  intros Hf. revert i. induction l as [|a l IH]; intros i; simpl.
  - apply keeps_ret.
  - apply keeps_bind; [apply Hf|intros _; apply IH].
Qed.

End Keeps.

Ltac keeps_step :=
  lazymatch goal with
  | |- keeps _ (bind _ _) => apply keeps_bind; [|intros ?]
  | |- keeps _ (try_catch _ _) => apply keeps_try_catch; [|intros ?]
  | |- keeps _ (ret _) => apply keeps_ret
  | |- keeps _ (throw _) => apply keeps_throw
  | |- keeps _ get_this => apply keeps_get_this
  | |- keeps _ get_world => apply keeps_get_world
  | |- keeps _ (set_world _) => apply keeps_set_world
  | |- keeps _ (log _) => apply keeps_set_world
  | |- keeps _ (warn _) => apply keeps_set_world
  | |- keeps _ (log_and_rethrow _ _) => unfold log_and_rethrow
  | |- keeps _ (forEach _ _) => apply keeps_forEach_from; intros ? ?
  | |- keeps _ (match ?x with _ => _ end) => destruct x
  end.

Lemma scene_named_units (m m' : SceneManager.t) (n : string) (r : UnitId) :
  SceneManager.scenes m' = SceneManager.scenes m ->
  (forall k, is_Some (SceneManager.units m !! k) -> is_Some (SceneManager.units m' !! k)) ->
  SceneManager.scene_named m n = VUnit r ->
  SceneManager.scene_named m' n = VUnit r.
Proof.
  intros Hs Hu. rewrite !scene_named_VUnit, Hs. intros [Hr Hn]. split; [by apply Hu|done].
Qed.

Lemma active_is_unit_units (m m' : SceneManager.t) :
  SceneManager.scenes m' = SceneManager.scenes m ->
  SceneManager.currentSceneName m' = SceneManager.currentSceneName m ->
  (forall k, is_Some (SceneManager.units m !! k) -> is_Some (SceneManager.units m' !! k)) ->
  active_is_unit m -> active_is_unit m'.
Proof.
  intros Hs Hc Hu HJ n Hn. rewrite Hc in Hn. destruct (HJ n Hn) as [r Hr].
  exists r. by apply (scene_named_units m).
Qed.

Lemma active_is_unit_call {A} (method : string) (r : UnitId) (meth : Method SceneUnit A) :
  keeps active_is_unit (SceneManager.call method r meth).
Proof.
  intros m w HJ. unfold SceneManager.call.
  destruct (SceneManager.units m !! r) as [u|] eqn:Hu; [|done].
  destruct (meth u w) as [[c u'] w']; simpl.
  apply (active_is_unit_units m); [done|done| |done].
  intros k Hk. simpl. destruct (decide (r = k)) as [->|Hne].
  - rewrite lookup_insert_eq. by eexists.
  - by rewrite lookup_insert_ne.
Qed.

Lemma active_is_unit_invoke {A} (n callee method : string) (meth : Method SceneUnit A) :
  keeps active_is_unit (SceneManager.invoke n callee method meth).
Proof.
  intros m w HJ. unfold SceneManager.invoke, bind, get_this.
  destruct (SceneManager.scene_named m n); try done.
  by apply active_is_unit_call.
Qed.

Lemma active_is_unit_call_if_unit (method : string) (v : Value)
  (meth : Method SceneUnit unit) :
  keeps active_is_unit (SceneManager.call_if_unit method v meth).
Proof.
  destruct v; try (intros m w HJ; exact HJ). apply active_is_unit_call.
Qed.

Lemma active_is_unit_new_unit (u : SceneUnit) :
  keeps active_is_unit (SceneManager.new_unit u).
Proof.
  intros m w HJ. simpl.
  apply (active_is_unit_units m); [done|done| |done].
  intros k Hk. simpl. destruct (decide (SceneManager.nextUnit m = k)) as [->|Hne].
  - rewrite lookup_insert_eq. by eexists.
  - by rewrite lookup_insert_ne.
Qed.

Lemma put_property_own_other (us : gmap UnitId SceneUnit) (n k : string) (r : UnitId)
  (o : PlainObject) :
  k <> n -> own_get k (own (put_property us n r o)) = own_get k (own o).
Proof.
  intros Hne. unfold put_property.
  destruct (own_get n (own o)); simpl; [by apply own_get_put_ne|].
  case_bool_decide; [by destruct (us !! r)|]. simpl. by apply own_get_put_ne.
Qed.

Lemma put_property_proto (us : gmap UnitId SceneUnit) (n : string) (r : UnitId)
  (o : PlainObject) :
  n <> "__proto__" -> proto (put_property us n r o) = proto o.
Proof. intros Hn. by rewrite put_property_ordinary. Qed.

Lemma put_property_get (us : gmap UnitId SceneUnit) (n : string) (r : UnitId)
  (o : PlainObject) :
  is_Some (us !! r) ->
  own_get n (own (put_property us n r o)) = Some r \/
  own_get n (own (put_property us n r o)) = None /\ n = "__proto__" /\
  proto (put_property us n r o) = Some r.
Proof.
  intros [u Hu]. unfold put_property.
  destruct (own_get n (own o)) eqn:Hown; simpl; [left; apply own_get_put_eq|].
  case_bool_decide; [|left; apply own_get_put_eq].
  rewrite Hu. simpl. right. done.
Qed.

(** Registering a unit under a name that is not the active one. *)
Lemma active_is_unit_register_other (n : string) (r : UnitId) (m : SceneManager.t) :
  SceneManager.currentSceneName m <> Some n ->
  active_is_unit m ->
  active_is_unit (SceneManager.set_scenes (put_property (SceneManager.units m) n r) m).
Proof.
  intros Hcur HJ k Hk. simpl in Hk. destruct (HJ k Hk) as [rk Hrk].
  assert (k <> n) as Hne by congruence.
  apply scene_named_VUnit in Hrk as [Hst Hrk].
  exists rk. apply scene_named_VUnit. split; [done|].
  cbn [SceneManager.scenes SceneManager.set_scenes].
  rewrite put_property_own_other by done.
  destruct Hrk as [Hrk|(Hnone & -> & Hp)]; [by left|].
  right. split; [done|]. split; [done|]. by rewrite put_property_proto.
Qed.

(** Registering a unit of the store. *)
Lemma active_is_unit_register_unit (n : string) (r : UnitId) (m : SceneManager.t) :
  is_Some (SceneManager.units m !! r) ->
  active_is_unit m ->
  active_is_unit (SceneManager.set_scenes (put_property (SceneManager.units m) n r) m).
Proof.
  intros Hr HJ.
  destruct (decide (SceneManager.currentSceneName m = Some n)) as [Hcur|Hcur];
    [|by apply active_is_unit_register_other].
  intros k Hk. simpl in Hk. assert (k = n) as -> by congruence.
  exists r. apply scene_named_VUnit. split; [done|].
  cbn [SceneManager.scenes SceneManager.set_scenes].
  by apply put_property_get.
Qed.

Lemma active_is_unit_new_register {A} (u : SceneUnit) (n : string)
  (k : UnitId -> Method SceneManager.t A) :
  (forall r, keeps active_is_unit (k r)) ->
  keeps active_is_unit
    (r <- SceneManager.new_unit u ;; SceneManager.register n r ;; k r).
Proof.
  intros Hk m w HJ.
  unfold bind at 1, SceneManager.new_unit. unfold bind at 1, SceneManager.register, set_this.
  apply Hk. apply active_is_unit_register_unit.
  - simpl. rewrite lookup_insert_eq. by eexists.
  - by apply (active_is_unit_new_unit u m w).
Qed.

Lemma performSceneTransition_frame (n : string) (m : SceneManager.t) (w : World) :
  exists c w',
    SceneManager.performSceneTransition n m w = (c, m, w') /\
    (c = Return tt -> exists r, SceneManager.scene_named m n = VUnit r).
Proof.
  unfold SceneManager.performSceneTransition, bind at 1.
  rewrite (getCurrentScene_eq m w).
  destruct ((SceneManager.getCurrentScene m w).1.1) as [s|e]; [|by eexists _, _].
  unfold bind at 1.
  pose proof (invoke_read m w n "this.scenes[newSceneName].getScene" "getScene"
                (fun u _ => getScene u)) as [Hm Hw].
  destruct (SceneManager.invoke n "this.scenes[newSceneName].getScene" "getScene"
              (fun u w => (Return (getScene u), u, w)) m w) as [[c m'] w'] eqn:Hinv.
  simpl in Hm, Hw. subst m' w'.
  destruct c as [g|e]; [|by eexists _, _].
  assert (exists r, SceneManager.scene_named m n = VUnit r) as Hr.
  { unfold SceneManager.invoke, bind, get_this in Hinv.
    destruct (SceneManager.scene_named m n); try done. by eexists. }
  destruct g as [g|]; [|by eexists _, _].
  destruct (applyCameraSettings_spec n m w) as (w1 & E1 & _).
  destruct (applyLightingSettings_spec n m w1) as (w2 & E2 & _).
  unfold bind. rewrite E1, E2. simpl. by eexists _, _.
Qed.

Lemma active_is_unit_switchScene (n : string) :
  keeps active_is_unit (SceneManager.switchScene n).
Proof.
  intros m w HJ.
  unfold SceneManager.switchScene, try_catch, bind at 1, get_this.
  destruct (truthy (SceneManager.scene_named m n)); simpl; [|done].
  case_bool_decide as Hcur; [done|].
  unfold bind at 1, log at 1, set_world.
  unfold bind at 1.
  destruct (performSceneTransition_frame n m
              (emit (console_log ("Switching to scene '" +:+ n +:+ "'...")) w))
    as (c & w' & -> & Hret).
  destruct c as [[]|e]; [|done]. simpl.
  destruct (Hret eq_refl) as [r Hr].
  intros k [= <-]. by exists r.
Qed.

Lemma active_is_unit_delete (n : string) (m : SceneManager.t) :
  SceneManager.currentSceneName m <> Some n ->
  active_is_unit m -> active_is_unit (SceneManager.set_scenes (delete_property n) m).
Proof.
  intros Hcur HJ k Hk. simpl in Hk. destruct (HJ k Hk) as [rk Hrk].
  assert (k <> n) as Hne by congruence.
  exists rk. apply scene_named_VUnit in Hrk as [Hst Hrk]. apply scene_named_VUnit.
  simpl. split; [done|]. by rewrite own_get_remove_ne.
Qed.

Lemma active_is_unit_removeScene (n : string) :
  keeps active_is_unit (SceneManager.removeScene n).
Proof.
  intros m w HJ.
  unfold SceneManager.removeScene, bind at 1, get_this.
  destruct (truthy (SceneManager.scene_named m n)); simpl; [|done].
  case_bool_decide as Hcur; [done|].
  unfold bind at 1, log at 1, set_world.
  unfold bind at 1.
  pose proof (active_is_unit_call_if_unit "dispose" (SceneManager.scene_named m n)
                unit_dispose m
                (emit (console_log ("Removing scene '" +:+ n +:+ "'...")) w) HJ) as HJ1.
  assert (SceneManager.currentSceneName
            (SceneManager.call_if_unit "dispose" (SceneManager.scene_named m n)
               unit_dispose m
               (emit (console_log ("Removing scene '" +:+ n +:+ "'...")) w)).1.2
          = SceneManager.currentSceneName m) as Hc1.
  { unfold SceneManager.call_if_unit, SceneManager.call.
    destruct (SceneManager.scene_named m n); try done.
    destruct (SceneManager.units m !! unit) as [u|]; [|done].
    by destruct (unit_dispose u _) as [[c u'] w']. }
  destruct (SceneManager.call_if_unit "dispose" _ unit_dispose m _) as [[c m1] w1].
  simpl in HJ1, Hc1.
  destruct c as [[]|e]; [|done]. simpl.
  apply active_is_unit_delete; [by rewrite Hc1|done].
Qed.

Lemma active_is_unit_addScene `{Runtime} (n : string) (r : UnitId) :
  keeps active_is_unit (SceneManager.addScene n r).
Proof.
  intros m w HJ.
  destruct (decide (SceneManager.currentSceneName m = Some n)) as [Hcur|Hcur].
  - destruct (HJ n Hcur) as [rn Hrn].
    rewrite addScene_active; [done|done|by rewrite Hrn].
  - unfold SceneManager.addScene, try_catch.
    rewrite bind_get_this. cbv beta.
    set (room := if truthy (SceneManager.scene_named m n) then _ else _).
    assert (active_is_unit (room m w).1.2 /\
            SceneManager.currentSceneName (room m w).1.2 = SceneManager.currentSceneName m)
      as [HJ1 Hc1].
    { unfold room. destruct (truthy (SceneManager.scene_named m n)); [|done].
      rewrite bind_warn. split; [by apply active_is_unit_removeScene|].
      unfold SceneManager.removeScene, bind at 1, get_this.
      destruct (truthy (SceneManager.scene_named m n)); simpl; [|done].
      case_bool_decide; [done|].
      unfold bind at 1, log at 1, set_world. unfold bind at 1.
      unfold SceneManager.call_if_unit, SceneManager.call.
      destruct (SceneManager.scene_named m n); try done.
      destruct (SceneManager.units m !! unit) as [u|]; [|done].
      by destruct (unit_dispose u _) as [[[[]|e] u'] w']. }
    unfold bind at 1.
    destruct (room m w) as [[c m1] w1]. simpl in HJ1, Hc1.
    destruct c as [[]|e]; [|done].
    rewrite bind_log. cbv beta. unfold SceneManager.register.
    rewrite bind_set_this. cbv beta. rewrite bind_get_this. cbv beta.
    assert (active_is_unit
              (SceneManager.set_scenes (put_property (SceneManager.units m1) n r) m1))
      as HJ2 by (apply active_is_unit_register_other; [by rewrite Hc1|done]).
    revert HJ2.
    generalize (SceneManager.set_scenes (put_property (SceneManager.units m1) n r) m1).
    intros m2 HJ2.
    assert (keeps active_is_unit
              (match SceneManager.cameraManager m2, SceneManager.lightsManager m2,
                     SceneManager.modelLoader m2 with
               | Some _, Some _, Some _ =>
                   SceneManager.call "init" r
                     (unit_init (SceneManager.cameraManager m2)
                        (SceneManager.lightsManager m2) (SceneManager.modelLoader m2))
               | _, _, _ => ret tt
               end)) as Hinit.
    { repeat case_match; first [apply active_is_unit_call | apply keeps_ret]. }
    specialize (Hinit m2 (emit (console_log ("Adding scene '" +:+ n +:+ "'...")) w1) HJ2).
    unfold bind at 1.
    destruct (match SceneManager.cameraManager m2 with _ => _ end m2 _) as [[c m3] w3].
    simpl in Hinit. by destruct c.
Qed.

Ltac active_is_unit_step :=
  lazymatch goal with
  | |- keeps _ (SceneManager.switchScene _) => apply active_is_unit_switchScene
  | |- keeps _ (SceneManager.removeScene _) => apply active_is_unit_removeScene
  | |- keeps _ (SceneManager.addScene _ _) => apply active_is_unit_addScene
  | |- keeps _ (SceneManager.invoke _ _ _ _) => apply active_is_unit_invoke
  | |- keeps _ (SceneManager.call_if_unit _ _ _) => apply active_is_unit_call_if_unit
  | |- keeps _ (SceneManager.new_unit _) => apply active_is_unit_new_unit
  | |- keeps _ (bind (SceneManager.new_unit _) _) =>
      first [ apply active_is_unit_new_register; intros ?
            | apply keeps_bind; [|intros ?] ]
  | |- keeps _ (set_this _) =>
      apply keeps_set_this; intros ? ?; solve [ by intros ? [=] | assumption ]
  | |- _ => keeps_step
  end.

Lemma active_is_unit_perform `{Runtime} (op : Operation) :
  keeps active_is_unit (perform op).
Proof.
  destruct op as [camera lights loader|n|n [cls|r]|n|ty|ty| |deltaTime now|]; simpl;
    unfold SceneManager.init, SceneManager.initializeScenes,
      SceneManager.loadModelIntoCurrentScene, SceneManager.removeModelFromCurrentScene,
      SceneManager.clearCurrentSceneModels, SceneManager.update, SceneManager.dispose;
    repeat active_is_unit_step.
Qed.

Lemma states_after_active_is_unit `{Runtime} (ops : list Operation)
  (s : SceneManager.t * World) :
  active_is_unit s.1 ->
  Forall (fun s' => active_is_unit s'.1) (states_after ops s).
Proof.
  revert s. induction ops as [|op ops IH]; intros s Hs; simpl.
  - constructor.
  - assert (active_is_unit (after (perform op s.1 s.2)).1) as Hs'
      by (apply active_is_unit_perform, Hs).
    constructor; [exact Hs'|]. by apply IH.
Qed.

(** X1 (what holds of the active name): whatever operations are applied to
    a fresh manager, in whatever order and whether they return or throw,
    after each of them the active scene name, if set, is a name under which
    the registry yields a scene unit of the store: a key of the registry
    that holds the unit, or the name [__proto__]. *)
Theorem active_scene_always_a_unit `{Runtime} (ops : list Operation) (w : World) :
  Forall (fun s => forall n, SceneManager.currentSceneName s.1 = Some n ->
                     (exists r, SceneManager.scene_named s.1 n = VUnit r) /\
                     (is_Some (registered s.1 n) \/ n = "__proto__"))
    (states_after ops (SceneManager.new, w)).
Proof.
  eapply Forall_impl.
  - apply states_after_active_is_unit. intros n [=].
  - intros s HJ n Hn. destruct (HJ n Hn) as [r Hr]. split; [by exists r|].
    apply scene_named_VUnit in Hr as [[u Hu] [Hown|(_ & -> & _)]]; [|by right].
    left. exists u. apply registered_Some. by exists r.
Qed.
(** *** Loading and removing models: the other cases *)

Lemma filter_loaded_insert_fresh (u : SceneUnit) (w : World) (obj : Object3D) :
  objects_allocated u w ->
  List.filter (is_loaded_model (<[nextId w := obj]> (heap w))) (objects u)
  = List.filter (is_loaded_model (heap w)) (objects u).
Proof.
  intros Halloc. apply List.filter_ext_in. intros a Ha.
  unfold objects_allocated in Halloc. rewrite Forall_forall in Halloc.
  apply list_elem_of_In in Ha. specialize (Halloc a Ha).
  unfold is_loaded_model. rewrite lookup_insert_ne; [done|lia].
Qed.

Lemma unit_loadModel_supported (u : SceneUnit) (w : World) (s : ObjId)
  (loader : option ModelLoader) (ty : string) :
  scene u = Some s -> supported_model ty -> objects_allocated u w ->
  exists obj w',
    unit_loadModel loader ty u w
    = (Return tt, set_objects (objects u ++ [nextId w]) u, w') /\
    heap w' = loaded_heap obj (model_slot (unitClass u) (getModelCount u w)) ty s
                (nextId w) (heap w) /\
    nextId w' = S (nextId w).
Proof.
  intros Hs Hty Halloc.
  unfold unit_loadModel, dispatch, Scene1.loadModel, Scene2.loadModel, getModelCount.
  destruct Hty as [-> | ->]; destruct (unitClass u);
    unfold try_catch, bind, log, set_world, Scene1.createStyledCube,
      Scene1.createStyledSphere, Scene2.createAdvancedCube, Scene2.createAdvancedSphere,
      new_Mesh, new_Object3D, Scene1.placeModel, Scene2.placeModel, bind, get_this,
      get_world, update_object, set_world, scene_add, bind, get_this, objects_push,
      set_this, log, set_world;
    simpl; rewrite Hs; unfold Object3D_add, update_object, set_world; simpl;
    rewrite (filter_loaded_insert_fresh u w _ Halloc);
    (eexists _, _; split; [reflexivity|]; split; reflexivity).
Qed.

Lemma loaded_heap_lookup_new (obj : Object3D) (pos : Vector3) (ty : string) (s k : ObjId)
  (h : gmap ObjId Object3D) :
  position <$> loaded_heap obj pos ty s k h !! k = Some pos /\
  userData <$> loaded_heap obj pos ty s k h !! k = Some (mkUserData true (Some ty)).
Proof.
  unfold loaded_heap. destruct (decide (s = k)) as [->|Hne].
  - rewrite !lookup_alter_eq, lookup_insert_eq. done.
  - rewrite lookup_alter_ne by done. rewrite !lookup_alter_eq, lookup_insert_eq. done.
Qed.

Lemma loaded_heap_lookup_other (obj : Object3D) (pos : Vector3) (ty : string) (s k : ObjId)
  (h : gmap ObjId Object3D) (id : ObjId) :
  id <> k -> id <> s -> loaded_heap obj pos ty s k h !! id = h !! id.
Proof.
  intros Hk Hs. unfold loaded_heap.
  rewrite !lookup_alter_ne, lookup_insert_ne by done. done.
Qed.

(** X5 (loadModel, placement): on a unit that has its scene graph, loading
    a cube or a sphere returns; the new model gets the next identity, is
    flagged as a loaded model of that type and is appended to the unit's
    object list; it is placed in the slot given by the number [k] of models
    loaded before: at (3k, 0, 3) in a [Scene1] and at (4k - 10, 2, -5) in a
    [Scene2].  The count goes up by one, and no other object but the scene
    graph is touched. *)
Theorem loadModel_places_in_next_slot (u : SceneUnit) (w : World) (s : ObjId)
  (loader : option ModelLoader) (ty : string) :
  scene u = Some s ->
  supported_model ty ->
  objects_allocated u w ->
  let r := unit_loadModel loader ty u w in
  let k := getModelCount u w in
  r.1.1 = Return tt /\
  r.1.2 = set_objects (objects u ++ [nextId w]) u /\
  nextId r.2 = S (nextId w) /\
  getModelCount r.1.2 r.2 = S k /\
  field position r.2 (nextId w) = Some (model_slot (unitClass u) k) /\
  field userData r.2 (nextId w) = Some (mkUserData true (Some ty)) /\
  (forall id, id <> nextId w -> id <> s -> heap r.2 !! id = heap w !! id).
Proof.
  intros Hs Hty Halloc. cbv zeta.
  destruct (unit_loadModel_supported u w s loader ty Hs Hty Halloc)
    as (obj & w' & -> & Hh & Hn).
  cbn [fst snd].
  split; [done|]. split; [done|]. split; [done|]. split.
  { exact (count_after_load obj _ ty s u w w' Halloc Hh). }
  unfold field. rewrite Hh.
  destruct (loaded_heap_lookup_new obj (model_slot (unitClass u) (getModelCount u w)) ty s
              (nextId w) (heap w)) as (Hpos & Hud).
  split; [exact Hpos|]. split; [exact Hud|].
  intros id Hid Hids. by apply loaded_heap_lookup_other.
Qed.

(** X6 (loadModel, unknown type): for a model type other than "cube" and
    "sphere", [loadModel] of a unit returns normally: it logs that it loads
    the model, warns "Unknown model type: <type>", and leaves the unit and
    the object store exactly as they were. *)
Theorem loadModel_unknown_type (u : SceneUnit) (w : World) (loader : option ModelLoader)
  (ty : string) :
  ~ supported_model ty ->
  let r := unit_loadModel loader ty u w in
  r.1.1 = Return tt /\ r.1.2 = u /\ same_store w r.2 /\
  exists msg,
    trace r.2 = trace w ++ [console_log msg; console_warn ("Unknown model type: " +:+ ty)].
Proof.
  intros Hty. unfold supported_model in Hty. cbv zeta.
  unfold unit_loadModel, dispatch, Scene1.loadModel, Scene2.loadModel.
  destruct (unitClass u);
    unfold try_catch, bind, log, warn, set_world;
    rewrite !bool_decide_eq_false_2 by tauto; simpl;
    (split; [done|]); (split; [done|]); (split; [done|]);
    eexists; by rewrite <- app_assoc.
Qed.

Lemma findIndex_None {A} (p : A -> bool) (l : list A) :
  (forall a, a ∈ l -> p a = false) -> findIndex p l = None.
Proof.
  induction l as [|a l IH]; intros Hp; [done|]. simpl.
  rewrite (Hp a) by left. rewrite IH; [done|]. intros b Hb. apply Hp. by right.
Qed.

(** X7 (removeModel, nothing to remove): when a unit holds no loaded model
    of the given type, [removeModel] returns without any effect: the unit
    and the world, console included, are exactly as before. *)
Theorem removeModel_absent_type (u : SceneUnit) (w : World) (ty : string) :
  (forall id, id ∈ objects u -> is_loaded_model_of_type (heap w) ty id = false) ->
  unit_removeModel ty u w = (Return tt, u, w).
Proof.
  intros Hnone.
  unfold unit_removeModel, dispatch, Scene1.removeModel, Scene2.removeModel, bind,
    get_this, get_world.
  rewrite (findIndex_None _ _ Hnone). by destruct (unitClass u).
Qed.


(** X9 (loadModel on a unit without scene graph): when a unit has no scene
    graph (it was never initialized, or was disposed), loading a cube or a
    sphere fails with a [TypeError] at [this.scene.add], logged and thrown
    again.  The unit is as before, so its count is unchanged; the model that
    had been created stays in the store, outside every list. *)
Theorem loadModel_without_scene_graph (u : SceneUnit) (w : World)
  (loader : option ModelLoader) (ty : string) :
  scene u = None ->
  supported_model ty ->
  objects_allocated u w ->
  let r := unit_loadModel loader ty u w in
  r.1.1 = Throw (TypeError "Cannot read properties of null (reading 'add')") /\
  r.1.2 = u /\
  nextId r.2 = S (nextId w) /\
  is_Some (heap r.2 !! nextId w) /\
  (forall id, id <> nextId w -> heap r.2 !! id = heap w !! id) /\
  getModelCount r.1.2 r.2 = getModelCount u w /\
  last (trace r.2)
  = Some (console_error ("Failed to load model '" +:+ ty +:+ "':")
            (TypeError "Cannot read properties of null (reading 'add')")).
Proof.
  intros Hs Hty Halloc. cbv zeta.
  assert (exists obj tr,
            unit_loadModel loader ty u w
            = (Throw (TypeError "Cannot read properties of null (reading 'add')"), u,
               mkWorld (alter (with_userData (mkUserData true (Some ty))) (nextId w)
                          (alter (with_position
                                    (fun _ => model_slot (unitClass u) (getModelCount u w)))
                             (nextId w) (<[nextId w := obj]> (heap w))))
                 (S (nextId w)) (randomCalls w)
                 (tr ++ [console_error ("Failed to load model '" +:+ ty +:+ "':")
                           (TypeError "Cannot read properties of null (reading 'add')")])))
    as (obj & tr & ->).
  { unfold unit_loadModel, dispatch, Scene1.loadModel, Scene2.loadModel, getModelCount.
    destruct Hty as [-> | ->]; destruct (unitClass u);
      unfold try_catch, bind, log, set_world, Scene1.createStyledCube,
        Scene1.createStyledSphere, Scene2.createAdvancedCube,
        Scene2.createAdvancedSphere, new_Mesh, new_Object3D, Scene1.placeModel,
        Scene2.placeModel, bind, get_this, get_world, update_object, set_world,
        scene_add, bind, get_this, log_and_rethrow, bind, set_world, throw;
      simpl; rewrite Hs; simpl;
      rewrite (filter_loaded_insert_fresh u w _ Halloc);
      eexists _, _; reflexivity. }
  cbn [fst snd nextId heap trace]. split; [done|]. split; [done|]. split; [done|].
  split; [rewrite !lookup_alter_eq, lookup_insert_eq; by eexists|].
  split; [intros id Hid; by rewrite !lookup_alter_ne, lookup_insert_ne|].
  split.
  - unfold getModelCount. simpl. apply (f_equal (@length _)).
    apply List.filter_ext_in. intros a Ha.
    unfold objects_allocated in Halloc. rewrite Forall_forall in Halloc.
    apply list_elem_of_In in Ha. specialize (Halloc a Ha).
    unfold is_loaded_model. rewrite !lookup_alter_ne, lookup_insert_ne by lia. done.
  - by rewrite last_snoc.
Qed.

(** X10 (clearModels twice): clearing the models of a unit that has a scene
    graph is idempotent: a second call returns and leaves the unit and the
    object store exactly as the first call left them, with no loaded model;
    it creates nothing. *)
Theorem clearModels_idempotent (u : SceneUnit) (w : World) :
  is_Some (scene u) ->
  let r1 := unit_clearModels u w in
  let r2 := unit_clearModels r1.1.2 r1.2 in
  r1.1.1 = Return tt /\ r2.1.1 = Return tt /\ r2.1.2 = r1.1.2 /\
  heap r2.2 = heap r1.2 /\ nextId r2.2 = nextId r1.2 /\
  getModelCount r1.1.2 r1.2 = 0 /\ getModelCount r2.1.2 r2.2 = 0.
Proof.
  intros [s Hs]. cbv zeta.
  destruct (unit_clearModels_spec u w s Hs) as (w1 & -> & Hh1 & Hn1).
  cbn [fst snd].
  set (u1 := set_objects (staticDecor u w) u).
  destruct (unit_clearModels_spec u1 w1 s Hs) as (w2 & Hc2 & Hh2 & Hn2).
  assert (List.filter (is_loaded_model (heap w1)) (objects u1) = []) as Hnone.
  { unfold u1, staticDecor. simpl. rewrite Hh1.
    rewrite (filter_ext_pred _ (is_loaded_model (heap w)))
      by (intros a; apply is_loaded_model_clear_all).
    apply filter_filter_negb. }
  assert (staticDecor u1 w1 = objects u1) as Hdecor.
  { unfold staticDecor. change (objects u1) with (staticDecor u w).
    unfold staticDecor. rewrite Hh1.
    rewrite (filter_ext_pred (fun id => negb (is_loaded_model (clear_all _ _ _) id))
               (fun id => negb (is_loaded_model (heap w) id)))
      by (intros a; by rewrite is_loaded_model_clear_all).
    apply filter_idemp. }
  assert (set_objects (staticDecor u1 w1) u1 = u1) as Hsame.
  { rewrite Hdecor. by destruct u1. }
  rewrite Hsame in Hc2. rewrite Hnone in Hh2. simpl in Hh2.
  rewrite Hc2. cbn [fst snd].
  split; [done|]. split; [done|]. split; [done|]. split; [done|]. split; [done|].
  unfold getModelCount. rewrite Hh2, Hnone. done.
Qed.

(** *** Disposal of a unit *)

Lemma skeleton_dispose_all (l : list ObjId) (h : gmap ObjId Object3D) :
  skeleton (dispose_all l h) = skeleton h.
Proof.
  revert h. induction l as [|a l IH]; intros h; [done|].
  change (dispose_all (a :: l) h) with (dispose_all l (alter dispose_resources a h)).
  rewrite IH. apply skeleton_alter. intros o. unfold dispose_resources.
  by rewrite outline_with_material, outline_with_geometry.
Qed.

Lemma unit_update_not_initialized `{Runtime} (u : SceneUnit) (w : World)
  (deltaTime now : float) :
  isInitialized u = false -> unit_update deltaTime now u w = (Return tt, u, w).
Proof.
  intros Hini. unfold unit_update, dispatch, Scene1.update, Scene2.update, bind, get_this.
  rewrite Hini. by destruct (unitClass u).
Qed.

(** X4 (dispose of a unit): on a unit that has a scene graph, [dispose]
    returns and leaves the unit without scene graph, with an empty object
    list and not initialized.  It releases the geometry and material of the
    objects of the object list and touches nothing else: an object that is
    not in the list (the scene graph itself, the axes and grid helpers) is
    exactly as before, and no object loses its name or its children.
    Afterwards the unit has no loaded model, a second [dispose] does
    nothing, and [update] does nothing. *)
Theorem unit_dispose_releases_listed_objects `{Runtime} (u : SceneUnit) (w : World) :
  is_Some (scene u) ->
  let r := unit_dispose u w in
  r.1.1 = Return tt /\
  scene r.1.2 = None /\ objects r.1.2 = [] /\ isInitialized r.1.2 = false /\
  getModelCount r.1.2 r.2 = 0 /\
  (forall id, id ∈ objects u -> is_Some (heap w !! id) -> resources_disposed r.2 id) /\
  (forall id, id ∉ objects u -> heap r.2 !! id = heap w !! id) /\
  skeleton (heap r.2) = skeleton (heap w) /\
  unit_dispose r.1.2 r.2 = (Return tt, r.1.2, r.2) /\
  (forall deltaTime now, unit_update deltaTime now r.1.2 r.2 = (Return tt, r.1.2, r.2)).
Proof.
  intros Hs. cbv zeta.
  destruct (unit_dispose_scene u w Hs) as (u' & w' & -> & Hs' & Ho' & Hi' & Hh & Hn).
  simpl. split; [done|]. split; [done|]. split; [done|]. split; [done|].
  split; [unfold getModelCount; by rewrite Ho'|].
  split; [intros id Hid Hsome; by apply (dispose_all_disposed (objects u) w)|].
  split; [intros id Hid; rewrite Hh, dispose_all_lookup; by rewrite decide_False|].
  split; [rewrite Hh; apply skeleton_dispose_all|].
  split; [by apply unit_dispose_null|].
  intros deltaTime now. by apply unit_update_not_initialized.
Qed.

(** *** The particle system *)

Lemma mapi_from_lookup {A B} (f : A -> nat -> B) (l : list A) (j i : nat) :
  mapi_from j f l !! i = (fun a => f a (j + i)) <$> l !! i.
Proof.
  revert j i. induction l as [|a l IH]; intros j i; [done|].
  destruct i as [|i]; simpl.
  - by rewrite Nat.add_0_r.
  - rewrite IH. by rewrite Nat.add_succ_r.
Qed.

Lemma mapi_from_length {A B} (f : A -> nat -> B) (l : list A) (j : nat) :
  length (mapi_from j f l) = length l.
Proof. revert j. induction l as [|a l IH]; intros j; simpl; [done|]. by rewrite IH. Qed.

(** X11 (updateParticles): on a [Scene2] scene graph whose "Particles"
    object has a geometry, [updateParticles] returns and flags the position
    array for upload.  The array keeps its length; the x and z coordinates
    (indices 0 and 2 modulo 3) are unchanged; every y coordinate is raised by
    0.01 and rounded to single precision, or set to 0 when the rounded sum
    exceeds 20, so that after the call no y coordinate is greater than 20. *)
Theorem updateParticles_lifts_particles (u : SceneUnit) (w : World) (s p : ObjId)
  (o : Object3D) (g : Geometry) (deltaTime : float) :
  scene u = Some s ->
  getObjectByName (heap w) s "Particles" = Some p ->
  heap w !! p = Some o -> geometry o = Some g ->
  let r := Scene2.updateParticles deltaTime u w in
  r.1.1 = Return tt /\ r.1.2 = u /\
  exists g',
    heap r.2 !! p ≫= geometry = Some g' /\
    needsUpdate g' = true /\
    length (positionArray g') = length (positionArray g) /\
    (forall i, positionArray g' !! i = lifted i <$> positionArray g !! i) /\
    (forall i a, i mod 3 <> 1 -> positionArray g !! i = Some a ->
                 positionArray g' !! i = Some a) /\
    (forall i a, i mod 3 = 1 -> positionArray g' !! i = Some a ->
                 PrimFloat.ltb 20 a = false).
Proof.
  intros Hs Hp Ho Hg. cbv zeta.
  unfold Scene2.updateParticles, scene_getObjectByName, bind, get_this, get_world.
  rewrite Hs. unfold ret. rewrite Hp.
  unfold update_object, set_world. simpl.
  rewrite lookup_alter_eq, Ho. simpl. rewrite Hg. simpl.
  split; [done|]. split; [done|].
  rewrite !lookup_alter_eq, Ho. simpl. rewrite Hg. simpl.
  eexists. split; [reflexivity|]. simpl. split; [done|].
  unfold Scene2.liftParticles.
  split; [apply mapi_from_length|].
  split; [|split].
  - intros i. rewrite mapi_from_lookup. by destruct (positionArray g !! i).
  - intros i a Hi Ha. rewrite mapi_from_lookup, Ha. simpl.
    apply Nat.eqb_neq in Hi. by rewrite Hi.
  - intros i a Hi. rewrite mapi_from_lookup.
    destruct (positionArray g !! i) as [b|]; simpl; [|done].
    apply Nat.eqb_eq in Hi. rewrite Hi. intros [= <-].
    destruct (PrimFloat.ltb 20 (Math_fround (b + 0.01))) eqn:Hlt; [|done].
    vm_compute. reflexivity.
Qed.

(** *** When a unit's [init] fails *)

(** *** The manager's update *)

Lemma not_initialized_call {A} (method : string) (r : UnitId) (meth : Method SceneUnit A) :
  keeps (fun m => SceneManager.isInitialized m = false) (SceneManager.call method r meth).
Proof.
  intros m w Hinv. unfold SceneManager.call.
  destruct (SceneManager.units m !! r) as [u|]; [|done].
  by destruct (meth u w) as [[c u'] w'].
Qed.

Lemma not_initialized_invoke {A} (n callee method : string) (meth : Method SceneUnit A) :
  keeps (fun m => SceneManager.isInitialized m = false)
    (SceneManager.invoke n callee method meth).
Proof.
  intros m w HJ. unfold SceneManager.invoke, bind, get_this.
  destruct (SceneManager.scene_named m n); try done.
  by apply not_initialized_call.
Qed.

Lemma not_initialized_call_if_unit (method : string) (v : Value)
  (meth : Method SceneUnit unit) :
  keeps (fun m => SceneManager.isInitialized m = false)
    (SceneManager.call_if_unit method v meth).
Proof.
  destruct v; try (intros m w HJ; exact HJ). apply not_initialized_call.
Qed.

Ltac not_initialized_step :=
  lazymatch goal with
  | |- keeps _ (SceneManager.invoke _ _ _ _) => apply not_initialized_invoke
  | |- keeps _ (SceneManager.call_if_unit _ _ _) => apply not_initialized_call_if_unit
  | |- keeps _ (SceneManager.call _ _ _) => apply not_initialized_call
  | |- keeps _ (SceneManager.new_unit _) => intros ? ? ?; assumption
  | |- keeps _ (SceneManager.register _ _) => intros ? ? ?; assumption
  | |- keeps _ (SceneManager.getCurrentScene) =>
      unfold SceneManager.getCurrentScene
  | |- keeps _ (set_this _) =>
      apply keeps_set_this; intros ? ?; solve [ done | assumption ]
  | |- _ => keeps_step
  end.

Lemma not_initialized_perform `{Runtime} (op : Operation) :
  is_init op = false ->
  keeps (fun m => SceneManager.isInitialized m = false) (perform op).
Proof.
  destruct op as [camera lights loader|n|n [cls|r]|n|ty|ty| |deltaTime now|]; simpl;
    [done|..]; intros _;
    unfold SceneManager.switchScene, SceneManager.performSceneTransition,
      SceneManager.applyCameraSettings, SceneManager.applyLightingSettings,
      SceneManager.addScene, SceneManager.removeScene,
      SceneManager.loadModelIntoCurrentScene, SceneManager.removeModelFromCurrentScene,
      SceneManager.clearCurrentSceneModels, SceneManager.update, SceneManager.dispose;
    repeat not_initialized_step.
Qed.

Lemma update_not_initialized `{Runtime} (m : SceneManager.t) (w : World)
  (deltaTime now : float) :
  SceneManager.isInitialized m = false ->
  SceneManager.update deltaTime now m w = (Return tt, m, w).
Proof. intros Hini. unfold SceneManager.update, bind, get_this. by rewrite Hini. Qed.

(** X2 (update before init): only [init] sets the manager's initialized
    flag.  Whatever operations other than [init] are applied to a fresh
    manager (scenes added, switched to, models loaded), after each of them
    [update] returns without changing the manager or the world: no scene is
    animated before [init] has run. *)
Theorem update_needs_init `{Runtime} (ops : list Operation) (w0 : World) :
  forallb (fun op => negb (is_init op)) ops = true ->
  Forall (fun s => SceneManager.isInitialized s.1 = false /\
                   forall deltaTime now,
                     SceneManager.update deltaTime now s.1 s.2 = (Return tt, s.1, s.2))
    (states_after ops (SceneManager.new, w0)).
Proof.
  assert (forall s, SceneManager.isInitialized s.1 = false ->
            forallb (fun op => negb (is_init op)) ops = true ->
            Forall (fun s => SceneManager.isInitialized s.1 = false /\
                             forall deltaTime now,
                               SceneManager.update deltaTime now s.1 s.2
                               = (Return tt, s.1, s.2))
              (states_after ops s)) as Hgen.
  { induction ops as [|op ops IH]; intros s Hs Hops; simpl; [constructor|].
    simpl in Hops. apply andb_prop in Hops as [Hop Hops].
    apply negb_true_iff in Hop.
    assert (SceneManager.isInitialized (after (perform op s.1 s.2)).1 = false) as Hs'
      by (by apply not_initialized_perform).
    constructor; [|by apply IH].
    split; [exact Hs'|]. intros deltaTime now. by apply update_not_initialized. }
  by apply Hgen.
Qed.

Lemma update_writes_userData `{Runtime} (cls : SceneClass) (time : float) (s : ObjId)
  (h : gmap ObjId Object3D) (c : ObjId) :
  quiet userData c (update_writes cls time s h).
Proof.
  destruct cls; simpl.
  - unfold Scene1_writes.
    repeat apply quiet_app; apply quiet_on_named; intros i Hi; quiet_list.
  - unfold Scene2_writes, particle_writes, children_writes.
    repeat apply quiet_app; apply quiet_on_named; intros i Hi;
      try apply quiet_concat_imap; try (intros k c' Hk);
      try (unfold orb_writes; apply quiet_app; [|destruct (children_of h c')]);
      quiet_writes.
Qed.

Lemma is_loaded_model_userData (h h' : gmap ObjId Object3D) (id : ObjId) :
  userData <$> h' !! id = userData <$> h !! id ->
  is_loaded_model h' id = is_loaded_model h id.
Proof.
  intros Heq. unfold is_loaded_model.
  destruct (h' !! id), (h !! id); simpl in *; congruence.
Qed.

(** X3 (update of a unit, what it leaves alone): on an initialized unit
    that can be animated, [update] returns and leaves the unit as it is; it
    logs nothing and creates no object; in the store every object keeps its
    name, its children, its user data and the presence of its geometry,
    material and light.  So the loaded-model count and the children of the
    scene graph of every unit are as before: animation only moves, turns and
    recolours. *)
Theorem update_keeps_structure `{Runtime} (u : SceneUnit) (w : World) (s : ObjId)
  (deltaTime now : float) :
  isInitialized u = true -> scene u = Some s ->
  animable (unitClass u) (heap w) s ->
  let r := unit_update deltaTime now u w in
  r.1.1 = Return tt /\ r.1.2 = u /\
  trace r.2 = trace w /\ nextId r.2 = nextId w /\
  skeleton (heap r.2) = skeleton (heap w) /\
  (forall id, userData <$> heap r.2 !! id = userData <$> heap w !! id) /\
  (forall v, getModelCount v r.2 = getModelCount v w /\
             scene_children v r.2 = scene_children v w).
Proof.
  intros Hui Hs Hanim. cbv zeta.
  rewrite (unit_update_run u w s deltaTime now Hui Hs Hanim). simpl.
  set (ws := update_writes (unitClass u) (now * 0.001) s (heap w)).
  assert (skeleton (apply_writes ws (heap w)) = skeleton (heap w)) as Hsk.
  { apply skeleton_apply_writes. by apply update_writes_outline. }
  assert (forall id, userData <$> apply_writes ws (heap w) !! id
                     = userData <$> heap w !! id) as Hud.
  { intros id. apply apply_writes_lookup_quiet, update_writes_userData. }
  split; [done|]. split; [done|]. split; [done|]. split; [done|].
  split; [exact Hsk|]. split; [exact Hud|].
  intros v. split.
  - unfold getModelCount. simpl. apply (f_equal (@length _)).
    apply filter_ext_pred. intros id. by apply is_loaded_model_userData.
  - unfold scene_children. destruct (scene v) as [sv|]; [|done]. simpl.
    by apply children_of_skeleton.
Qed.

(** *** The names of the registry *)

Lemma own_get_is_Some (n : string) (l : list (string * UnitId)) :
  is_Some (own_get n l) <-> n ∈ l.*1.
Proof.
  induction l as [|[k v] l IH]; simpl.
  - split; [by intros [? ?]|by intros ?%elem_of_nil].
  - case_bool_decide as Hk.
    + subst k. split; [intros _; left|by eexists].
    + rewrite IH. split; [by right|]. intros [?|?]%elem_of_cons; [congruence|done].
Qed.

Lemma elem_of_Object_keys (o : PlainObject) (n : string) :
  n ∈ Object_keys o <-> n ∈ (own o).*1.
Proof.
  unfold Object_keys. rewrite elem_of_app, list_elem_of_fmap.
  rewrite (list_elem_of_In (List.filter _ _) n), filter_In, <- list_elem_of_In. split.
  - intros [([i k] & -> & Hik)|[Hn _]]; [|done].
    rewrite merge_sort_Permutation in Hik.
    apply list_elem_of_omap in Hik as (k' & Hk' & Hi).
    destruct (array_index k'); simpl in Hi; [|done]. by injection Hi as _ <-.
  - intros Hn. destruct (array_index n) as [i|] eqn:Hi.
    + left. exists (i, n). split; [done|].
      rewrite merge_sort_Permutation. apply list_elem_of_omap.
      exists n. split; [done|]. by rewrite Hi.
    + right. by split.
Qed.

(** X13 ([hasScene] and [getAvailableScenes]): whenever [hasScene] returns,
    it says yes exactly for the names that [getAvailableScenes] lists, which
    are the own keys of the registry.  It throws only when a scene has been
    registered under the name [hasOwnProperty]. *)
Theorem hasScene_iff_listed (m : SceneManager.t) (n : string) :
  (forall b, SceneManager.hasScene m n = Return b ->
             (b = true <-> n ∈ SceneManager.getAvailableScenes m)) /\
  ("hasOwnProperty" ∉ SceneManager.getAvailableScenes m ->
   exists b, SceneManager.hasScene m n = Return b) /\
  ("hasOwnProperty" ∈ SceneManager.getAvailableScenes m ->
   SceneManager.hasScene m n
   = Throw (TypeError "this.scenes.hasOwnProperty is not a function")).
Proof.
  unfold SceneManager.hasScene, SceneManager.getAvailableScenes.
  pose proof (fun k => conj (elem_of_Object_keys (SceneManager.scenes m) k)
                         (own_get_is_Some k (own (SceneManager.scenes m)))) as Hkeys.
  split; [|split].
  - intros b. destruct (own_get "hasOwnProperty" _); [done|]. intros [= <-].
    unfold hasOwnProperty. rewrite bool_decide_eq_true.
    destruct (Hkeys n) as [-> ->]. done.
  - intros Hno. destruct (own_get "hasOwnProperty" _) eqn:Hown; [|by eexists].
    exfalso. apply Hno. destruct (Hkeys "hasOwnProperty") as [-> <-]. by eexists.
  - intros Hin. destruct (Hkeys "hasOwnProperty") as [H1 H2].
    apply H1, H2 in Hin as [r Hr]. by rewrite Hr.
Qed.

(** *** Removing a scene, disposing of the manager *)





(** *** The further properties on the scenes of the application *)

Lemma update_needs_init_witness :
  let ops := [OpAddScene "lobby" (NewUnit Scene1Class); OpSwitchScene "lobby";
              OpLoadModel "cube"; OpUpdate 0.016 1000; OpDispose] in
  forallb (fun op => negb (is_init op)) ops = true /\
  Forall (fun s => SceneManager.isInitialized s.1 = false /\
                   forall deltaTime now,
                     @SceneManager.update evalRuntime deltaTime now s.1 s.2
                     = (Return tt, s.1, s.2))
    (@states_after evalRuntime ops (SceneManager.new, emptyWorld)).
Proof.
  cbv zeta. split; [reflexivity|].
  apply (@update_needs_init evalRuntime). reflexivity.
Defined.

Lemma update_keeps_structure_witness :
  let u := mkSceneUnit Scene1Class (Some 0) [1; 2; 3; 4; 5; 6] true [] in
  let r := @unit_update evalRuntime 0.016 1000 u started.2 in
  isInitialized u = true /\ scene u = Some 0 /\
  animable (unitClass u) (heap started.2) 0 /\
  r.1.1 = Return tt /\ r.1.2 = u /\ skeleton (heap r.2) = skeleton (heap started.2).
Proof.
  cbv zeta.
  set (u := mkSceneUnit Scene1Class (Some 0) [1; 2; 3; 4; 5; 6] true []).
  split; [reflexivity|]. split; [reflexivity|]. split; [exact I|].
  pose proof (@update_keeps_structure evalRuntime u started.2 0 0.016 1000
                eq_refl eq_refl I) as H.
  cbv zeta in H. destruct H as (H1 & H2 & _ & _ & H3 & _).
  split; [exact H1|]. split; [exact H2|exact H3].
Defined.

Lemma unit_dispose_releases_listed_objects_witness :
  let u := mkSceneUnit Scene1Class (Some 0) [1; 2; 3; 4; 5; 6] true [] in
  let r := unit_dispose u started.2 in
  is_Some (scene u) /\
  r.1.1 = Return tt /\ scene r.1.2 = None /\ objects r.1.2 = [] /\
  skeleton (heap r.2) = skeleton (heap started.2).
Proof.
  cbv zeta.
  set (u := mkSceneUnit Scene1Class (Some 0) [1; 2; 3; 4; 5; 6] true []).
  assert (is_Some (scene u)) as Hs by (by eexists).
  split; [exact Hs|].
  pose proof (@unit_dispose_releases_listed_objects evalRuntime u started.2 Hs) as H.
  cbv zeta in H. destruct H as (H1 & H2 & H3 & _ & _ & _ & _ & H4 & _).
  split; [exact H1|]. split; [exact H2|]. split; [exact H3|exact H4].
Defined.

Lemma loadModel_places_in_next_slot_witness :
  let u := mkSceneUnit Scene2Class (Some 9) [10; 11; 12; 13; 14; 15; 21; 25; 46; 59] true [] in
  let r := unit_loadModel (Some 3) "sphere" u started.2 in
  scene u = Some 9 /\ supported_model "sphere" /\ objects_allocated u started.2 /\
  r.1.1 = Return tt /\
  field position r.2 (nextId started.2)
  = Some (model_slot Scene2Class (getModelCount u started.2)).
Proof.
  cbv zeta.
  set (u := mkSceneUnit Scene2Class (Some 9) [10; 11; 12; 13; 14; 15; 21; 25; 46; 59] true []).
  assert (supported_model "sphere") as Hty by (by right).
  assert (objects_allocated u started.2) as Halloc.
  { unfold objects_allocated.
    match goal with |- ?P => refine (@bool_decide_unpack P _ _) end.
    vm_compute. exact I. }
  split; [reflexivity|]. split; [exact Hty|]. split; [exact Halloc|].
  pose proof (loadModel_places_in_next_slot u started.2 9 (Some 3) "sphere"
                eq_refl Hty Halloc) as H.
  cbv zeta in H. destruct H as (H1 & _ & _ & _ & H2 & _).
  split; [exact H1|exact H2].
Defined.

Lemma loadModel_unknown_type_witness :
  let u := mkSceneUnit Scene1Class (Some 0) [1; 2; 3; 4; 5; 6] true [] in
  let r := unit_loadModel (Some 3) "robot" u started.2 in
  ~ supported_model "robot" /\
  r.1.1 = Return tt /\ r.1.2 = u /\ same_store started.2 r.2.
Proof.
  cbv zeta.
  set (u := mkSceneUnit Scene1Class (Some 0) [1; 2; 3; 4; 5; 6] true []).
  assert (~ supported_model "robot") as Hty by (intros [H|H]; discriminate H).
  split; [exact Hty|].
  pose proof (loadModel_unknown_type u started.2 (Some 3) "robot" Hty) as H.
  cbv zeta in H. destruct H as (H1 & H2 & H3 & _).
  split; [exact H1|]. split; [exact H2|exact H3].
Defined.

Lemma removeModel_absent_type_witness :
  let u := mkSceneUnit Scene1Class (Some 0) [1; 2; 3; 4; 5; 6] true [] in
  (forall id, id ∈ objects u -> is_loaded_model_of_type (heap started.2) "cube" id = false) /\
  unit_removeModel "cube" u started.2 = (Return tt, u, started.2).
Proof.
  cbv zeta.
  set (u := mkSceneUnit Scene1Class (Some 0) [1; 2; 3; 4; 5; 6] true []).
  assert (forall id, id ∈ objects u ->
                     is_loaded_model_of_type (heap started.2) "cube" id = false) as Hnone.
  { apply Forall_forall.
    match goal with |- ?P => refine (@bool_decide_unpack P _ _) end.
    vm_compute. exact I. }
  split; [exact Hnone|].
  exact (removeModel_absent_type u started.2 "cube" Hnone).
Defined.


Lemma loadModel_without_scene_graph_witness :
  let r := unit_loadModel (Some 3) "cube" Scene1.new emptyWorld in
  scene Scene1.new = None /\ supported_model "cube" /\
  objects_allocated Scene1.new emptyWorld /\
  r.1.1 = Throw (TypeError "Cannot read properties of null (reading 'add')") /\
  r.1.2 = Scene1.new /\
  getModelCount r.1.2 r.2 = getModelCount Scene1.new emptyWorld.
Proof.
  cbv zeta.
  assert (supported_model "cube") as Hty by (by left).
  assert (objects_allocated Scene1.new emptyWorld) as Halloc by constructor.
  split; [reflexivity|]. split; [exact Hty|]. split; [exact Halloc|].
  pose proof (loadModel_without_scene_graph Scene1.new emptyWorld (Some 3) "cube"
                eq_refl Hty Halloc) as H.
  cbv zeta in H. destruct H as (H1 & H2 & _ & _ & _ & H3 & _).
  split; [exact H1|]. split; [exact H2|exact H3].
Defined.

Lemma clearModels_idempotent_witness :
  let u := mkSceneUnit Scene1Class (Some 0) [1; 2; 3; 4; 5; 6; 61; 62] true [] in
  let r1 := unit_clearModels u furnished.2 in
  let r2 := unit_clearModels r1.1.2 r1.2 in
  is_Some (scene u) /\
  getModelCount u furnished.2 = 2 /\
  r2.1.2 = r1.1.2 /\ heap r2.2 = heap r1.2 /\ getModelCount r1.1.2 r1.2 = 0.
Proof.
  cbv zeta.
  set (u := mkSceneUnit Scene1Class (Some 0) [1; 2; 3; 4; 5; 6; 61; 62] true []).
  assert (is_Some (scene u)) as Hs by (by eexists).
  split; [exact Hs|]. split; [vm_compute; reflexivity|].
  pose proof (clearModels_idempotent u furnished.2 Hs) as H.
  cbv zeta in H. destruct H as (_ & _ & H1 & H2 & _ & H3 & _).
  split; [exact H1|]. split; [exact H2|exact H3].
Defined.

Lemma updateParticles_lifts_particles_witness :
  let u := mkSceneUnit Scene2Class (Some 9) [10; 11; 12; 13; 14; 15; 21; 25; 46; 59] true [] in
  let r := Scene2.updateParticles 0.016 u started.2 in
  exists p o g,
    scene u = Some 9 /\
    getObjectByName (heap started.2) 9 "Particles" = Some p /\
    heap started.2 !! p = Some o /\ geometry o = Some g /\
    r.1.1 = Return tt /\
    exists g', heap r.2 !! p ≫= geometry = Some g' /\
               length (positionArray g') = length (positionArray g) /\
               forall i a, i mod 3 = 1 -> positionArray g' !! i = Some a ->
                           PrimFloat.ltb 20 a = false.
Proof.
  cbv zeta.
  set (u := mkSceneUnit Scene2Class (Some 9) [10; 11; 12; 13; 14; 15; 21; 25; 46; 59] true []).
  destruct (getObjectByName (heap started.2) 9 "Particles") as [p|] eqn:Hp;
    [|vm_compute in Hp; discriminate Hp].
  destruct (heap started.2 !! p) as [o|] eqn:Ho.
  2: { exfalso. revert Ho. vm_compute in Hp. injection Hp as <-. vm_compute. discriminate. }
  destruct (geometry o) as [g|] eqn:Hg.
  2: { exfalso. revert Hg. vm_compute in Hp. injection Hp as <-.
       vm_compute in Ho. injection Ho as <-. vm_compute. discriminate. }
  exists p, o, g.
  split; [reflexivity|]. split; [reflexivity|]. split; [exact Ho|]. split; [exact Hg|].
  pose proof (updateParticles_lifts_particles u started.2 9 p o g 0.016
                eq_refl Hp Ho Hg) as H.
  cbv zeta in H. destruct H as (H1 & _ & g' & H2 & _ & H3 & _ & _ & H4).
  split; [exact H1|]. exists g'. split; [exact H2|]. split; [exact H3|exact H4].
Defined.


Lemma hasScene_iff_listed_witness :
  SceneManager.hasScene started.1 "scene2" = Return true /\
  "scene2" ∈ SceneManager.getAvailableScenes started.1.
Proof.
  assert (SceneManager.hasScene started.1 "scene2" = Return true) as Hb
    by (vm_compute; reflexivity).
  split; [exact Hb|].
  destruct (hasScene_iff_listed started.1 "scene2") as (H & _).
  by apply (H true Hb).
Defined.

